(** * zook-api: location-scoped RBAC, pagination and order rules

    A shallow embedding of the controllers of the admin backend
    (src/controllers/*.ts) and of the properties its specification
    states about them.

    Conventions of the embedding.
    - Identifiers (UUID columns, JWT claims) are [string]s; an optional
      column or claim is an [option string].  JavaScript truthiness of such
      a value ([if (req.admin?.country_id)]) is [truthy]: present and not
      the empty string.  An absent claim and a null one are both [None].
    - [req.admin] is an [option Principal]: routes without [authMiddleware]
      leave it unset, and the controllers read it through [?.].
    - A controller is a function from the request and the tables it reads
      to the response it sends and the tables it leaves behind.  A write the
      store accepts is applied as issued.  Of the store's own constraints
      the model keeps the primary key: an insert takes the key the store
      would generate as a parameter and is refused (the handler's catch-all
      500) when that key is taken.  Other constraints are modelled where a
      section says so (the foreign key that decides deleteCategory, the
      checks and the trigger of the support messages); elsewhere the store
      may refuse a write the model lets through, leaving the table as it
      was.
    - Query parameters are text, whatever their declared types say:
      [page] and [limit] reach the pagination arithmetic as the strings
      of the query string. *)

From Stdlib Require Import ZArith List String Ascii Bool QArith Qminmax Lia DecimalString.
Import ListNotations.
Local Open Scope string_scope.

(* ================================================================= *)
(** ** Values shared by all controllers *)

(** types/admin.types.ts *)
Inductive AdminRole := SUPER_ADMIN | ADMIN | FINANCE | SUPPORT | OPERATOR.

Definition AdminRole_eqb (a b : AdminRole) : bool :=
  match a, b with
  | SUPER_ADMIN, SUPER_ADMIN | ADMIN, ADMIN | FINANCE, FINANCE
  | SUPPORT, SUPPORT | OPERATOR, OPERATOR => true
  | _, _ => false
  end.

(** The decoded token attached to the request by [authMiddleware]. *)
Record Principal := {
  p_id : string;
  p_role : AdminRole;
  p_country_id : option string;
  p_city_id : option string
}.

(** [req.admin?.role !== AdminRole.SUPER_ADMIN] *)
Definition not_super_admin (admin : option Principal) : bool :=
  match admin with
  | Some p => negb (AdminRole_eqb (p_role p) SUPER_ADMIN)
  | None => true
  end.

(** [req.admin?.country_id], [req.admin?.city_id], [req.admin?.id] *)
Definition admin_country_id (admin : option Principal) : option string :=
  match admin with Some p => p_country_id p | None => None end.
Definition admin_city_id (admin : option Principal) : option string :=
  match admin with Some p => p_city_id p | None => None end.
Definition admin_id (admin : option Principal) : option string :=
  match admin with Some p => Some (p_id p) | None => None end.

(** JavaScript truthiness of an optional string. *)
Definition truthy (v : option string) : bool :=
  match v with
  | Some EmptyString => false
  | Some _ => true
  | None => false
  end.

(** [a === b] and [a !== b] on optional strings. *)
Definition opt_eqb (a b : option string) : bool :=
  match a, b with
  | Some x, Some y => String.eqb x y
  | None, None => true
  | _, _ => false
  end.
Definition opt_neqb (a b : option string) : bool := negb (opt_eqb a b).

(** utils/responseHandler.ts: the envelope and the status it is sent with. *)
Inductive EnvelopeStatus := Success | Error.

Record ApiResponse (T : Type) := {
  http_status : nat;
  status : EnvelopeStatus;
  message : string;
  data : option T
}.
Arguments http_status {T} _.
Arguments status {T} _.
Arguments message {T} _.
Arguments data {T} _.

Module ResponseHandler.
Definition success {T} (st : nat) (msg : string) (d : option T) : ApiResponse T :=
  {| http_status := st; status := Success; message := msg; data := d |}.
Definition error {T} (st : nat) (msg : string) : ApiResponse T :=
  {| http_status := st; status := Error; message := msg; data := None |}.
End ResponseHandler.

(** The error taxonomy of the specification (section 7), each kind mapped
    to the HTTP status it stands for. *)
Inductive ErrorKind :=
  ValidationError | NotFoundError | ForbiddenError | ConflictError | InternalError.

Definition kind_of (st : nat) : option ErrorKind :=
  if Nat.eqb st 400 then Some ValidationError
  else if Nat.eqb st 403 then Some ForbiddenError
  else if Nat.eqb st 404 then Some NotFoundError
  else if Nat.eqb st 409 then Some ConflictError
  else if Nat.eqb st 500 then Some InternalError
  else None.

Definition fails_with {T} (k : ErrorKind) (r : ApiResponse T) : Prop :=
  status r = Error /\ kind_of (http_status r) = Some k.

(* ================================================================= *)
(** ** Orders (controllers/order.controller.ts) *)

(** types/order.types.ts *)
Inductive OrderStatus :=
  pending | preparing | done_preparing | on_way | delivered | cancelled.

Definition OrderStatus_eqb (a b : OrderStatus) : bool :=
  match a, b with
  | pending, pending | preparing, preparing
  | done_preparing, done_preparing | on_way, on_way
  | delivered, delivered | cancelled, cancelled => true
  | _, _ => false
  end.

(** The embedded [stores (country_id, city_id)] of an order row. *)
Record StoreLocation := {
  stores_country_id : option string;
  stores_city_id : option string
}.

Record Order := {
  order_id : string;
  order_status : OrderStatus;
  order_stores : StoreLocation
}.

Definition with_order_status (o : Order) (s : OrderStatus) : Order :=
  {| order_id := order_id o; order_status := s; order_stores := order_stores o |}.

(** [.from('orders').select(...).eq('id', id).single()] *)
Definition find_order (id : string) (orders : list Order) : option Order :=
  find (fun o => String.eqb (order_id o) id) orders.

(** [.from('orders').update({ order_status: status }).eq('id', id)] *)
Definition update_order_status (id : string) (s : OrderStatus) (orders : list Order)
  : list Order :=
  map (fun o => if String.eqb (order_id o) id then with_order_status o s else o) orders.

(** [.from('orders').delete().eq('id', id)] *)
Definition delete_order (id : string) (orders : list Order) : list Order :=
  filter (fun o => negb (String.eqb (order_id o) id)) orders.

(** The "Check access rights" block shared by updateOrder, assignDriver,
    updateOrderStatus, updatePaymentStatus and deleteOrder; [verb] is
    "modify" or "delete".  [None] means the request goes on. *)
Definition order_access {T} (verb : string) (admin : option Principal) (o : Order)
  : option (ApiResponse T) :=
  if not_super_admin admin then
    if truthy (admin_country_id admin)
       && opt_neqb (stores_country_id (order_stores o)) (admin_country_id admin)
    then Some (ResponseHandler.error 403
                 ("Cannot " ++ verb ++ " order from different country"))
    else if truthy (admin_city_id admin)
            && opt_neqb (stores_city_id (order_stores o)) (admin_city_id admin)
    then Some (ResponseHandler.error 403
                 ("Cannot " ++ verb ++ " order from different city"))
    else None
  else None.

(** [validTransitions] of updateOrderStatus. *)
Definition validTransitions (s : OrderStatus) : list OrderStatus :=
  match s with
  | pending => [preparing; cancelled]
  | preparing => [done_preparing; cancelled]
  | done_preparing => [on_way; cancelled]
  | on_way => [delivered; cancelled]
  | delivered => []
  | cancelled => []
  end.

(** [Array.prototype.includes] on statuses. *)
Definition includes (l : list OrderStatus) (s : OrderStatus) : bool :=
  existsb (OrderStatus_eqb s) l.

Definition updateOrderStatus (admin : option Principal) (id : string)
    (requested : OrderStatus) (orders : list Order)
  : ApiResponse Order * list Order :=
  match find_order id orders with
  | None => (ResponseHandler.error 404 "Order not found", orders)
  | Some existingOrder =>
    match order_access "modify" admin existingOrder with
    | Some denied => (denied, orders)
    | None =>
      let currentStatus := order_status existingOrder in
      if negb (includes (validTransitions currentStatus) requested) then
        (ResponseHandler.error 400 "Invalid status transition", orders)
      else
        let orders' := update_order_status id requested orders in
        (ResponseHandler.success 200 "Order status updated successfully"
           (find_order id orders'), orders')
    end
  end.

Definition deleteOrder (admin : option Principal) (id : string) (orders : list Order)
  : ApiResponse Order * list Order :=
  match find_order id orders with
  | None => (ResponseHandler.error 404 "Order not found", orders)
  | Some order =>
    match order_access "delete" admin order with
    | Some denied => (denied, orders)
    | None =>
      if negb (OrderStatus_eqb (order_status order) pending) then
        (ResponseHandler.error 400 "Can only delete pending orders", orders)
      else
        (ResponseHandler.success 200 "Order deleted successfully" None,
         delete_order id orders)
    end
  end.

(** The callers the order handlers let through: a super admin, or a
    principal whose country, when the token carries one, is that of the
    order's store, and whose city, when the token carries one, is that of
    the order's store. *)
Definition may_access (admin : option Principal) (o : Order) : Prop :=
  (exists p, admin = Some p /\ p_role p = SUPER_ADMIN)
  \/ ((truthy (admin_country_id admin) = true ->
       stores_country_id (order_stores o) = admin_country_id admin)
      /\ (truthy (admin_city_id admin) = true ->
          stores_city_id (order_stores o) = admin_city_id admin)).

(** The transition graph as the specification draws it. *)
Inductive transition : OrderStatus -> OrderStatus -> Prop :=
| t_pending_preparing : transition pending preparing
| t_pending_cancelled : transition pending cancelled
| t_preparing_done : transition preparing done_preparing
| t_preparing_cancelled : transition preparing cancelled
| t_done_on_way : transition done_preparing on_way
| t_done_cancelled : transition done_preparing cancelled
| t_on_way_delivered : transition on_way delivered
| t_on_way_cancelled : transition on_way cancelled.

(* ================================================================= *)
(** ** JavaScript values read by the order arithmetic *)

Module Js.

(** A number is a rational or NaN: prices, percentages and quantities
    are taken with exact arithmetic in place of binary floating point.
    Infinities are not represented: the only divisor in the source is
    the literal 100. *)
Inductive Number := Num (q : Q) | NaN.

Inductive Value :=
| Undefined
| Null
| Bool (b : bool)
| Number_ (n : Number)
| String_ (s : string).

Definition num (z : Z) : Number := Num (inject_Z z).

Definition digit_of (c : Ascii.ascii) : option N :=
  let n := Ascii.N_of_ascii c in
  if (48 <=? n)%N && (n <=? 57)%N then Some (n - 48)%N else None.

Fixpoint parse_digits (s : string) (acc : N) : option N :=
  match s with
  | EmptyString => Some acc
  | String c rest =>
    match digit_of c with
    | Some d => parse_digits rest (acc * 10 + d)%N
    | None => None
    end
  end.

(** ToNumber.  A string converts when it is empty or made of decimal
    digits only; other numeric spellings are read as NaN. *)
Definition to_number (v : Value) : Number :=
  match v with
  | Undefined => NaN
  | Null => num 0
  | Bool true => num 1
  | Bool false => num 0
  | Number_ n => n
  | String_ s =>
    match parse_digits s 0%N with
    | Some n => num (Z.of_N n)
    | None => NaN
    end
  end.

(** ToBoolean *)
Definition to_boolean (v : Value) : bool :=
  match v with
  | Undefined | Null => false
  | Bool b => b
  | Number_ (Num q) => negb (Qeq_bool q 0)
  | Number_ NaN => false
  | String_ EmptyString => false
  | String_ _ => true
  end.

(** [a === b] *)
Definition strict_eq (a b : Value) : bool :=
  match a, b with
  | Undefined, Undefined | Null, Null => true
  | Bool x, Bool y => Bool.eqb x y
  | Number_ (Num x), Number_ (Num y) => Qeq_bool x y
  | String_ x, String_ y => String.eqb x y
  | _, _ => false
  end.

Definition lift2 (f : Q -> Q -> Q) (a b : Number) : Number :=
  match a, b with
  | Num x, Num y => Num (Qred (f x y))
  | _, _ => NaN
  end.

Definition add := lift2 Qplus.
Definition sub := lift2 Qminus.
Definition mul := lift2 Qmult.
Definition div (a b : Number) : Number :=
  match b with
  | Num y => if Qeq_bool y 0 then NaN else lift2 Qdiv a b
  | NaN => NaN
  end.

(** [Math.min(a, b)] *)
Definition Math_min (a b : Value) : Number :=
  lift2 Qmin (to_number a) (to_number b).

(** Numbers are compared up to the value they denote. *)
Definition number_eq (a b : Number) : Prop :=
  match a, b with
  | Num x, Num y => Qeq x y
  | NaN, NaN => True
  | _, _ => False
  end.

End Js.

(* ================================================================= *)
(** ** Promo codes (controllers/promo-code.controller.ts) *)

(** types/promo-code.types.ts *)
Inductive PromoCodeType := PERCENTAGE | FIXED.

Definition PromoCodeType_eqb (a b : PromoCodeType) : bool :=
  match a, b with
  | PERCENTAGE, PERCENTAGE | FIXED, FIXED => true
  | _, _ => false
  end.

Definition PromoCodeType_text (t : PromoCodeType) : string :=
  match t with PERCENTAGE => "percentage" | FIXED => "fixed" end.

(** [PromoCodeCreateDto]; dates are kept as the text the caller sent. *)
Record PromoCodeCreateDto := {
  dto_country_id : option string;
  dto_city_id : option string;
  dto_code : string;
  dto_type : option PromoCodeType;
  dto_discount_amount : Q;
  dto_minimum_order_amount : option Q;
  dto_maximum_discount : option Q;
  dto_usage_limit : option Z;
  dto_start_date : option string;
  dto_end_date : option string;
  dto_is_active : option bool
}.

(** A row of [promo_codes], with the columns of the [PromoCode] interface. *)
Record PromoCode := {
  promo_id : string;
  promo_country_id : option string;
  promo_city_id : option string;
  promo_code : string;
  promo_type : PromoCodeType;
  promo_discount_amount : Q;
  promo_minimum_order_amount : option Q;
  promo_maximum_discount : option Q;
  promo_usage_limit : option Z;
  promo_used_count : Z;
  promo_start_date : option string;
  promo_end_date : option string;
  promo_is_active : bool
}.

Definition opt_value {A} (f : A -> Js.Value) (o : option A) : Js.Value :=
  match o with Some a => f a | None => Js.Null end.

Definition q_value (q : Q) : Js.Value := Js.Number_ (Js.Num q).

(** Property access [promoCode.<name>] on a fetched row: the columns of
    the table under their own names (those of the [PromoCode] interface,
    of the object createPromoCode inserts and of
    database-commands/05_create_promo_codes.sql), [undefined] for any
    other name. *)
Definition promo_property (pc : PromoCode) (name : string) : Js.Value :=
  if String.eqb name "id" then Js.String_ (promo_id pc)
  else if String.eqb name "country_id" then opt_value Js.String_ (promo_country_id pc)
  else if String.eqb name "city_id" then opt_value Js.String_ (promo_city_id pc)
  else if String.eqb name "code" then Js.String_ (promo_code pc)
  else if String.eqb name "type" then Js.String_ (PromoCodeType_text (promo_type pc))
  else if String.eqb name "discount_amount" then q_value (promo_discount_amount pc)
  else if String.eqb name "minimum_order_amount"
       then opt_value q_value (promo_minimum_order_amount pc)
  else if String.eqb name "maximum_discount"
       then opt_value q_value (promo_maximum_discount pc)
  else if String.eqb name "usage_limit"
       then opt_value (fun z => Js.Number_ (Js.num z)) (promo_usage_limit pc)
  else if String.eqb name "used_count" then Js.Number_ (Js.num (promo_used_count pc))
  else if String.eqb name "start_date" then opt_value Js.String_ (promo_start_date pc)
  else if String.eqb name "end_date" then opt_value Js.String_ (promo_end_date pc)
  else if String.eqb name "is_active" then Js.Bool (promo_is_active pc)
  else Js.Undefined.

Definition Qltb (a b : Q) : bool := negb (Qle_bool b a).

(** [s.trim()] drops leading and trailing white space (here the ASCII
    blanks: tab, line feed, vertical tab, form feed, carriage return and
    space). *)
Definition is_blank (c : ascii) : bool :=
  let n := nat_of_ascii c in
  (Nat.leb 9 n && Nat.leb n 13) || Nat.eqb n 32.

Fixpoint drop_blanks (s : string) : string :=
  match s with
  | String c rest => if is_blank c then drop_blanks rest else s
  | EmptyString => EmptyString
  end.

Fixpoint rev_string (s acc : string) : string :=
  match s with
  | String c rest => rev_string rest (String c acc)
  | EmptyString => acc
  end.

Definition trim (s : string) : string :=
  rev_string (drop_blanks (rev_string (drop_blanks s) EmptyString)) EmptyString.

(** [validatePromoCode(data)] for a create request ([isUpdate = false]):
    the fields of the error entries it pushes; the request is valid when
    there is none.  [date_value] stands for [new Date(text)]. *)
Section PromoValidation.
Variable date_value : string -> Z.

Definition validatePromoCode_errors (data : PromoCodeCreateDto) : list string :=
  ((if Nat.ltb (String.length (trim (dto_code data))) 3 then ["code"] else [])
  ++ (if truthy (dto_country_id data) then [] else ["country_id"])
  ++ (if Qle_bool (dto_discount_amount data) 0 then ["discount_amount"] else [])
  ++ (match dto_type data with
      | Some PERCENTAGE =>
        if Qltb 100 (dto_discount_amount data) then ["discount_amount"] else []
      | _ => []
      end)
  ++ (match dto_minimum_order_amount data with
      | Some m => if Qle_bool m 0 then ["minimum_order_amount"] else []
      | None => []
      end)
  ++ (match dto_maximum_discount data with
      | Some m =>
        (if Qle_bool m 0 then ["maximum_discount"] else [])
        ++ (match dto_type data with
            | Some FIXED =>
              if negb (Qeq_bool (dto_discount_amount data) 0)
                 && Qltb m (dto_discount_amount data)
              then ["maximum_discount"] else []
            | _ => []
            end)
      | None => []
      end)
  ++ (match dto_usage_limit data with
      | Some u => if (u <=? 0)%Z then ["usage_limit"] else []
      | None => []
      end)
  ++ (match dto_start_date data, dto_end_date data with
      | Some s, Some e =>
        if truthy (Some s) && truthy (Some e)
           && (date_value e <=? date_value s)%Z
        then ["dates"] else []
      | _, _ => []
      end))%list.

Definition validatePromoCode_isValid (data : PromoCodeCreateDto) : bool :=
  match validatePromoCode_errors data with [] => true | _ => false end.
End PromoValidation.

(** The location check of createPromoCode (also that of createCategory and
    createBanner) on the location named in the request body. *)
Definition create_access {T} (what : string) (admin : option Principal)
    (country city : option string) : option (ApiResponse T) :=
  if not_super_admin admin then
    if opt_neqb country (admin_country_id admin)
    then Some (ResponseHandler.error 403
                 ("Cannot create " ++ what ++ " for different country"))
    else if truthy city && opt_neqb city (admin_city_id admin)
    then Some (ResponseHandler.error 403
                 ("Cannot create " ++ what ++ " for different city"))
    else None
  else None.

Section PromoCodes.
Variable date_value : string -> Z.

(** The row the store creates from
    [{...promoData, type: promoData.type || FIXED, used_count: 0}];
    [id] is the key the store generates, [is_active] defaults to true.
    The duplicate lookup of createPromoCode
    ([.eq('country_id', ..).eq('code', ..).is('city_id', .. || null)]) is
    read as equality on the three columns. *)
Definition new_promo_code (id : string) (promoData : PromoCodeCreateDto) : PromoCode :=
  {| promo_id := id;
     promo_country_id := dto_country_id promoData;
     promo_city_id := dto_city_id promoData;
     promo_code := dto_code promoData;
     promo_type := match dto_type promoData with Some t => t | None => FIXED end;
     promo_discount_amount := dto_discount_amount promoData;
     promo_minimum_order_amount := dto_minimum_order_amount promoData;
     promo_maximum_discount := dto_maximum_discount promoData;
     promo_usage_limit := dto_usage_limit promoData;
     promo_used_count := 0;
     promo_start_date := dto_start_date promoData;
     promo_end_date := dto_end_date promoData;
     promo_is_active := match dto_is_active promoData with Some b => b | None => true end |}.

Definition createPromoCode (admin : option Principal) (id : string)
    (promoData : PromoCodeCreateDto) (promo_codes : list PromoCode)
  : ApiResponse PromoCode * list PromoCode :=
  match create_access "promo code" admin
          (dto_country_id promoData) (dto_city_id promoData) with
  | Some denied => (denied, promo_codes)
  | None =>
    if negb (validatePromoCode_isValid date_value promoData) then
      (ResponseHandler.error 400 "Invalid promo code data", promo_codes)
    else if existsb (fun pc =>
               opt_eqb (promo_country_id pc) (dto_country_id promoData)
               && String.eqb (promo_code pc) (dto_code promoData)
               && opt_eqb (promo_city_id pc)
                    (if truthy (dto_city_id promoData)
                     then dto_city_id promoData else None))
             promo_codes
    then (ResponseHandler.error 409 "Promo code already exists for this location",
          promo_codes)
    else if existsb (fun pc => String.eqb (promo_id pc) id) promo_codes
    then (ResponseHandler.error 500 "Failed to create promo code", promo_codes)
    else
      let promoCode := new_promo_code id promoData in
      (ResponseHandler.success 201 "Promo code created successfully" (Some promoCode),
       (promo_codes ++ [promoCode])%list)
  end.
End PromoCodes.

(* ================================================================= *)
(** ** Order creation (OrderController.createOrder) *)

Record NamedPrice := { np_name : string; np_price : Q }.

(** The columns of [stores] and [store_items] that the controllers read. *)
Record Store := {
  store_id : string;
  store_country_id : option string;
  store_city_id : option string;
  store_is_active : bool;
  store_is_busy : bool
}.

Record StoreItem := {
  item_id : string;
  item_store_id : string;
  item_name : string;
  item_price : Q;
  item_options : list (list string);   (* per option group, its item names *)
  item_extras : list NamedPrice;
  item_is_active : bool
}.

(** An entry of [OrderCreateDto.items]. *)
Record OrderItemDto := {
  oi_id : string;
  oi_quantity : Z;
  oi_options : option (list string);   (* the chosen option names *)
  oi_extras : option (list NamedPrice)
}.

Record OrderCreateDto := {
  oc_user_id : string;
  oc_store_id : string;
  oc_payment_option_id : option string;
  oc_promo_code_id : option string;
  oc_items : list OrderItemDto
}.

(** The entries of [items] stored with the order. *)
Record OrderLine := {
  line_id : string;
  line_name : string;
  line_quantity : Z;
  line_options : list string;
  line_extras : list NamedPrice
}.

Inductive PaymentStatus := not_paid | paid | failed | refunded.

(** The object handed to [.from('orders').insert([...])]. *)
Record OrderInsert := {
  ins_user_id : string;
  ins_store_id : string;
  ins_payment_option_id : option string;
  ins_promo_code_id : option string;
  ins_items : list OrderLine;
  ins_total_item_quantity : Z;
  ins_total_item_price : Js.Number;
  ins_discount_amount : Js.Value;
  ins_final_price : Js.Number;
  ins_payment_status : PaymentStatus;
  ins_order_status : OrderStatus
}.

(** What createOrder reads. *)
Record Catalog := {
  stores : list Store;
  store_items : list StoreItem;
  active_payment_option : string -> bool;
  promo_codes : list PromoCode
}.

(** services/payment.service.ts: validatePayment always succeeds. *)
Definition validatePayment_success : bool := true.
Definition validatePayment_status : PaymentStatus := paid.

(** The body of [data.items.map(orderItem => ...)] for one item: the
    message of the [Error] it throws, or the stored line with the
    quantity and the price it adds to the running totals. *)
Definition order_line (storeItem : StoreItem) (orderItem : OrderItemDto)
  : string + (OrderLine * Z * Q) :=
  let validOptions :=
    match oi_options orderItem with
    | Some opts =>
      forallb (fun opt =>
        existsb (fun itemOpt => existsb (fun name => String.eqb name opt) itemOpt)
                (item_options storeItem)) opts
    | None => true
    end in
  if negb validOptions then inl ("Invalid options for item " ++ item_name storeItem)
  else
    let validExtras :=
      match oi_extras orderItem with
      | Some exts =>
        forallb (fun ext =>
          match find (fun e => String.eqb (np_name e) (np_name ext))
                     (item_extras storeItem) with
          | Some storeExtra => Qeq_bool (np_price storeExtra) (np_price ext)
          | None => false
          end) exts
      | None => true
      end in
    if negb validExtras then inl ("Invalid extras for item " ++ item_name storeItem)
    else
      let extrasCost :=
        match oi_extras orderItem with
        | Some exts => fold_left (fun sum ext => Qred (sum + np_price ext)) exts 0%Q
        | None => 0%Q
        end in
      let itemTotal :=
        Qred ((item_price storeItem + extrasCost) * inject_Z (oi_quantity orderItem)) in
      inr ({| line_id := item_id storeItem;
              line_name := item_name storeItem;
              line_quantity := oi_quantity orderItem;
              line_options := match oi_options orderItem with Some o => o | None => [] end;
              line_extras := match oi_extras orderItem with Some e => e | None => [] end |},
           oi_quantity orderItem, itemTotal).

(** The whole [map], threading [totalItemQuantity] and [totalItemPrice]. *)
Fixpoint order_lines (storeItems : list StoreItem) (orderItems : list OrderItemDto)
    (totalItemQuantity : Z) (totalItemPrice : Q)
  : string + (list OrderLine * Z * Q) :=
  match orderItems with
  | [] => inr ([], totalItemQuantity, totalItemPrice)
  | orderItem :: rest =>
    match find (fun item => String.eqb (item_id item) (oi_id orderItem)) storeItems with
    | None => inl "Cannot read properties of undefined"
    | Some storeItem =>
      match order_line storeItem orderItem with
      | inl msg => inl msg
      | inr (line, quantity, itemTotal) =>
        match order_lines storeItems rest
                (totalItemQuantity + quantity) (Qred (totalItemPrice + itemTotal)) with
        | inl msg => inl msg
        | inr (lines, q, p) => inr (line :: lines, q, p)
        end
      end
    end
  end.

(** "Calculate discount if promo code provided": the properties are read
    from the fetched row under the names the controller uses. *)
Definition discount_of (promoCode : string -> Js.Value) (totalItemPrice : Js.Number)
  : Js.Value :=
  let discountAmount :=
    if Js.strict_eq (promoCode "discount_type") (Js.String_ "percentage")
    then Js.Number_
           (Js.div (Js.mul totalItemPrice (Js.to_number (promoCode "discount_value")))
                   (Js.num 100))
    else promoCode "discount_value" in
  if Js.to_boolean (promoCode "max_discount")
  then Js.Number_ (Js.Math_min discountAmount (promoCode "max_discount"))
  else discountAmount.

Definition discountAmount_of (promo_code_id : option string)
    (promo_codes : list PromoCode) (totalItemPrice : Js.Number) : Js.Value :=
  if truthy promo_code_id then
    match find (fun pc => opt_eqb (Some (promo_id pc)) promo_code_id) promo_codes with
    | Some promoCode => discount_of (promo_property promoCode) totalItemPrice
    | None => Js.Number_ (Js.num 0)
    end
  else Js.Number_ (Js.num 0).

Section CreateOrder.
Variable date_value : string -> Z.
Variable now : Z.

Definition createOrder (data : OrderCreateDto) (db : Catalog)
  : ApiResponse OrderInsert :=
  match find (fun s => String.eqb (store_id s) (oc_store_id data)) (stores db) with
  | None => ResponseHandler.error 400 "Invalid store ID"
  | Some store =>
    if negb (store_is_active store) then
      ResponseHandler.error 400 "Store is not active"
    else if store_is_busy store then
      ResponseHandler.error 400 "Store is currently busy"
    else if truthy (oc_payment_option_id data)
            && negb (match oc_payment_option_id data with
                     | Some id => active_payment_option db id
                     | None => false
                     end)
    then ResponseHandler.error 400 "Invalid payment option ID"
    else
      let promo_check : option (ApiResponse OrderInsert) :=
        if truthy (oc_promo_code_id data) then
          match find (fun pc => opt_eqb (Some (promo_id pc)) (oc_promo_code_id data)
                                && promo_is_active pc) (promo_codes db) with
          | None => Some (ResponseHandler.error 400 "Invalid promo code ID")
          | Some promoCode =>
            if truthy (promo_start_date promoCode)
               && match promo_start_date promoCode with
                  | Some d => (now <? date_value d)%Z
                  | None => false
                  end
            then Some (ResponseHandler.error 400 "Promo code is not yet active")
            else if truthy (promo_end_date promoCode)
                    && match promo_end_date promoCode with
                       | Some d => (date_value d <? now)%Z
                       | None => false
                       end
            then Some (ResponseHandler.error 400 "Promo code has expired")
            else None
          end
        else None in
      match promo_check with
      | Some rejected => rejected
      | None =>
        let itemIds := map oi_id (oc_items data) in
        let storeItems :=
          filter (fun item =>
                    existsb (String.eqb (item_id item)) itemIds
                    && String.eqb (item_store_id item) (oc_store_id data)
                    && item_is_active item) (store_items db) in
        if negb (Nat.eqb (List.length storeItems) (List.length itemIds)) then
          ResponseHandler.error 400 "Invalid item IDs"
        else
          match order_lines storeItems (oc_items data) 0%Z 0%Q with
          | inl msg => ResponseHandler.error 400 msg
          | inr (items, totalItemQuantity, totalItemPrice) =>
            let discountAmount :=
              discountAmount_of (oc_promo_code_id data) (promo_codes db)
                                (Js.Num totalItemPrice) in
            let finalPrice :=
              Js.sub (Js.Num totalItemPrice) (Js.to_number discountAmount) in
            ResponseHandler.success 201
              (if validatePayment_success then "Order created successfully"
               else "Order created but payment failed")
              (Some {| ins_user_id := oc_user_id data;
                       ins_store_id := oc_store_id data;
                       ins_payment_option_id := oc_payment_option_id data;
                       ins_promo_code_id := oc_promo_code_id data;
                       ins_items := items;
                       ins_total_item_quantity := totalItemQuantity;
                       ins_total_item_price := Js.Num totalItemPrice;
                       ins_discount_amount := discountAmount;
                       ins_final_price := finalPrice;
                       ins_payment_status := validatePayment_status;
                       ins_order_status :=
                         if validatePayment_success then pending else cancelled |})
          end
      end
  end.
End CreateOrder.

(* ================================================================= *)
(** ** List endpoints: location scope and pagination

    Every [get...] list handler builds one query: entity-specific filters,
    then the "location-based access control" block, then
    [range(from, to).order(...)] with [{ count: 'exact' }], and maps the
    rows it gets into its response.  The handlers differ in the location
    block, in the default [limit], in what the mapping reads and, for two
    of them, in a check of the parent row made before the query. *)

Inductive Endpoint :=
| getOrders            (* OrderController *)
| getCategories        (* CategoryController *)
| getCities            (* CityController *)
| getPromoCodes        (* PromoCodeController *)
| getCountries         (* CountryController *)
| getRatings           (* RatingController *)
| getAllAdmins         (* AdminController *)
| getStores            (* StoreController *)
| getBanners           (* BannerController *)
| getMessages          (* SupportMessageController *)
| getMedia             (* MediaController *)
| getStoreItemCategories (* StoreItemCategoryController.getCategories *)
| getStoreItems        (* StoreItemController *)
| getPaymentOptions    (* PaymentOptionController *)
| getTickets.          (* SupportTicketController *)

(** A row as the location block sees it: its key, its own location columns
    ([None] where the column is null or the table has none) and the
    location of the store embedded with it, if any. *)
Record Row := {
  row_id : string;
  row_country_id : option string;
  row_city_id : option string;
  row_stores : option StoreLocation
}.

Inductive Column :=
  col_id | col_country_id | col_city_id | col_stores_country_id | col_stores_city_id.

Definition column_value (c : Column) (r : Row) : option string :=
  match c with
  | col_id => Some (row_id r)
  | col_country_id => row_country_id r
  | col_city_id => row_city_id r
  | col_stores_country_id =>
    match row_stores r with Some s => stores_country_id s | None => None end
  | col_stores_city_id =>
    match row_stores r with Some s => stores_city_id s | None => None end
  end.

(** The two shapes of location predicate the handlers add:
    [query.eq(column, v)] and [query.or(`column.is.null,column.eq.${v}`)]. *)
Inductive Filter :=
| filter_eq (c : Column) (v : string)
| filter_or_null_eq (c : Column) (v : string).

Definition filter_column (f : Filter) : Column :=
  match f with filter_eq c _ | filter_or_null_eq c _ => c end.

(** The test a predicate makes on the value it addresses. *)
Definition matches (r : Row) (f : Filter) : bool :=
  match f with
  | filter_eq c v => opt_eqb (column_value c r) (Some v)
  | filter_or_null_eq c v =>
    match column_value c r with
    | None => true
    | Some x => String.eqb x v
    end
  end.

(** A predicate on [stores.<column>] addresses the store embedded in the
    row.  getOrders and getStoreItems embed [stores] without [!inner]
    (the two by-id lookups of StoreItemCategoryController write
    [stores!inner]), and the store then applies such a predicate to the
    embedded store only: the row is listed all the same, with [stores]
    null when its store fails the test. *)
Definition on_embedded (f : Filter) : bool :=
  match filter_column f with
  | col_stores_country_id | col_stores_city_id => true
  | _ => false
  end.

Definition on_row (f : Filter) : bool := negb (on_embedded f).

Definition embed (fs : list Filter) (r : Row) : Row :=
  if forallb (matches r) (filter on_embedded fs) then r
  else {| row_id := row_id r; row_country_id := row_country_id r;
          row_city_id := row_city_id r; row_stores := None |}.

(** [if (v) { ... v ... }] *)
Definition when_truthy {A} (v : option string) (k : string -> list A) : list A :=
  match v with
  | Some s => if truthy v then k s else []
  | None => []
  end.

(** [req.query] holds text: Express hands every parameter over as the
    string of the query string and the application installs no parser, so
    [page] and [limit], like [country_id] and [city_id], are [None] when
    the request does not carry them and their text otherwise (a parameter
    is taken to be given at most once). *)
Record ListRequest := {
  req_admin : option Principal;
  query_country_id : option string;
  query_city_id : option string;
  query_page : option string;
  query_limit : option string;
  (** the conjunction of the entity-specific filters of the request *)
  entity_filters : Row -> bool;
  (** [order(sort_by, { ascending })] as the comparison it induces *)
  ordering : Row -> Row -> bool;
  (** the ticket (getMessages) or store (getStoreItemCategories) looked up
      before the query *)
  parent : option Row
}.

(** "Apply location-based access control", handler by handler. *)
Definition location_scope (e : Endpoint) (req : ListRequest) : list Filter :=
  let admin := req_admin req in
  match e with
  | getCategories | getPromoCodes | getBanners | getMedia =>
    if not_super_admin admin then
      when_truthy (admin_country_id admin) (fun c =>
        filter_eq col_country_id c
        :: when_truthy (admin_city_id admin) (fun y => [filter_or_null_eq col_city_id y]))
    else
      when_truthy (query_country_id req) (fun c =>
        filter_eq col_country_id c
        :: when_truthy (query_city_id req) (fun y => [filter_eq col_city_id y]))
  | getStores =>
    if not_super_admin admin then
      when_truthy (admin_country_id admin) (fun c =>
        filter_eq col_country_id c
        :: when_truthy (admin_city_id admin) (fun y => [filter_eq col_city_id y]))
    else
      when_truthy (query_country_id req) (fun c =>
        filter_eq col_country_id c
        :: when_truthy (query_city_id req) (fun y => [filter_eq col_city_id y]))
  | getRatings | getAllAdmins | getTickets =>
    if not_super_admin admin then
      (when_truthy (admin_country_id admin) (fun c => [filter_eq col_country_id c])
       ++ when_truthy (admin_city_id admin) (fun y => [filter_eq col_city_id y]))%list
    else
      (when_truthy (query_country_id req) (fun c => [filter_eq col_country_id c])
       ++ when_truthy (query_city_id req) (fun y => [filter_eq col_city_id y]))%list
  | getOrders | getStoreItems =>
    if not_super_admin admin then
      when_truthy (admin_country_id admin) (fun c =>
        filter_eq col_stores_country_id c
        :: when_truthy (admin_city_id admin) (fun y => [filter_eq col_stores_city_id y]))
    else []
  | getCities =>
    if not_super_admin admin then
      (when_truthy (admin_country_id admin) (fun c => [filter_eq col_country_id c])
       ++ when_truthy (admin_city_id admin) (fun y => [filter_eq col_id y]))%list
    else when_truthy (query_country_id req) (fun c => [filter_eq col_country_id c])
  | getPaymentOptions =>
    if not_super_admin admin then
      when_truthy (admin_country_id admin) (fun c => [filter_eq col_country_id c])
    else when_truthy (query_country_id req) (fun c => [filter_eq col_country_id c])
  | getCountries | getMessages | getStoreItemCategories => []
  end.

(** "First check ticket access" / "First check store access". *)
Definition parent_check {T} (e : Endpoint) (req : ListRequest) : option (ApiResponse T) :=
  let admin := req_admin req in
  let check (missing country city : string) :=
    match parent req with
    | None => Some (ResponseHandler.error 404 missing)
    | Some p =>
      if not_super_admin admin then
        if opt_neqb (row_country_id p) (admin_country_id admin)
        then Some (ResponseHandler.error 403 country)
        else if truthy (admin_city_id admin)
                && opt_neqb (row_city_id p) (admin_city_id admin)
        then Some (ResponseHandler.error 403 city)
        else None
      else None
    end in
  match e with
  | getMessages =>
    check "Ticket not found" "Cannot access messages from different country"
          "Cannot access messages from different city"
  | getStoreItemCategories =>
    check "Store not found" "Cannot access store from different country"
          "Cannot access store from different city"
  | _ => None
  end.

Definition list_message (e : Endpoint) : string :=
  match e with
  | getOrders => "Orders retrieved successfully"
  | getCategories | getStoreItemCategories => "Categories retrieved successfully"
  | getCities => "Cities retrieved successfully"
  | getPromoCodes => "Promo codes retrieved successfully"
  | getCountries => "Countries retrieved successfully"
  | getRatings => "Ratings retrieved successfully"
  | getAllAdmins => "Admins retrieved successfully"
  | getStores => "Stores retrieved successfully"
  | getBanners => "Banners retrieved successfully"
  | getMessages => "Messages retrieved successfully"
  | getMedia => "Media retrieved successfully"
  | getStoreItems => "Store items retrieved successfully"
  | getPaymentOptions => "Payment options retrieved successfully"
  | getTickets => "Tickets retrieved successfully"
  end.

(** The message of the handler's [catch]. *)
Definition failure_message (e : Endpoint) : string :=
  match e with
  | getOrders => "Failed to retrieve orders"
  | getCategories | getStoreItemCategories => "Failed to retrieve categories"
  | getCities => "Failed to retrieve cities"
  | getPromoCodes => "Failed to retrieve promo codes"
  | getCountries => "Failed to retrieve countries"
  | getRatings => "Failed to retrieve ratings"
  | getAllAdmins => "Failed to retrieve admins"
  | getStores => "Failed to retrieve stores"
  | getBanners => "Failed to retrieve banners"
  | getMessages => "Failed to retrieve messages"
  | getMedia => "Failed to retrieve media"
  | getStoreItems => "Failed to retrieve store items"
  | getPaymentOptions => "Failed to retrieve payment options"
  | getTickets => "Failed to retrieve tickets"
  end.

(** [limit = 10] ([50] for chat messages and store item categories) *)
Definition default_limit (e : Endpoint) : Z :=
  match e with
  | getMessages | getStoreItemCategories => 50
  | _ => 10
  end.

(** *** The arithmetic on [page] and [limit]

    After [const { page = 1, limit = 10 } = req.query] a parameter is its
    default, a number, or the text the request carries.  A number is held
    as an integer a double represents exactly ([safe]); [None] stands for
    a value that is not one: NaN, or a number the model does not compute
    (a text spelled otherwise than as a signed decimal integer, a result
    beyond the exact range). *)
Inductive Param := number (n : Z) | text (s : string).

Definition param (given : option string) (default : Z) : Param :=
  match given with Some s => text s | None => number default end.

(** Number.MAX_SAFE_INTEGER *)
Definition MAX_SAFE_INTEGER : Z := 9007199254740991.

Definition safe (z : Z) : option Z :=
  if (Z.abs z <=? MAX_SAFE_INTEGER)%Z then Some z else None.

Definition bind {A B} (o : option A) (k : A -> option B) : option B :=
  match o with Some a => k a | None => None end.

(** ToNumber of a text: the empty text is 0, a text of decimal digits
    with an optional sign is the integer it spells. *)
Definition StringToNumber (s : string) : option Z :=
  match s with
  | String "-"%char (String c rest) =>
    bind (Js.parse_digits (String c rest) 0%N) (fun n => safe (- Z.of_N n))
  | String "+"%char (String c rest) =>
    bind (Js.parse_digits (String c rest) 0%N) (fun n => safe (Z.of_N n))
  | _ => bind (Js.parse_digits s 0%N) (fun n => safe (Z.of_N n))
  end.

Definition ToNumber (p : Param) : option Z :=
  match p with
  | number n => safe n
  | text s => StringToNumber s
  end.

(** ToString of an integer in the exact range: its decimal spelling. *)
Definition NumberToString (z : Z) : string := NilZero.string_of_int (Z.to_int z).

Definition arith (f : Z -> Z -> Z) (a b : option Z) : option Z :=
  bind a (fun x => bind b (fun y => safe (f x y))).

(** [const from = (page - 1) * limit] *)
Definition from_of (page limit : Param) : option Z :=
  arith Z.mul (arith Z.sub (ToNumber page) (Some 1%Z)) (ToNumber limit).

(** [const to = from + limit - 1].  [+] adds two numbers; given a number
    and a text it joins the spelling of the number and the text, and [-]
    then reads the joined text as a number. *)
Definition to_of (from : option Z) (limit : Param) : option Z :=
  match limit with
  | number n => arith Z.sub (arith Z.add from (safe n)) (Some 1%Z)
  | text s =>
    bind from (fun z => arith Z.sub (StringToNumber (NumberToString z ++ s)) (Some 1%Z))
  end.

(** [Math.ceil(a / b)] for a divisor other than 0. *)
Definition ceil_div (a b : Z) : Z := (- ((- a) / b))%Z.

(** [Math.ceil((count || 0) / limit)]: [None] where [limit] is not an
    integer the model computes, or is 0 (NaN and the quotient by 0 are
    sent as [null]). *)
Definition totalPages_of (count : Z) (limit : Param) : option Z :=
  bind (ToNumber limit) (fun l => if (l =? 0)%Z then None else Some (ceil_div count l)).

(** *** The query and the handler *)

Fixpoint insert_row (le : Row -> Row -> bool) (r : Row) (l : list Row) : list Row :=
  match l with
  | [] => [r]
  | x :: rest => if le r x then r :: l else x :: insert_row le r rest
  end.

Definition order_rows (le : Row -> Row -> bool) (l : list Row) : list Row :=
  fold_right (insert_row le) [] l.

(** The rows the query selects before the window is cut: those that pass
    the entity filters and the location predicates on their own columns,
    ordered, each with its embedded store cut by the predicates on it.
    Their number is the exact count. *)
Definition selected (e : Endpoint) (req : ListRequest) (table : list Row) : list Row :=
  map (embed (location_scope e req))
    (order_rows (ordering req)
       (filter (fun r => entity_filters req r
                         && forallb (matches r) (filter on_row (location_scope e req)))
               table)).

(** What the response mapping reads without [?.]: [item.stores.name] in
    getStoreItems, [item.countries.name] in seven handlers.  On a row
    whose embedded store, or whose country, is null the mapping throws
    and the handler answers 500.  The other rows it reads that way (the
    category of a store, the media of a banner, the uploader of a media,
    the category of a store item) hang on columns outside [Row] and are
    taken to be there. *)
Definition formats (e : Endpoint) (r : Row) : bool :=
  match e with
  | getStoreItems =>
    match row_stores r with Some _ => true | None => false end
  | getCategories | getBanners | getCities | getPromoCodes | getPaymentOptions
  | getStores | getMedia =>
    match row_country_id r with Some _ => true | None => false end
  | _ => true
  end.

Record Page := {
  rows : list Row;
  total : Z;
  page : Param;
  limit : Param;
  totalPages : option Z
}.

Section ListHandlers.
(** The store's answer to [range(from, to)] over the selected rows: the
    rows of the window, or [None] when it answers with an error.  The
    store is not part of the repository; its answer is a parameter here,
    and the properties below ask of it only what they state. *)
Variable range : option Z -> option Z -> list Row -> option (list Row).

Definition list_handler (e : Endpoint) (req : ListRequest) (table : list Row)
  : ApiResponse Page :=
  match parent_check e req with
  | Some rejected => rejected
  | None =>
    let page := param (query_page req) 1%Z in
    let limit := param (query_limit req) (default_limit e) in
    let from := from_of page limit in
    let to := to_of from limit in
    let matching := selected e req table in
    let count := Z.of_nat (List.length matching) in
    match range from to matching with
    | None => ResponseHandler.error 500 (failure_message e)
    | Some listed =>
      if negb (forallb (formats e) listed) then
        ResponseHandler.error 500 (failure_message e)
      else
        ResponseHandler.success 200 (list_message e)
          (Some {| rows := listed;
                   total := count;
                   page := page;
                   limit := limit;
                   totalPages := totalPages_of count limit |})
    end
  end.
End ListHandlers.

(** A store that answers a range of integers [0 <= from <= to] with the
    inclusive window of the rows, and any other with an error. *)
Definition window (from to : option Z) (l : list Row) : option (list Row) :=
  match from, to with
  | Some f, Some t =>
    if (0 <=? f)%Z && (f <=? t)%Z
    then Some (firstn (Z.to_nat (t - f + 1)) (skipn (Z.to_nat f) l))
    else None
  | _, _ => None
  end.

(* ================================================================= *)
(** ** Stores (controllers/store.controller.ts) *)

(** [.from('stores').delete().eq('id', id)] after the existence check;
    the handler makes no other check. *)
Definition deleteStore (admin : option Principal) (id : string) (stores : list Store)
  : ApiResponse Store * list Store :=
  match find (fun s => String.eqb (store_id s) id) stores with
  | None => (ResponseHandler.error 404 "Store not found", stores)
  | Some store =>
    (ResponseHandler.success 200 "Store deleted successfully" None,
     filter (fun s => negb (String.eqb (store_id s) id)) stores)
  end.

(* ================================================================= *)
(** ** Categories (controllers/category.controller.ts) *)

Record Category := {
  category_id : string;
  category_country_id : option string;
  category_city_id : option string;
  category_name : string
}.

(** A store by its key and the category it belongs to:
    [category_id UUID NOT NULL REFERENCES categories(id)]
    (database-commands/08_1_create_stores_table.sql). *)
Record CategoryStore := {
  cs_store_id : string;
  cs_category_id : string
}.

(** A row of [store_categories], the table deleteCategory counts in. *)
Record StoreCategory := {
  sc_store_id : string;
  sc_category_id : string
}.

(** The tables deleteCategory touches.  [store_categories] is [None] when
    the schema has no table of that name, which is the case of the
    repository: database-commands/ creates none, and the handler marks
    it "Assuming this table exists". *)
Record CategoryDb := {
  categories : list Category;
  category_stores : list CategoryStore;
  store_categories : option (list StoreCategory)
}.

(** The location check on a fetched row shared by the update, delete and
    reposition handlers of categories, banners and promo codes. *)
Definition row_access {T} (verb what : string) (admin : option Principal)
    (country city : option string) : option (ApiResponse T) :=
  if not_super_admin admin then
    if opt_neqb country (admin_country_id admin)
    then Some (ResponseHandler.error 403
                 ("Cannot " ++ verb ++ " " ++ what ++ " from different country"))
    else if truthy city && opt_neqb city (admin_city_id admin)
    then Some (ResponseHandler.error 403
                 ("Cannot " ++ verb ++ " " ++ what ++ " from different city"))
    else None
  else None.

(** [const { count: storeCount } = await supabase.from('store_categories')
     .select('*', { count: 'exact' }).eq('category_id', id)]: the number of
    rows, or null when the store answers with an error (no such table),
    which the handler does not read. *)
Definition storeCount_of (id : string) (db : CategoryDb) : option nat :=
  match store_categories db with
  | Some l => Some (List.length (filter (fun sc => String.eqb (sc_category_id sc) id) l))
  | None => None
  end.

(** [.from('categories').delete().eq('id', id)] is refused by the store
    while a row of [stores] references the category (the foreign key of
    [stores.category_id], which names no ON DELETE action); the handler
    throws the error it gets and answers 500. *)
Definition deleteCategory (admin : option Principal) (id : string) (db : CategoryDb)
  : ApiResponse Category * CategoryDb :=
  match find (fun c => String.eqb (category_id c) id) (categories db) with
  | None => (ResponseHandler.error 404 "Category not found", db)
  | Some category =>
    match row_access "delete" "category" admin
            (category_country_id category) (category_city_id category) with
    | Some denied => (denied, db)
    | None =>
      if match storeCount_of id db with
         | Some storeCount => Nat.ltb 0 storeCount
         | None => false
         end
      then
        (ResponseHandler.error 400 "Cannot delete category that is in use by stores", db)
      else if existsb (fun s => String.eqb (cs_category_id s) id) (category_stores db)
      then (ResponseHandler.error 500 "Failed to delete category", db)
      else
        (ResponseHandler.success 200 "Category deleted successfully" None,
         {| categories :=
              filter (fun c => negb (String.eqb (category_id c) id)) (categories db);
            category_stores := category_stores db;
            store_categories := store_categories db |})
    end
  end.

(* ================================================================= *)
(** ** Admin accounts and countries
       (controllers/admin.controller.ts, controllers/country.controller.ts)

    Of an admin row the model keeps the columns the handlers decide on;
    e-mail, full name and phone number are written like [username] and
    are left out.  Likewise a country keeps [name], [code], [is_active]. *)

Record Admin := {
  adm_id : string;
  adm_username : string;
  adm_password : string;
  adm_role : AdminRole;
  adm_country_id : option string;
  adm_city_id : option string;
  adm_photo_media_id : option string;
  adm_is_active : bool
}.

Record AdminCreateDto := {
  ac_username : string;
  ac_password : string;
  ac_role : AdminRole;
  ac_country_id : option string;
  ac_city_id : option string;
  ac_photo_media_id : option string
}.

(** Every field of [AdminUpdateDto] is optional; [None] is a field the
    body does not carry. *)
Record AdminUpdateDto := {
  au_username : option string;
  au_password : option string;
  au_role : option AdminRole;
  au_country_id : option string;
  au_city_id : option string;
  au_photo_media_id : option string;
  au_is_active : option bool
}.

Record Country := {
  country_id : string;
  country_name : string;
  country_code : string;
  country_is_active : bool
}.

Record CountryCreateDto := { cc_name : string; cc_code : string }.
Record CountryUpdateDto := { cu_name : option string; cu_is_active : option bool }.

Record Media := {
  media_id : string;
  media_purpose : string;
  media_country_id : option string
}.

(** The tables the two controllers touch; of [cities] and [users] only
    the owning country matters (the dependency counts of deleteCountry). *)
Record Db := {
  admins : list Admin;
  countries : list Country;
  media : list Media;
  cities : list (string * string);          (* id, country_id *)
  users : list (string * option string)     (* id, country_id *)
}.

Definition with_admins (db : Db) (l : list Admin) : Db :=
  {| admins := l; countries := countries db; media := media db;
     cities := cities db; users := users db |}.

Definition with_countries (db : Db) (l : list Country) : Db :=
  {| admins := admins db; countries := l; media := media db;
     cities := cities db; users := users db |}.

Definition find_admin (id : string) (db : Db) : option Admin :=
  find (fun a => String.eqb (adm_id a) id) (admins db).

Definition find_country (id : string) (db : Db) : option Country :=
  find (fun c => String.eqb (country_id c) id) (countries db).

Definition or_else {A} (o : option A) (d : A) : A :=
  match o with Some a => a | None => d end.

(** "Validate photo_media_id if provided" against the country [country]. *)
Definition photo_check {T} (photo country : option string) (db : Db)
  : option (ApiResponse T) :=
  if truthy photo then
    match find (fun m => opt_eqb (Some (media_id m)) photo
                         && String.eqb (media_purpose m) "profile_photo") (media db) with
    | None => Some (ResponseHandler.error 400 "Invalid photo media ID")
    | Some m =>
      if opt_neqb (media_country_id m) country
      then Some (ResponseHandler.error 400 "Photo media must belong to the same country")
      else None
    end
  else None.

(** middleware/auth.middleware.ts *)
Definition roleGuard {T} (allowedRoles : list AdminRole) (admin : option Principal)
  : option (ApiResponse T) :=
  match admin with
  | None => Some (ResponseHandler.error 401 "Authentication required")
  | Some p =>
    if negb (existsb (AdminRole_eqb (p_role p)) allowedRoles)
    then Some (ResponseHandler.error 403 "Insufficient permissions")
    else None
  end.

Section AdminController.
(** [bcrypt.hash(password, SALT_ROUNDS)] *)
Variable bcrypt_hash : string -> string.

Definition createAdmin (admin : option Principal) (new_id : string)
    (adminData : AdminCreateDto) (db : Db) : ApiResponse Admin * Db :=
  if existsb (fun a => String.eqb (adm_username a) (ac_username adminData)) (admins db)
  then (ResponseHandler.error 409 "Username already exists", db)
  else
    let access : option (ApiResponse Admin) :=
      if not_super_admin admin then
        if opt_neqb (ac_country_id adminData) (admin_country_id admin)
        then Some (ResponseHandler.error 403 "Cannot create admin for different country")
        else if truthy (admin_city_id admin)
                && opt_neqb (ac_city_id adminData) (admin_city_id admin)
        then Some (ResponseHandler.error 403 "Cannot create admin for different city")
        else if AdminRole_eqb (ac_role adminData) SUPER_ADMIN
        then Some (ResponseHandler.error 403 "Cannot create super admin")
        else None
      else None in
    match access with
    | Some denied => (denied, db)
    | None =>
      match photo_check (ac_photo_media_id adminData) (ac_country_id adminData) db with
      | Some invalid => (invalid, db)
      | None =>
        if existsb (fun a => String.eqb (adm_id a) new_id) (admins db)
        then (ResponseHandler.error 500 "Failed to create admin", db)
        else
        let newAdmin :=
          {| adm_id := new_id;
             adm_username := ac_username adminData;
             adm_password := bcrypt_hash (ac_password adminData);
             adm_role := ac_role adminData;
             adm_country_id := ac_country_id adminData;
             adm_city_id := ac_city_id adminData;
             adm_photo_media_id := ac_photo_media_id adminData;
             adm_is_active := true |} in
        (ResponseHandler.success 201 "Admin created successfully" (Some newAdmin),
         with_admins db (admins db ++ [newAdmin])%list)
      end
    end.

(** [.update(updateData)]: the fields the body carries replace the
    stored ones. *)
Definition apply_update (a : Admin) (u : AdminUpdateDto) : Admin :=
  {| adm_id := adm_id a;
     adm_username := or_else (au_username u) (adm_username a);
     adm_password :=
       match au_password u with
       | Some pw => if truthy (Some pw) then bcrypt_hash pw else pw
       | None => adm_password a
       end;
     adm_role := or_else (au_role u) (adm_role a);
     adm_country_id :=
       match au_country_id u with Some c => Some c | None => adm_country_id a end;
     adm_city_id :=
       match au_city_id u with Some c => Some c | None => adm_city_id a end;
     adm_photo_media_id :=
       match au_photo_media_id u with
       | Some m => Some m
       | None => adm_photo_media_id a
       end;
     adm_is_active := or_else (au_is_active u) (adm_is_active a) |}.

Definition updateAdmin (admin : option Principal) (id : string)
    (updateData : AdminUpdateDto) (db : Db) : ApiResponse Admin * Db :=
  match find_admin id db with
  | None => (ResponseHandler.error 404 "Admin not found", db)
  | Some existingAdmin =>
    let access : option (ApiResponse Admin) :=
      if not_super_admin admin then
        if AdminRole_eqb (adm_role existingAdmin) SUPER_ADMIN
        then Some (ResponseHandler.error 403 "Cannot modify super admin")
        else if opt_neqb (adm_country_id existingAdmin) (admin_country_id admin)
        then Some (ResponseHandler.error 403 "Cannot modify admin from different country")
        else if truthy (admin_city_id admin)
                && opt_neqb (adm_city_id existingAdmin) (admin_city_id admin)
        then Some (ResponseHandler.error 403 "Cannot modify admin from different city")
        else if truthy (au_country_id updateData)
                || match au_role updateData with
                   | Some r => AdminRole_eqb r SUPER_ADMIN
                   | None => false
                   end
        then Some (ResponseHandler.error 403 "Invalid update parameters")
        else None
      else None in
    match access with
    | Some denied => (denied, db)
    | None =>
      if truthy (au_username updateData)
         && existsb (fun a => opt_eqb (Some (adm_username a)) (au_username updateData)
                              && negb (String.eqb (adm_id a) id)) (admins db)
      then (ResponseHandler.error 409 "Username already exists", db)
      else
        match photo_check (au_photo_media_id updateData)
                          (adm_country_id existingAdmin) db with
        | Some invalid => (invalid, db)
        | None =>
          let admins' :=
            map (fun a => if String.eqb (adm_id a) id
                          then apply_update a updateData else a) (admins db) in
          (ResponseHandler.success 200 "Admin updated successfully"
             (find (fun a => String.eqb (adm_id a) id) admins'),
           with_admins db admins')
        end
    end
  end.

Definition deleteAdmin (admin : option Principal) (id : string) (db : Db)
  : ApiResponse Admin * Db :=
  match find_admin id db with
  | None => (ResponseHandler.error 404 "Admin not found", db)
  | Some adminToDelete =>
    let access : option (ApiResponse Admin) :=
      if not_super_admin admin then
        if AdminRole_eqb (adm_role adminToDelete) SUPER_ADMIN
        then Some (ResponseHandler.error 403 "Cannot delete super admin")
        else if opt_neqb (adm_country_id adminToDelete) (admin_country_id admin)
        then Some (ResponseHandler.error 403 "Cannot delete admin from different country")
        else if truthy (admin_city_id admin)
                && opt_neqb (adm_city_id adminToDelete) (admin_city_id admin)
        then Some (ResponseHandler.error 403 "Cannot delete admin from different city")
        else None
      else None in
    match access with
    | Some denied => (denied, db)
    | None =>
      if opt_eqb (Some id) (admin_id admin) then
        (ResponseHandler.error 400 "Cannot delete your own account", db)
      else
        (ResponseHandler.success 200 "Admin deleted successfully" None,
         with_admins db
           (filter (fun a => negb (String.eqb (adm_id a) id)) (admins db)))
    end
  end.

End AdminController.

Definition createCountry (admin : option Principal) (new_id : string)
    (countryData : CountryCreateDto) (db : Db) : ApiResponse Country * Db :=
  if not_super_admin admin then
    (ResponseHandler.error 403 "Only super admin can create countries", db)
  else if existsb (fun c => String.eqb (country_code c) (cc_code countryData))
                  (countries db)
  then (ResponseHandler.error 409 "Country code already exists", db)
  else if existsb (fun c => String.eqb (country_id c) new_id) (countries db)
  then (ResponseHandler.error 500 "Failed to create country", db)
  else
    let country :=
      {| country_id := new_id;
         country_name := cc_name countryData;
         country_code := cc_code countryData;
         country_is_active := true |} in
    (ResponseHandler.success 201 "Country created successfully" (Some country),
     with_countries db (countries db ++ [country])%list).

Definition updateCountry (admin : option Principal) (id : string)
    (updateData : CountryUpdateDto) (db : Db) : ApiResponse Country * Db :=
  if not_super_admin admin then
    (ResponseHandler.error 403 "Only super admin can update countries", db)
  else
    match find_country id db with
    | None => (ResponseHandler.error 404 "Country not found", db)
    | Some existingCountry =>
      let countries' :=
        map (fun c =>
               if String.eqb (country_id c) id then
                 {| country_id := country_id c;
                    country_name := or_else (cu_name updateData) (country_name c);
                    country_code := country_code c;
                    country_is_active :=
                      or_else (cu_is_active updateData) (country_is_active c) |}
               else c) (countries db) in
      (ResponseHandler.success 200 "Country updated successfully"
         (find (fun c => String.eqb (country_id c) id) countries'),
       with_countries db countries')
    end.

Definition deleteCountry (admin : option Principal) (id : string) (db : Db)
  : ApiResponse Country * Db :=
  if not_super_admin admin then
    (ResponseHandler.error 403 "Only super admin can delete countries", db)
  else
    match find_country id db with
    | None => (ResponseHandler.error 404 "Country not found", db)
    | Some country =>
      let hasDependencies :=
        existsb (fun c => String.eqb (snd c) id) (cities db)
        || existsb (fun a => opt_eqb (adm_country_id a) (Some id)) (admins db)
        || existsb (fun u => opt_eqb (snd u) (Some id)) (users db) in
      if hasDependencies then
        (ResponseHandler.error 400
           "Cannot delete country with existing cities, admins, or users. Deactivate it instead.",
         db)
      else
        (ResponseHandler.success 200 "Country deleted successfully" None,
         with_countries db
           (filter (fun c => negb (String.eqb (country_id c) id)) (countries db)))
    end.

(** The requests that write to [admins] or [countries]. *)
Inductive Request :=
| CreateCountry (new_id : string) (countryData : CountryCreateDto)
| UpdateCountry (id : string) (updateData : CountryUpdateDto)
| DeleteCountry (id : string)
| CreateAdmin (new_id : string) (adminData : AdminCreateDto)
| UpdateAdmin (id : string) (updateData : AdminUpdateDto)
| DeleteAdmin (id : string).

Section Executions.
Variable bcrypt_hash : string -> string.

(** The status sent and the tables left by one request. *)
Definition handle (admin : option Principal) (r : Request) (db : Db) : nat * Db :=
  match r with
  | CreateCountry new_id d =>
    let '(res, db') := createCountry admin new_id d db in (http_status res, db')
  | UpdateCountry id d =>
    let '(res, db') := updateCountry admin id d db in (http_status res, db')
  | DeleteCountry id =>
    let '(res, db') := deleteCountry admin id db in (http_status res, db')
  | CreateAdmin new_id d =>
    let '(res, db') := createAdmin bcrypt_hash admin new_id d db in (http_status res, db')
  | UpdateAdmin id d =>
    let '(res, db') := updateAdmin bcrypt_hash admin id d db in (http_status res, db')
  | DeleteAdmin id =>
    let '(res, db') := deleteAdmin admin id db in (http_status res, db')
  end.

(** An execution: requests served one after the other. *)
Fixpoint run (trace : list (option Principal * Request)) (db : Db) : Db :=
  match trace with
  | [] => db
  | (admin, r) :: rest => run rest (snd (handle admin r db))
  end.
End Executions.

(** The accounts that hold the super-admin role. *)
Definition is_super (a : Admin) : bool := AdminRole_eqb (adm_role a) SUPER_ADMIN.

Definition super_admins (db : Db) : list Admin := filter is_super (admins db).

Definition is_country_request (r : Request) : bool :=
  match r with
  | CreateCountry _ _ | UpdateCountry _ _ | DeleteCountry _ => true
  | _ => false
  end.

(* ================================================================= *)
(** ** The location scope, as the specification states it *)




(* ================================================================= *)
(** ** Reading one row *)

(** [.single()]: the row when the query selects exactly one, an error
    (no data) otherwise. *)
Definition single {A} (selected : list A) : option A :=
  match selected with
  | [x] => Some x
  | _ => None
  end.

(* ================================================================= *)
(** ** Reordering (update_category_position, update_banner_position and
       the updatePosition handlers of categories and banners)

    The two SQL functions have the same body over their own table, and
    the two handlers the same text up to the noun.  Of a row the model
    keeps the key, the location and [position], which is set on every
    row ([position: number] in the interfaces). *)
Record Positioned := {
  pos_id : string;
  pos_country_id : string;
  pos_city_id : option string;
  pos_position : Z
}.

Definition with_position (r : Positioned) (p : Z) : Positioned :=
  {| pos_id := pos_id r; pos_country_id := pos_country_id r;
     pos_city_id := pos_city_id r; pos_position := p |}.

Definition UUID_NIL : string := "00000000-0000-0000-0000-000000000000".

Definition COALESCE {A} (v : option A) (d : A) : A :=
  match v with Some x => x | None => d end.

(** [country_id = p_country_id AND
     COALESCE(city_id, UUID_NIL()) = COALESCE(p_city_id, UUID_NIL())] *)
Definition same_location (p_country_id : string) (p_city_id : option string)
    (r : Positioned) : bool :=
  String.eqb (pos_country_id r) p_country_id
  && String.eqb (COALESCE (pos_city_id r) UUID_NIL) (COALESCE p_city_id UUID_NIL).

(** [MAX(position)]: NULL over no rows. *)
Fixpoint MAX (l : list Z) : option Z :=
  match l with
  | [] => None
  | x :: rest =>
    match MAX rest with
    | Some m => Some (Z.max x m)
    | None => Some x
    end
  end.

(** [UPDATE ... SET position = ... WHERE ...]: every row is tested on its
    value before the statement. *)
Definition UPDATE (hit : Positioned -> bool) (set : Positioned -> Positioned)
    (rows : list Positioned) : list Positioned :=
  map (fun r => if hit r then set r else r) rows.

Definition update_position (p_id : string) (p_new_position : Z)
    (p_country_id : string) (p_city_id : option string) (rows : list Positioned)
  : list Positioned :=
  match find (fun r => String.eqb (pos_id r) p_id) rows with
  | None => rows
  | Some current =>
    let v_old_position := pos_position current in
    let v_max_position :=
      COALESCE (MAX (map pos_position
                       (filter (same_location p_country_id p_city_id) rows))) 0%Z in
    let p_new_position :=
      if (p_new_position <? 0)%Z then 0%Z
      else if (p_new_position >? v_max_position)%Z then v_max_position
      else p_new_position in
    let set_target :=
      UPDATE (fun r => String.eqb (pos_id r) p_id)
             (fun r => with_position r p_new_position) in
    if (v_old_position >? p_new_position)%Z then
      set_target
        (UPDATE (fun r => same_location p_country_id p_city_id r
                          && (pos_position r >=? p_new_position)%Z
                          && (pos_position r <? v_old_position)%Z)
                (fun r => with_position r (pos_position r + 1)%Z) rows)
    else if (v_old_position <? p_new_position)%Z then
      set_target
        (UPDATE (fun r => same_location p_country_id p_city_id r
                          && (pos_position r >? v_old_position)%Z
                          && (pos_position r <=? p_new_position)%Z)
                (fun r => with_position r (pos_position r - 1)%Z) rows)
    else rows
  end.

Definition update_category_position := update_position.
Definition update_banner_position := update_position.

(** [updatePosition] of CategoryController and of BannerController, which
    differ in the noun of their messages.  [position] is an integer, as
    the INTEGER parameter it is passed on to. *)
Definition updatePosition (what What : string) (admin : option Principal)
    (id : string) (position : Z) (rows : list Positioned)
  : ApiResponse unit * list Positioned :=
  if (position <? 0)%Z then
    (ResponseHandler.error 400 "Invalid position value", rows)
  else
    match single (filter (fun r => String.eqb (pos_id r) id) rows) with
    | None => (ResponseHandler.error 404 (What ++ " not found"), rows)
    | Some row =>
      match row_access "modify" what admin
              (Some (pos_country_id row)) (pos_city_id row) with
      | Some denied => (denied, rows)
      | None =>
        (ResponseHandler.success 200 (What ++ " position updated successfully") None,
         update_position id position (pos_country_id row) (pos_city_id row) rows)
      end
    end.

Definition CategoryController_updatePosition := updatePosition "category" "Category".
Definition BannerController_updatePosition := updatePosition "banner" "Banner".

(** The position the function settles on for a request that passed the
    handler's check. *)
Definition target_position (position : Z) (row : Positioned) (rows : list Positioned)
  : Z :=
  Z.min position
    (COALESCE (MAX (map pos_position
                      (filter (same_location (pos_country_id row) (pos_city_id row))
                              rows))) 0%Z).

(** What the two statements of [update_position] do to one row when the
    target moves from [old] to [new]. *)
Definition reposition (p_id : string) (old new : Z) (p_country_id : string)
    (p_city_id : option string) (r : Positioned) : Positioned :=
  if String.eqb (pos_id r) p_id then with_position r new
  else if same_location p_country_id p_city_id r
          && (new <=? pos_position r)%Z && (pos_position r <? old)%Z
  then with_position r (pos_position r + 1)%Z
  else if same_location p_country_id p_city_id r
          && (old <? pos_position r)%Z && (pos_position r <=? new)%Z
  then with_position r (pos_position r - 1)%Z
  else r.

(* ================================================================= *)
(** ** Orders: the life of an order, and updateOrder *)

(** How far an order has come; [cancelled] is past everything. *)
Definition progress (s : OrderStatus) : nat :=
  match s with
  | pending => 0
  | preparing => 1
  | done_preparing => 2
  | on_way => 3
  | delivered => 4
  | cancelled => 5
  end.

(** The requests of PATCH /:id/update-status and DELETE /:id. *)
Inductive OrderRequest :=
| UpdateOrderStatus (id : string) (requested : OrderStatus)
| DeleteOrder (id : string).

Definition handle_order (admin : option Principal) (r : OrderRequest)
    (orders : list Order) : list Order :=
  match r with
  | UpdateOrderStatus id requested => snd (updateOrderStatus admin id requested orders)
  | DeleteOrder id => snd (deleteOrder admin id orders)
  end.

Fixpoint run_orders (trace : list (option Principal * OrderRequest))
    (orders : list Order) : list Order :=
  match trace with
  | [] => orders
  | (admin, r) :: rest => run_orders rest (handle_order admin r orders)
  end.

(** [OrderUpdateDto] on the columns of the model: [None] is a field the
    body does not carry. *)
Record OrderUpdateDto := {
  ou_payment_option_id : option string;
  ou_order_status : option OrderStatus
}.

(** PUT /:id.  [.update(data)] writes the fields the body carries. *)
Definition updateOrder (active_payment_option : string -> bool)
    (admin : option Principal) (id : string) (data : OrderUpdateDto)
    (orders : list Order) : ApiResponse Order * list Order :=
  match find_order id orders with
  | None => (ResponseHandler.error 404 "Order not found", orders)
  | Some existingOrder =>
    match order_access "modify" admin existingOrder with
    | Some denied => (denied, orders)
    | None =>
      if truthy (ou_payment_option_id data)
         && negb (match ou_payment_option_id data with
                  | Some option_id => active_payment_option option_id
                  | None => false
                  end)
      then (ResponseHandler.error 400 "Invalid payment option ID", orders)
      else
        let orders' :=
          match ou_order_status data with
          | Some s => update_order_status id s orders
          | None => orders
          end in
        (ResponseHandler.success 200 "Order updated successfully"
           (find_order id orders'), orders')
    end
  end.

(* ================================================================= *)
(** ** Order creation: what the totals add up *)

(** The sum of the extras an order item names. *)
Definition extras_price (orderItem : OrderItemDto) : Q :=
  fold_right (fun ext sum => np_price ext + sum) 0 (or_else (oi_extras orderItem) []).

(** The active item of the store under this id. *)
Definition catalog_item (db : Catalog) (store : string) (id : string)
  : option StoreItem :=
  find (fun item => String.eqb (item_id item) id
                    && String.eqb (item_store_id item) store
                    && item_is_active item) (store_items db).

(** (catalog price + extras) x quantity *)
Definition item_total (db : Catalog) (store : string) (orderItem : OrderItemDto) : Q :=
  match catalog_item db store (oi_id orderItem) with
  | Some storeItem =>
    (item_price storeItem + extras_price orderItem) * inject_Z (oi_quantity orderItem)
  | None => 0
  end.

Definition sum_Z (l : list Z) : Z := fold_right Z.add 0%Z l.
Definition sum_Q (l : list Q) : Q := fold_right Qplus 0 l.

(* ================================================================= *)
(** ** Admin accounts: login, the guarded routes, unique names *)

Section Login.
(** [bcrypt.compare(password, admin.password)] *)
Variable bcrypt_compare : string -> string -> bool.

(** AdminController.login; the answer carries the payload handed to
    [jwt.sign], which [authMiddleware] attaches to later requests. *)
Definition login (username password : string) (db : Db) : ApiResponse Principal :=
  match single (filter (fun a => String.eqb (adm_username a) username
                                 && adm_is_active a) (admins db)) with
  | None => ResponseHandler.error 401 "Invalid credentials"
  | Some admin =>
    if negb (bcrypt_compare password (adm_password admin)) then
      ResponseHandler.error 401 "Invalid credentials"
    else
      ResponseHandler.success 200 "Login successful"
        (Some {| p_id := adm_id admin; p_role := adm_role admin;
                 p_country_id := adm_country_id admin;
                 p_city_id := adm_city_id admin |})
  end.
End Login.

(** routes/admin.routes.ts and routes/country.routes.ts: the roles each
    write route lets through. *)
Definition allowedRoles (r : Request) : list AdminRole :=
  match r with
  | CreateCountry _ _ | UpdateCountry _ _ | DeleteCountry _ => [SUPER_ADMIN]
  | CreateAdmin _ _ | UpdateAdmin _ _ | DeleteAdmin _ => [ADMIN]
  end.

Section Routes.
Variable bcrypt_hash : string -> string.

Definition route (admin : option Principal) (r : Request) (db : Db) : nat * Db :=
  match roleGuard (T := unit) (allowedRoles r) admin with
  | Some rejected => (http_status rejected, db)
  | None => handle bcrypt_hash admin r db
  end.

Fixpoint run_routes (trace : list (option Principal * Request)) (db : Db) : Db :=
  match trace with
  | [] => db
  | (admin, r) :: rest => run_routes rest (snd (route admin r db))
  end.
End Routes.

(** An update that carries [username] carries a non-empty one. *)
Definition names_its_account (r : Request) : Prop :=
  match r with
  | UpdateAdmin _ updateData => au_username updateData <> Some EmptyString
  | _ => True
  end.

(* ================================================================= *)
(** ** Promo codes: what the table demands of a row

    The CHECK constraints of [promo_codes]
    (database-commands/05_create_promo_codes.sql). *)
Section PromoChecks.
Variable date_value : string -> Z.

Definition valid_discount_amount (pc : PromoCode) : Prop :=
  0 < promo_discount_amount pc.

Definition valid_maximum_discount (pc : PromoCode) : Prop :=
  match promo_type pc with
  | FIXED =>
    match promo_maximum_discount pc with
    | None => True
    | Some maximum => promo_discount_amount pc <= maximum
    end
  | PERCENTAGE =>
    promo_discount_amount pc <= 100
    /\ match promo_maximum_discount pc with
       | None => True
       | Some maximum => 0 < maximum
       end
  end.

Definition valid_minimum_order (pc : PromoCode) : Prop :=
  match promo_minimum_order_amount pc with
  | None => True
  | Some minimum => 0 < minimum
  end.

Definition valid_usage_limit (pc : PromoCode) : Prop :=
  match promo_usage_limit pc with
  | None => True
  | Some limit => (0 < limit)%Z
  end.

Definition valid_dates (pc : PromoCode) : Prop :=
  match promo_start_date pc, promo_end_date pc with
  | Some start_date, Some end_date => (date_value start_date < date_value end_date)%Z
  | _, _ => True
  end.

Definition valid_location (pc : PromoCode) : Prop :=
  promo_country_id pc <> None.

Definition meets_checks (pc : PromoCode) : Prop :=
  valid_discount_amount pc /\ valid_maximum_discount pc /\ valid_minimum_order pc
  /\ valid_usage_limit pc /\ valid_dates pc /\ valid_location pc.
End PromoChecks.

(** Two rows that differ at most in [minimum_order_amount], [usage_limit]
    and [used_count]. *)
Definition same_but_limits (a b : PromoCode) : Prop :=
  promo_id a = promo_id b
  /\ promo_country_id a = promo_country_id b
  /\ promo_city_id a = promo_city_id b
  /\ promo_code a = promo_code b
  /\ promo_type a = promo_type b
  /\ promo_discount_amount a = promo_discount_amount b
  /\ promo_maximum_discount a = promo_maximum_discount b
  /\ promo_start_date a = promo_start_date b
  /\ promo_end_date a = promo_end_date b
  /\ promo_is_active a = promo_is_active b.

Definition with_promo_codes (db : Catalog) (l : list PromoCode) : Catalog :=
  {| stores := stores db; store_items := store_items db;
     active_payment_option := active_payment_option db; promo_codes := l |}.

(* ================================================================= *)
(** ** Ratings: the statistics of a target (RatingController.getRatings) *)

(** types/rating.types.ts *)
Inductive RatingTargetType := STORE | ITEM.
Inductive RatingStatus := PENDING | APPROVED | REJECTED | REPORTED.

Definition RatingTargetType_eqb (a b : RatingTargetType) : bool :=
  match a, b with
  | STORE, STORE | ITEM, ITEM => true
  | _, _ => false
  end.

Definition RatingStatus_eqb (a b : RatingStatus) : bool :=
  match a, b with
  | PENDING, PENDING | APPROVED, APPROVED | REJECTED, REJECTED
  | REPORTED, REPORTED => true
  | _, _ => false
  end.

Record Rating := {
  rating_id : string;
  rating_country_id : string;
  rating_city_id : option string;
  rating_user_id : string;
  rating_target_type : RatingTargetType;
  rating_target_id : string;
  rating_star_count : Z;
  rating_status : RatingStatus;
  rating_report_reason : option string;
  rating_moderated_by : option string;
  rating_moderated_at : option string;
  rating_is_active : bool
}.

(** [rating_distribution] is an object keyed by star count, kept here as
    the list of its entries; numbers are rationals as in [Js]. *)
Record RatingStats := {
  average_rating : Q;
  total_ratings : nat;
  rating_distribution : list (Z * Z)
}.

(** [acc[curr.star_count] = (acc[curr.star_count] || 0) + 1] *)
Fixpoint count_star (star_count : Z) (acc : list (Z * Z)) : list (Z * Z) :=
  match acc with
  | [] => [(star_count, 1%Z)]
  | (k, n) :: rest =>
    if (k =? star_count)%Z then (k, (n + 1)%Z) :: rest
    else (k, n) :: count_star star_count rest
  end.

(** [distribution[k]], [undefined] read as 0 *)
Fixpoint distribution_at (k : Z) (distribution : list (Z * Z)) : Z :=
  match distribution with
  | [] => 0%Z
  | (k', n) :: rest => if (k' =? k)%Z then n else distribution_at k rest
  end.

(** [.match({ target_type, target_id, is_active: true }).eq('status', APPROVED)] *)
Definition statsData (target_type : RatingTargetType) (target_id : string)
    (ratings : list Rating) : list Rating :=
  filter (fun r => RatingTargetType_eqb (rating_target_type r) target_type
                   && String.eqb (rating_target_id r) target_id
                   && rating_is_active r
                   && RatingStatus_eqb (rating_status r) APPROVED) ratings.

(** "Calculate stats if target is specified" *)
Definition stats_of (target_type : option RatingTargetType) (target_id : option string)
    (ratings : list Rating) : option RatingStats :=
  match target_type, target_id with
  | Some type, Some id =>
    if truthy (Some id) then
      let rows := statsData type id ratings in
      let total := List.length rows in
      let sum := fold_left (fun acc curr => (acc + rating_star_count curr)%Z) rows 0%Z in
      let distribution :=
        fold_left (fun acc curr => count_star (rating_star_count curr) acc) rows [] in
      Some {| average_rating :=
                if Nat.ltb 0 total then inject_Z sum / inject_Z (Z.of_nat total) else 0;
              total_ratings := total;
              rating_distribution := distribution |}
    else None
  | _, _ => None
  end.

(* ================================================================= *)
(** ** Stores: the two switches (StoreController.toggleBusyStatus,
       StoreController.toggleActiveStatus) *)

Definition with_is_busy (s : Store) (b : bool) : Store :=
  {| store_id := store_id s; store_country_id := store_country_id s;
     store_city_id := store_city_id s; store_is_active := store_is_active s;
     store_is_busy := b |}.

Definition with_is_active (s : Store) (b : bool) : Store :=
  {| store_id := store_id s; store_country_id := store_country_id s;
     store_city_id := store_city_id s; store_is_active := b;
     store_is_busy := store_is_busy s |}.

(** [.update({ is_busy: !store.is_busy }).eq('id', id)] after the
    existence check; like deleteStore, the handlers do not look at the
    caller.  A flag of [Store] is the truth value the handlers take its
    column for ([!store.is_busy], [if (store.is_busy)]): a null column
    reads as false.  [updated_at], which a trigger of the table rewrites
    on every update, is not a column of the model. *)
Definition toggleBusyStatus (id : string) (stores : list Store)
  : ApiResponse Store * list Store :=
  match find (fun s => String.eqb (store_id s) id) stores with
  | None => (ResponseHandler.error 404 "Store not found", stores)
  | Some store =>
    (ResponseHandler.success 200
       ("Store is now " ++ if negb (store_is_busy store) then "busy" else "available")
       None,
     map (fun s => if String.eqb (store_id s) id
                   then with_is_busy s (negb (store_is_busy store)) else s) stores)
  end.

Definition toggleActiveStatus (id : string) (stores : list Store)
  : ApiResponse Store * list Store :=
  match find (fun s => String.eqb (store_id s) id) stores with
  | None => (ResponseHandler.error 404 "Store not found", stores)
  | Some store =>
    (ResponseHandler.success 200
       ("Store is now " ++ if negb (store_is_active store) then "active" else "inactive")
       None,
     map (fun s => if String.eqb (store_id s) id
                   then with_is_active s (negb (store_is_active store)) else s) stores)
  end.

Definition with_stores (db : Catalog) (l : list Store) : Catalog :=
  {| stores := l; store_items := store_items db;
     active_payment_option := active_payment_option db;
     promo_codes := promo_codes db |}.

(* ================================================================= *)
(** ** Slugs (StoreItemCategoryController.generateSlug, and the slug of
       StoreController.createStore)

    Text is Latin-1: a character is its code point below 256. *)

Definition in_range (low high : nat) (c : ascii) : bool :=
  Nat.leb low (nat_of_ascii c) && Nat.leb (nat_of_ascii c) high.

(** [String.prototype.toLowerCase]: A-Z, and the capitals of the upper
    half but the multiplication sign. *)
Definition lower (c : ascii) : ascii :=
  if in_range 65 90 c
     || (in_range 192 222 c && negb (Nat.eqb (nat_of_ascii c) 215))
  then ascii_of_nat (nat_of_ascii c + 32)
  else c.

Fixpoint toLowerCase (s : string) : string :=
  match s with
  | EmptyString => EmptyString
  | String c rest => String (lower c) (toLowerCase rest)
  end.

(** [[a-z0-9]] *)
Definition is_alnum (c : ascii) : bool := in_range 97 122 c || in_range 48 57 c.

Definition is_dash (c : ascii) : bool := Ascii.eqb c "-".

(** [.replace(/[^a-z0-9]+/g, '-')]: [in_run] tells that the characters
    just read were part of a run already replaced. *)
Fixpoint replace_runs (in_run : bool) (s : string) : string :=
  match s with
  | EmptyString => EmptyString
  | String c rest =>
    if is_alnum c then String c (replace_runs false rest)
    else if in_run then replace_runs true rest
    else String "-" (replace_runs true rest)
  end.

(** [.replace(/(^-|-$)/g, '')]: a dash at the start, then a dash at the end *)
Definition strip_first (s : string) : string :=
  match s with
  | String c rest => if is_dash c then rest else s
  | EmptyString => EmptyString
  end.

Fixpoint strip_last (s : string) : string :=
  match s with
  | EmptyString => EmptyString
  | String c EmptyString => if is_dash c then EmptyString else s
  | String c rest => String c (strip_last rest)
  end.

Definition generateSlug (name : string) : string :=
  strip_last (strip_first (replace_runs false (toLowerCase name))).

(** [\s] *)
Definition is_space (c : ascii) : bool :=
  is_blank c || Nat.eqb (nat_of_ascii c) 160.

(** [.replace(/\s+/g, '-')] *)
Fixpoint replace_spaces (in_run : bool) (s : string) : string :=
  match s with
  | EmptyString => EmptyString
  | String c rest =>
    if is_space c then
      if in_run then replace_spaces true rest
      else String "-" (replace_spaces true rest)
    else String c (replace_spaces false rest)
  end.

(** [.replace(/[^a-z0-9-]/g, '')] *)
Fixpoint keep_slug_chars (s : string) : string :=
  match s with
  | EmptyString => EmptyString
  | String c rest =>
    if is_alnum c || is_dash c then String c (keep_slug_chars rest)
    else keep_slug_chars rest
  end.

(** [data.name.toLowerCase().replace(/\s+/g, '-').replace(/[^a-z0-9-]/g, '')] *)
Definition store_slug (name : string) : string :=
  keep_slug_chars (replace_spaces false (toLowerCase name)).

(** Words of [a-z0-9] joined by single dashes; [after_dash] tells that a
    dash may not come next. *)
Fixpoint dashed_words (after_dash : bool) (s : string) : bool :=
  match s with
  | EmptyString => negb after_dash
  | String c rest =>
    if is_alnum c then dashed_words false rest
    else is_dash c && negb after_dash && dashed_words true rest
  end.

(** The empty text, or words joined by single dashes. *)
Definition is_slug (s : string) : bool :=
  match s with
  | EmptyString => true
  | _ => dashed_words true s
  end.

(** Made of [a-z0-9-] only. *)
Fixpoint slug_chars (s : string) : bool :=
  match s with
  | EmptyString => true
  | String c rest => (is_alnum c || is_dash c) && slug_chars rest
  end.

(** As [dashed_words], but the text may end on a dash. *)
Fixpoint single_dashes (after_dash : bool) (s : string) : bool :=
  match s with
  | EmptyString => true
  | String c rest =>
    if is_alnum c then single_dashes false rest
    else is_dash c && negb after_dash && single_dashes true rest
  end.

(* ================================================================= *)
(** ** Support tickets and messages
       (controllers/support-ticket.controller.ts,
        controllers/support-message.controller.ts) *)

(** The columns of [support_tickets] the location check reads. *)
Record Ticket := {
  ticket_id : string;
  ticket_country_id : string;
  ticket_city_id : option string
}.

(** A row of [support_messages]: its key, its ticket, its sender and the
    two columns markAsRead writes.  [is_read] is [BOOLEAN DEFAULT false]
    and may be null; [None] is a null. *)
Record SupportMessage := {
  msg_id : string;
  msg_ticket_id : string;
  msg_sender_type : string;
  msg_sender_id : string;
  msg_is_read : option bool;
  msg_read_at : option string
}.

(** The location check of the ticket and message handlers: the country of
    the ticket, then its city when the caller is bound to one. *)
Definition ticket_access {T} (country_message city_message : string)
    (admin : option Principal) (ticket : Ticket) : option (ApiResponse T) :=
  if not_super_admin admin then
    if opt_neqb (Some (ticket_country_id ticket)) (admin_country_id admin)
    then Some (ResponseHandler.error 403 country_message)
    else if truthy (admin_city_id admin)
            && opt_neqb (ticket_city_id ticket) (admin_city_id admin)
    then Some (ResponseHandler.error 403 city_message)
    else None
  else None.

Definition present {A} (v : option A) : bool :=
  match v with Some _ => true | None => false end.

Definition is_null {A} (v : option A) : bool := negb (present v).

(** ToBoolean of a nullable boolean: null is falsy. *)
Definition to_boolean (v : option bool) : bool :=
  match v with Some b => b | None => false end.

(** CONSTRAINT valid_read_at of [support_messages]
    (database-commands/13_create_support_tables.sql):
    [(is_read = false AND read_at IS NULL) OR
     (is_read = true AND read_at IS NOT NULL)], which is not false, and
    so is met, when [is_read] is null. *)
Definition valid_read_at (m : SupportMessage) : bool :=
  match msg_is_read m with
  | Some b => Bool.eqb b (present (msg_read_at m))
  | None => true
  end.

(** [unread_messages_count] as updateTicket reports it:
    [messageCounts?.filter(m => !m.is_read).length] over the messages of
    the ticket. *)
Definition unread_messages_count (ticket : string) (messages : list SupportMessage)
  : nat :=
  List.length (filter (fun m => negb (to_boolean (msg_is_read m)))
                      (filter (fun m => String.eqb (msg_ticket_id m) ticket) messages)).

(** [.eq('is_read', false)]: the comparison holds of a false, not of a null. *)
Definition unread (m : SupportMessage) : bool :=
  match msg_is_read m with Some false => true | _ => false end.

(** [.update({ is_read: true, read_at: now }).eq('ticket_id', ticket_id)
     .eq('is_read', false)] on one row *)
Definition mark_read (now ticket : string) (m : SupportMessage) : SupportMessage :=
  if String.eqb (msg_ticket_id m) ticket && unread m
  then {| msg_id := msg_id m; msg_ticket_id := msg_ticket_id m;
          msg_sender_type := msg_sender_type m; msg_sender_id := msg_sender_id m;
          msg_is_read := Some true; msg_read_at := Some now |}
  else m.

Section SupportMessageController.
(** The lookup of the trigger validate_message_sender, which runs before
    every insert and update of a message: is there a user, or an admin,
    according to [sender_type], under [sender_id]?  When it finds none
    for a row the update raises an exception and writes nothing. *)
Variable sender_exists : string -> string -> bool.

(** SupportMessageController.markAsRead *)
Definition markAsRead (now : string) (admin : option Principal) (ticket : string)
    (tickets : list Ticket) (messages : list SupportMessage)
  : ApiResponse unit * list SupportMessage :=
  match single (filter (fun t => String.eqb (ticket_id t) ticket) tickets) with
  | None => (ResponseHandler.error 404 "Ticket not found", messages)
  | Some found =>
    match ticket_access "Cannot access messages from different country"
            "Cannot access messages from different city" admin found with
    | Some denied => (denied, messages)
    | None =>
      if negb (forallb (fun m => negb (String.eqb (msg_ticket_id m) ticket && unread m)
                                 || sender_exists (msg_sender_type m) (msg_sender_id m))
                       messages)
      then (ResponseHandler.error 500 "Failed to mark messages as read", messages)
      else
        (ResponseHandler.success 200 "Messages marked as read successfully" None,
         map (mark_read now ticket) messages)
    end
  end.
End SupportMessageController.

(* ================================================================= *)
(** ** Photos of a store item (StoreItemController.addPhotos) *)

(** Of a row of [store_item_photos] the item, the media and the position. *)
Record Photo := {
  photo_store_item_id : string;
  photo_media_id : string;
  photo_position : Z
}.

(** The location check of the store item handlers, on the store joined
    to the item. *)
Definition item_access {T} (admin : option Principal) (store : Store)
  : option (ApiResponse T) :=
  if not_super_admin admin then
    if truthy (admin_country_id admin)
       && opt_neqb (store_country_id store) (admin_country_id admin)
    then Some (ResponseHandler.error 403 "Cannot modify store item from different country")
    else if truthy (admin_city_id admin)
            && opt_neqb (store_city_id store) (admin_city_id admin)
    then Some (ResponseHandler.error 403 "Cannot modify store item from different city")
    else None
  else None.

(** [(maxPos?.position || -1) + 1] *)
Definition startPosition_after (maxPos : option Z) : Z :=
  match maxPos with
  | Some position => ((if (position =? 0)%Z then -1 else position) + 1)%Z
  | None => (-1 + 1)%Z
  end.

(** [media_ids.map((media_id, index) => ({ store_item_id: id, media_id,
     position: positions?.[index] ?? (startPosition + index) }))] *)
Fixpoint photos_from (id : string) (positions : option (list Z)) (startPosition : Z)
    (index : nat) (media_ids : list string) : list Photo :=
  match media_ids with
  | [] => []
  | media_id :: rest =>
    {| photo_store_item_id := id;
       photo_media_id := media_id;
       photo_position :=
         match positions with
         | Some given =>
           match nth_error given index with
           | Some position => position
           | None => (startPosition + Z.of_nat index)%Z
           end
         | None => (startPosition + Z.of_nat index)%Z
         end |}
    :: photos_from id positions startPosition (S index) rest
  end.

Definition photos_of (id : string) (photos : list Photo) : list Photo :=
  filter (fun p => String.eqb (photo_store_item_id p) id) photos.

(** UNIQUE (store_item_id, media_id): would the rows [added] clash with
    the table or with one another? *)
Fixpoint clashes (photos added : list Photo) : bool :=
  match added with
  | [] => false
  | p :: rest =>
    existsb (fun q => String.eqb (photo_store_item_id q) (photo_store_item_id p)
                      && String.eqb (photo_media_id q) (photo_media_id p))
            (photos ++ rest)%list
    || clashes photos rest
  end.

(** The answer lists the photos of the item; the model keeps the status
    and the table. *)
Definition addPhotos (admin : option Principal) (id : string)
    (media_ids : list string) (positions : option (list Z))
    (db : Catalog) (media : list Media) (photos : list Photo)
  : ApiResponse unit * list Photo :=
  match find (fun item => String.eqb (item_id item) id) (store_items db) with
  | None => (ResponseHandler.error 404 "Store item not found", photos)
  | Some item =>
    (* [item.stores] is read when the caller is bound to a country or a
       city; reading it on an item without a store throws *)
    let access : option (ApiResponse unit) :=
      if not_super_admin admin
         && (truthy (admin_country_id admin) || truthy (admin_city_id admin))
      then
        match find (fun s => String.eqb (store_id s) (item_store_id item)) (stores db) with
        | None => Some (ResponseHandler.error 500 "Failed to add photos")
        | Some store => item_access admin store
        end
      else None in
    match access with
    | Some denied => (denied, photos)
    | None =>
      let found :=
        filter (fun m => existsb (String.eqb (media_id m)) media_ids
                         && String.eqb (media_purpose m) "store_item_photo") media in
      if negb (Nat.eqb (List.length found) (List.length media_ids)) then
        (ResponseHandler.error 400 "Invalid media IDs", photos)
      else
        let startPosition :=
          match positions with
          | None => startPosition_after (MAX (map photo_position (photos_of id photos)))
          | Some _ => 0%Z
          end in
        let added := photos_from id positions startPosition 0 media_ids in
        if clashes photos added then
          (ResponseHandler.error 500 "Failed to add photos", photos)
        else
          (ResponseHandler.success 200 "Photos added successfully" None,
           (photos ++ added)%list)
    end
  end.

(* ================================================================= *)
(** ** Sample data used by the worked instances below *)

(** A country admin of Egypt, a city admin of Cairo, a country admin of
    Jordan and the super admin. *)
Definition egypt_admin : Principal :=
  {| p_id := "admin-eg"; p_role := ADMIN;
     p_country_id := Some "EG"; p_city_id := None |}.

Definition cairo_admin : Principal :=
  {| p_id := "admin-cairo"; p_role := ADMIN;
     p_country_id := Some "EG"; p_city_id := Some "CAI" |}.

Definition jordan_admin : Principal :=
  {| p_id := "admin-jo"; p_role := ADMIN;
     p_country_id := Some "JO"; p_city_id := None |}.

Definition root_admin : Principal :=
  {| p_id := "root"; p_role := SUPER_ADMIN;
     p_country_id := None; p_city_id := None |}.

Definition cairo_store : StoreLocation :=
  {| stores_country_id := Some "EG"; stores_city_id := Some "CAI" |}.

Definition order_in (s : OrderStatus) : Order :=
  {| order_id := "o1"; order_status := s; order_stores := cairo_store |}.

(** The scenario of the specification: a 20 % promo code capped at 10,
    created through createPromoCode, and an order of one item priced 100. *)
Definition no_dates (text : string) : Z := 0%Z.

Definition save20 : PromoCodeCreateDto :=
  {| dto_country_id := Some "EG"; dto_city_id := None;
     dto_code := "SAVE20"; dto_type := Some PERCENTAGE;
     dto_discount_amount := 20; dto_minimum_order_amount := None;
     dto_maximum_discount := Some 10%Q; dto_usage_limit := None;
     dto_start_date := None; dto_end_date := None; dto_is_active := None |}.

Definition scenario_promo_codes : list PromoCode :=
  snd (createPromoCode no_dates (Some egypt_admin) "promo-1" save20 []).

Definition scenario_catalog : Catalog :=
  {| stores := [ {| store_id := "s1"; store_country_id := Some "EG";
                    store_city_id := Some "CAI";
                    store_is_active := true; store_is_busy := false |} ];
     store_items := [ {| item_id := "i1"; item_store_id := "s1";
                         item_name := "Family box"; item_price := 100;
                         item_options := []; item_extras := [];
                         item_is_active := true |} ];
     active_payment_option := fun _ => true;
     promo_codes := scenario_promo_codes |}.

Definition scenario_order : OrderCreateDto :=
  {| oc_user_id := "u1"; oc_store_id := "s1";
     oc_payment_option_id := None; oc_promo_code_id := Some "promo-1";
     oc_items := [ {| oi_id := "i1"; oi_quantity := 1;
                      oi_options := None; oi_extras := None |} ] |}.

(** A row object carrying the three names the discount block reads. *)
Definition row_with (discount_type : string) (discount_value : Q)
    (max_discount : option Q) (name : string) : Js.Value :=
  if String.eqb name "discount_type" then Js.String_ discount_type
  else if String.eqb name "discount_value" then q_value discount_value
  else if String.eqb name "max_discount" then opt_value q_value max_discount
  else Js.Undefined.


Definition by_id (a b : Row) : bool := String.leb (row_id a) (row_id b).

Definition list_as (admin : option Principal) (country city : option string)
    (page limit : option string) : ListRequest :=
  {| req_admin := admin;
     query_country_id := country; query_city_id := city;
     query_page := page; query_limit := limit;
     entity_filters := fun _ => true;
     ordering := by_id;
     parent := None |}.

Definition category_row (id : string) (country : string) (city : option string) : Row :=
  {| row_id := id; row_country_id := Some country; row_city_id := city;
     row_stores := None |}.


(** Five categories of Egypt, asked for two per page. *)
Definition five_categories : list Row :=
  [ category_row "cat-1" "EG" None; category_row "cat-2" "EG" None;
    category_row "cat-3" "EG" None; category_row "cat-4" "EG" None;
    category_row "cat-5" "EG" None ].


Definition cairo_shop : Store :=
  {| store_id := "s1"; store_country_id := Some "EG"; store_city_id := Some "CAI";
     store_is_active := true; store_is_busy := false |}.

(** A category of Egypt that one store belongs to, in the schema of the
    repository. *)
Definition grills : Category :=
  {| category_id := "cat-1"; category_country_id := Some "EG";
     category_city_id := None; category_name := "Grills" |}.

Definition grills_db : CategoryDb :=
  {| categories := [grills];
     category_stores := [ {| cs_store_id := "s1"; cs_category_id := "cat-1" |} ];
     store_categories := None |}.

(** The account of [egypt_admin] and that of the super admin. *)
Definition egypt_account : Admin :=
  {| adm_id := "admin-eg"; adm_username := "eg"; adm_password := "$2b$10$hash";
     adm_role := ADMIN; adm_country_id := Some "EG"; adm_city_id := None;
     adm_photo_media_id := None; adm_is_active := true |}.

Definition root_account : Admin :=
  {| adm_id := "root"; adm_username := "superadmin"; adm_password := "$2b$10$hash";
     adm_role := SUPER_ADMIN; adm_country_id := None; adm_city_id := None;
     adm_photo_media_id := None; adm_is_active := true |}.

Definition egypt : Country :=
  {| country_id := "EG"; country_name := "Egypt"; country_code := "EG";
     country_is_active := true |}.

Definition accounts_db : Db :=
  {| admins := [root_account; egypt_account];
     countries := [egypt];
     media := [];
     cities := [("CAI", "EG")];
     users := [] |}.

Definition plain_hash (password : string) : string := "$2b$10$" ++ password.

(** Three categories of one location and one of another. *)
Definition shelf : list Positioned :=
  [ {| pos_id := "grills"; pos_country_id := "EG"; pos_city_id := None; pos_position := 1 |};
    {| pos_id := "sweets"; pos_country_id := "EG"; pos_city_id := None; pos_position := 2 |};
    {| pos_id := "drinks"; pos_country_id := "EG"; pos_city_id := None; pos_position := 3 |};
    {| pos_id := "mezze"; pos_country_id := "JO"; pos_city_id := None; pos_position := 1 |} ].

(** An order of two boxes with one extra each. *)
Definition box_catalog : Catalog :=
  {| stores := stores scenario_catalog;
     store_items := [ {| item_id := "i1"; item_store_id := "s1";
                         item_name := "Family box"; item_price := 100;
                         item_options := [];
                         item_extras := [ {| np_name := "Sauce"; np_price := 5 |} ];
                         item_is_active := true |} ];
     active_payment_option := fun _ => true;
     promo_codes := [] |}.

Definition two_boxes : OrderCreateDto :=
  {| oc_user_id := "u1"; oc_store_id := "s1";
     oc_payment_option_id := None; oc_promo_code_id := None;
     oc_items := [ {| oi_id := "i1"; oi_quantity := 2; oi_options := None;
                      oi_extras := Some [ {| np_name := "Sauce"; np_price := 5 |} ] |} ] |}.

(** A stand-in for bcrypt.compare that goes with [plain_hash]. *)
Definition plain_compare (password hash : string) : bool :=
  String.eqb (plain_hash password) hash.

Definition cairo_operator : AdminCreateDto :=
  {| ac_username := "cairo-ops"; ac_password := "s3cret"; ac_role := OPERATOR;
     ac_country_id := Some "EG"; ac_city_id := Some "CAI";
     ac_photo_media_id := None |}.

(** The promo code of the scenario, used up. *)
Definition used_up (pc : PromoCode) : PromoCode :=
  {| promo_id := promo_id pc; promo_country_id := promo_country_id pc;
     promo_city_id := promo_city_id pc; promo_code := promo_code pc;
     promo_type := promo_type pc; promo_discount_amount := promo_discount_amount pc;
     promo_minimum_order_amount := Some 1000; promo_maximum_discount := promo_maximum_discount pc;
     promo_usage_limit := Some 1%Z; promo_used_count := 1%Z;
     promo_start_date := promo_start_date pc; promo_end_date := promo_end_date pc;
     promo_is_active := promo_is_active pc |}.

(** Three ratings of one store, two of them counted. *)
Definition rated (id : string) (stars : Z) (s : RatingStatus) : Rating :=
  {| rating_id := id; rating_country_id := "EG"; rating_city_id := Some "CAI";
     rating_user_id := id; rating_target_type := STORE; rating_target_id := "s1";
     rating_star_count := stars; rating_status := s; rating_report_reason := None;
     rating_moderated_by := None; rating_moderated_at := None;
     rating_is_active := true |}.

Definition store_ratings : list Rating :=
  [rated "u1" 5 APPROVED; rated "u2" 1 PENDING; rated "u3" 4 APPROVED].

(** A ticket of Cairo with one read and one unread message, and a
    message of another ticket. *)
Definition late_order : Ticket :=
  {| ticket_id := "t1"; ticket_country_id := "EG"; ticket_city_id := Some "CAI" |}.

Definition thread : list SupportMessage :=
  [ {| msg_id := "m1"; msg_ticket_id := "t1"; msg_sender_type := "user";
       msg_sender_id := "u1"; msg_is_read := Some true;
       msg_read_at := Some "2024-01-01T10:00:00Z" |};
    {| msg_id := "m2"; msg_ticket_id := "t1"; msg_sender_type := "admin";
       msg_sender_id := "admin-cairo"; msg_is_read := Some false;
       msg_read_at := None |};
    {| msg_id := "m3"; msg_ticket_id := "t2"; msg_sender_type := "user";
       msg_sender_id := "u2"; msg_is_read := Some false;
       msg_read_at := None |} ].

(** Every sender still has an account. *)
Definition known_sender (sender_type sender_id : string) : bool := true.

(** Two photos on the family box, and two more to add. *)
Definition box_photos : list Photo :=
  [ {| photo_store_item_id := "i1"; photo_media_id := "p1"; photo_position := 1 |};
    {| photo_store_item_id := "i1"; photo_media_id := "p2"; photo_position := 2 |} ].

Definition photo_media : list Media :=
  [ {| media_id := "p3"; media_purpose := "store_item_photo"; media_country_id := Some "EG" |};
    {| media_id := "p4"; media_purpose := "store_item_photo"; media_country_id := Some "EG" |} ].

(* ================================================================= *)
(** * Properties *)

(** ** Order status transitions and deletion *)

Lemma OrderStatus_eqb_eq : forall a b, OrderStatus_eqb a b = true <-> a = b.
Proof. intros a b; destruct a, b; simpl; split; intro H; congruence. Qed.

(** The table of the handler and the graph of the specification agree. *)
Lemma includes_validTransitions : forall current requested,
  includes (validTransitions current) requested = true <-> transition current requested.
Proof.
  intros current requested; split.
  - destruct current, requested; simpl; intro H; try discriminate; constructor.
  - intro H; destruct H; reflexivity.
Qed.

Lemma find_order_update_same : forall id s orders,
  find_order id (update_order_status id s orders)
  = option_map (fun o => with_order_status o s) (find_order id orders).
Proof.
  intros id s orders; unfold find_order, update_order_status.
  induction orders as [|o rest IH]; simpl; [reflexivity|].
  destruct (String.eqb (order_id o) id) eqn:E; simpl; rewrite E; [reflexivity | exact IH].
Qed.

Lemma find_order_update_other : forall id id' s orders,
  id' <> id ->
  find_order id' (update_order_status id s orders) = find_order id' orders.
Proof.
  intros id id' s orders Hne; unfold find_order, update_order_status.
  induction orders as [|o rest IH]; simpl; [reflexivity|].
  destruct (String.eqb (order_id o) id) eqn:E; simpl.
  - apply String.eqb_eq in E.
    destruct (String.eqb (order_id o) id') eqn:E'.
    + apply String.eqb_eq in E'. congruence.
    + exact IH.
  - destruct (String.eqb (order_id o) id'); [reflexivity | exact IH].
Qed.

Lemma find_order_delete : forall id id' orders,
  find_order id' (delete_order id orders)
  = if String.eqb id' id then None else find_order id' orders.
Proof.
  intros id id' orders; unfold find_order, delete_order.
  induction orders as [|o rest IH]; simpl; [destruct (String.eqb id' id); reflexivity|].
  destruct (String.eqb (order_id o) id) eqn:E; simpl.
  - rewrite IH; destruct (String.eqb id' id) eqn:E'; [reflexivity|].
    destruct (String.eqb (order_id o) id') eqn:E''; [|reflexivity].
    apply String.eqb_eq in E, E''; apply String.eqb_neq in E'; congruence.
  - destruct (String.eqb (order_id o) id') eqn:E''; [|exact IH].
    destruct (String.eqb id' id) eqn:E'; [|reflexivity].
    apply String.eqb_eq in E', E''; apply String.eqb_neq in E; congruence.
Qed.

Lemma opt_eqb_eq : forall a b, opt_eqb a b = true <-> a = b.
Proof.
  intros [x|] [y|]; simpl; split; intro H; try congruence.
  - apply String.eqb_eq in H; congruence.
  - inversion H; apply String.eqb_refl.
Qed.

Lemma opt_neqb_false : forall a b, opt_neqb a b = false <-> a = b.
Proof.
  intros a b; unfold opt_neqb; rewrite Bool.negb_false_iff; apply opt_eqb_eq.
Qed.

Lemma opt_neqb_true : forall a b, opt_neqb a b = true <-> a <> b.
Proof.
  intros a b; unfold opt_neqb; rewrite Bool.negb_true_iff; split.
  - intros H Heq; apply opt_eqb_eq in Heq; congruence.
  - intro H; destruct (opt_eqb a b) eqn:E; [apply opt_eqb_eq in E; contradiction | reflexivity].
Qed.

Lemma not_super_admin_false : forall admin,
  not_super_admin admin = false <-> exists p, admin = Some p /\ p_role p = SUPER_ADMIN.
Proof.
  intros [p|]; simpl; split.
  - intro H; exists p; split; [reflexivity|]; destruct (p_role p); simpl in H; congruence.
  - intros [q [Hq Hrole]]; injection Hq as Hq; subst q; rewrite Hrole; reflexivity.
  - discriminate.
  - intros [q [Hq _]]; discriminate.
Qed.

(** The location check of the order handlers lets through the callers of
    [may_access] and refuses the others with 403. *)
Lemma order_access_spec : forall T verb admin o,
  match order_access (T := T) verb admin o with
  | None => may_access admin o
  | Some denied => ~ may_access admin o /\ fails_with ForbiddenError denied
  end.
Proof.
  intros T verb admin o; unfold order_access, may_access.
  destruct (not_super_admin admin) eqn:Hns.
  - assert (Hnot : ~ exists p, admin = Some p /\ p_role p = SUPER_ADMIN).
    { intro H; apply not_super_admin_false in H; congruence. }
    destruct (truthy (admin_country_id admin)) eqn:Tc; simpl.
    + destruct (opt_neqb (stores_country_id (order_stores o)) (admin_country_id admin))
        eqn:Ec.
      * split; [|split; reflexivity].
        apply opt_neqb_true in Ec; intros [H|[H _]]; [contradiction | auto].
      * apply opt_neqb_false in Ec.
        destruct (truthy (admin_city_id admin)) eqn:Ty; simpl.
        -- destruct (opt_neqb (stores_city_id (order_stores o)) (admin_city_id admin))
             eqn:Ey.
           ++ split; [|split; reflexivity].
              apply opt_neqb_true in Ey; intros [H|[_ H]]; [contradiction | auto].
           ++ apply opt_neqb_false in Ey; right; split; intros _; assumption.
        -- right; split; [intros _; assumption | discriminate].
    + destruct (truthy (admin_city_id admin)) eqn:Ty; simpl.
      * destruct (opt_neqb (stores_city_id (order_stores o)) (admin_city_id admin))
          eqn:Ey.
        -- split; [|split; reflexivity].
           apply opt_neqb_true in Ey; intros [H|[_ H]]; [contradiction | auto].
        -- apply opt_neqb_false in Ey; right; split; [discriminate | intros _; assumption].
      * right; split; discriminate.
  - left; apply not_super_admin_false; exact Hns.
Qed.

(** C2, as the code has it.  On an existing order, updateOrderStatus
    answers with success exactly when the caller may access the order
    and (current, requested) is an edge of the transition graph.  On
    success the stored order carries the requested status, keeps its key
    and its store, and the other orders are as they were.  A caller who
    may access the order and asks for any other pair gets 400
    (ValidationError) "Invalid status transition"; a caller who may not
    gets 403, whatever the pair; in both cases the table is unchanged. *)
Theorem updateOrderStatus_follows_transition_graph :
  forall admin id requested orders o,
    find_order id orders = Some o ->
    let result := updateOrderStatus admin id requested orders in
    (status (fst result) = Success
       <-> may_access admin o /\ transition (order_status o) requested)
    /\ (status (fst result) = Success ->
        (exists o', find_order id (snd result) = Some o'
                    /\ order_status o' = requested
                    /\ order_id o' = order_id o
                    /\ order_stores o' = order_stores o)
        /\ forall id', id' <> id -> find_order id' (snd result) = find_order id' orders)
    /\ (status (fst result) = Error -> snd result = orders)
    /\ (may_access admin o ->
        ~ transition (order_status o) requested ->
        fails_with ValidationError (fst result)
        /\ message (fst result) = "Invalid status transition")
    /\ (~ may_access admin o -> fails_with ForbiddenError (fst result)).
Proof.
  intros admin id requested orders o Hfind result.
  subst result; unfold updateOrderStatus; rewrite Hfind.
  pose proof (order_access_spec Order "modify" admin o) as Hspec.
  destruct (order_access (T := Order) "modify" admin o) as [denied|].
  - destruct Hspec as [Hnot Hforbidden].
    assert (Herr : status denied = Error) by apply Hforbidden.
    cbn [fst snd].
    split; [split; [intro Hs; congruence | intros [Hmay _]; contradiction] |].
    split; [intro Hs; congruence |].
    split; [reflexivity |].
    split; [intro Hmay; contradiction | intros _; exact Hforbidden].
  - destruct (includes (validTransitions (order_status o)) requested) eqn:E; cbn [negb fst snd].
    + assert (Ht : transition (order_status o) requested)
        by (apply includes_validTransitions; exact E).
      split; [split; [intros _; split; assumption | reflexivity] |].
      split.
      * intros _; split.
        -- exists (with_order_status o requested).
           rewrite find_order_update_same, Hfind; repeat split.
        -- intros id' Hne; apply find_order_update_other; exact Hne.
      * split; [discriminate |].
        split; [intros _ Hn; contradiction | intro Hn; contradiction].
    + assert (Hn : ~ transition (order_status o) requested).
      { intro Ht; apply includes_validTransitions in Ht; congruence. }
      split; [split; [discriminate | intros [_ Ht]; contradiction] |].
      split; [discriminate |].
      split; [reflexivity |].
      split; [intros _ _; repeat split | intro Hnot; contradiction].
Qed.

Lemma updateOrderStatus_follows_transition_graph_witness :
  find_order "o1" [order_in pending] = Some (order_in pending)
  /\ status (fst (updateOrderStatus (Some cairo_admin) "o1" preparing [order_in pending]))
     = Success
  /\ exists o', find_order "o1"
                  (snd (updateOrderStatus (Some cairo_admin) "o1" preparing
                          [order_in pending])) = Some o'
                /\ order_status o' = preparing.
Proof.
  split; [reflexivity |].
  destruct (updateOrderStatus_follows_transition_graph
              (Some cairo_admin) "o1" preparing [order_in pending] (order_in pending)
              eq_refl) as [Hiff [Hstored _]].
  assert (Hs : status (fst (updateOrderStatus (Some cairo_admin) "o1" preparing
                              [order_in pending])) = Success).
  { apply Hiff; split; [right; split; intros _; reflexivity | constructor]. }
  split; [exact Hs |].
  destruct (Hstored Hs) as [[o' [Hfind [Hstatus _]]] _].
  exists o'; split; assumption.
Defined.

(** C2 as stated fails for a caller of another country: on the edge
    pending -> preparing the status is not changed, and on the pair
    delivered -> preparing the failure is the 403 of the location check,
    not a ValidationError. *)
Lemma updateOrderStatus_follows_transition_graph_counterexample :
  transition pending preparing
  /\ find_order "o1"
       (snd (updateOrderStatus (Some jordan_admin) "o1" preparing [order_in pending]))
     = Some (order_in pending)
  /\ order_status (order_in pending) <> preparing
  /\ ~ transition delivered preparing
  /\ http_status
       (fst (updateOrderStatus (Some jordan_admin) "o1" preparing [order_in delivered]))
     = 403%nat
  /\ ~ fails_with ValidationError
         (fst (updateOrderStatus (Some jordan_admin) "o1" preparing [order_in delivered])).
Proof.
  split; [constructor |].
  split; [reflexivity |].
  split; [discriminate |].
  split; [intro H; inversion H |].
  split; [reflexivity |].
  intros [_ Hkind]; discriminate.
Qed.

(** C10, as the code has it.  deleteOrder succeeds exactly on a pending
    order that the caller may access; the order is then gone and the
    others are as they were.  An order in any other status is never
    deleted, whoever asks: the answer is 400 "Can only delete pending
    orders" for a caller who may access it and 403 for one who may not. *)
Theorem deleteOrder_only_pending :
  forall admin id orders o,
    find_order id orders = Some o ->
    let result := deleteOrder admin id orders in
    (status (fst result) = Success
       <-> may_access admin o /\ order_status o = pending)
    /\ (status (fst result) = Success ->
        forall id', find_order id' (snd result)
                    = if String.eqb id' id then None else find_order id' orders)
    /\ (status (fst result) = Error -> snd result = orders)
    /\ (may_access admin o -> order_status o <> pending ->
        fst result = ResponseHandler.error 400 "Can only delete pending orders")
    /\ (~ may_access admin o -> fails_with ForbiddenError (fst result)).
Proof.
  intros admin id orders o Hfind result; subst result.
  unfold deleteOrder; rewrite Hfind.
  pose proof (order_access_spec Order "delete" admin o) as Hspec.
  destruct (order_access (T := Order) "delete" admin o) as [denied|].
  - destruct Hspec as [Hnot Hforbidden].
    assert (Herr : status denied = Error) by apply Hforbidden.
    cbn [fst snd].
    split; [split; [intro Hs; congruence | intros [Hmay _]; contradiction] |].
    split; [intro Hs; congruence |].
    split; [reflexivity |].
    split; [intro Hmay; contradiction | intros _; exact Hforbidden].
  - destruct (OrderStatus_eqb (order_status o) pending) eqn:E; cbn [negb fst snd].
    + apply OrderStatus_eqb_eq in E.
      split; [split; [intros _; split; assumption | reflexivity] |].
      split; [intros _ id'; apply find_order_delete |].
      split; [discriminate |].
      split; [intros _ Hn; contradiction | intro Hn; contradiction].
    + assert (Hn : order_status o <> pending).
      { intro Hp; apply OrderStatus_eqb_eq in Hp; congruence. }
      split; [split; [discriminate | intros [_ Hp]; contradiction] |].
      split; [discriminate |].
      split; [reflexivity |].
      split; [intros _ _; reflexivity | intro Hnot; contradiction].
Qed.

Lemma deleteOrder_only_pending_witness :
  find_order "o1" [order_in on_way] = Some (order_in on_way)
  /\ order_status (order_in on_way) <> pending
  /\ deleteOrder (Some cairo_admin) "o1" [order_in on_way]
     = (ResponseHandler.error 400 "Can only delete pending orders", [order_in on_way]).
Proof.
  split; [reflexivity | split; [discriminate |]].
  destruct (deleteOrder_only_pending (Some cairo_admin) "o1" [order_in on_way]
              (order_in on_way) eq_refl) as [_ [_ [Hkept [Hbad _]]]].
  assert (Hfst : fst (deleteOrder (Some cairo_admin) "o1" [order_in on_way])
                 = ResponseHandler.error 400 "Can only delete pending orders").
  { apply Hbad; [right; split; intros _; reflexivity | discriminate]. }
  rewrite (surjective_pairing (deleteOrder (Some cairo_admin) "o1" [order_in on_way])).
  rewrite Hfst, Hkept; [reflexivity | rewrite Hfst; reflexivity].
Defined.

(** C10 as stated fails for a caller of another country: the order on
    its way is not deleted, but the failure is a 403, not a 400. *)
Lemma deleteOrder_only_pending_counterexample :
  order_status (order_in on_way) <> pending
  /\ deleteOrder (Some jordan_admin) "o1" [order_in on_way]
     = (ResponseHandler.error 403 "Cannot delete order from different country",
        [order_in on_way])
  /\ http_status (fst (deleteOrder (Some jordan_admin) "o1" [order_in on_way])) <> 400%nat.
Proof.
  split; [discriminate | split; [reflexivity | discriminate]].
Qed.

(** ** The discount of createOrder *)

(** On a row that carries [discount_type], [discount_value] and
    [max_discount], the block computes the percentage or fixed amount,
    capped when a non-zero cap is present. *)
Lemma discount_of_row_with : forall discount_type value cap total,
  let amount :=
    if String.eqb discount_type "percentage" then total * value / 100 else value in
  match discount_of (row_with discount_type value cap) (Js.Num total) with
  | Js.Number_ n =>
    Js.number_eq n
      (Js.Num (match cap with
               | Some m => if Qeq_bool m 0 then amount else Qmin amount m
               | None => amount
               end))
  | _ => False
  end.
Proof.
  intros discount_type value cap total amount; subst amount.
  unfold discount_of.
  change (row_with discount_type value cap "discount_type") with (Js.String_ discount_type).
  change (row_with discount_type value cap "discount_value") with (q_value value).
  change (row_with discount_type value cap "max_discount") with (opt_value q_value cap).
  change (Js.strict_eq (Js.String_ discount_type) (Js.String_ "percentage"))
    with (String.eqb discount_type "percentage").
  change (Js.div (Js.mul (Js.Num total) (Js.to_number (q_value value))) (Js.num 100))
    with (Js.Num (Qred (Qred (total * value) / inject_Z 100))).
  assert (Hpct : Qred (Qred (total * value) / inject_Z 100) == total * value / 100).
  { rewrite Qred_correct, Qred_correct; reflexivity. }
  destruct cap as [m|]; unfold opt_value, q_value.
  - change (Js.to_boolean (Js.Number_ (Js.Num m))) with (negb (Qeq_bool m 0)).
    destruct (Qeq_bool m 0); cbv [negb];
      destruct (String.eqb discount_type "percentage").
    + exact Hpct.
    + unfold Js.number_eq; reflexivity.
    + unfold Js.Math_min, Js.to_number, Js.lift2, Js.number_eq.
      rewrite Qred_correct, Hpct; reflexivity.
    + unfold Js.Math_min, Js.to_number, Js.lift2, Js.number_eq.
      rewrite Qred_correct; reflexivity.
  - change (Js.to_boolean Js.Null) with false; cbv iota.
    destruct (String.eqb discount_type "percentage").
    + exact Hpct.
    + unfold Js.number_eq; reflexivity.
Qed.

Example discount_of_row_with_scenario :
  discount_of (row_with "percentage" 20 (Some 10%Q)) (Js.num 100)
  = Js.Number_ (Js.num 10)
  /\ Js.sub (Js.num 100)
       (Js.to_number (discount_of (row_with "percentage" 20 (Some 10%Q)) (Js.num 100)))
     = Js.num 90.
Proof. split; reflexivity. Qed.

(** A row of [promo_codes] has none of these names: whatever the promo
    code, the block yields [undefined] and the final price is NaN. *)
Lemma discount_of_promo_row : forall promoCode total,
  discount_of (promo_property promoCode) total = Js.Undefined
  /\ Js.sub total (Js.to_number (discount_of (promo_property promoCode) total)) = Js.NaN.
Proof.
  intros promoCode total.
  assert (H : discount_of (promo_property promoCode) total = Js.Undefined) by reflexivity.
  split; [exact H | rewrite H; destruct total; reflexivity].
Qed.

(** C1, evaluated.  The promo code of the scenario is accepted by
    createPromoCode; the order of 100 that uses it is created with
    [discount_amount = undefined] and [final_price = NaN], not 10 and 90. *)
Theorem createOrder_scenario_discount :
  http_status (fst (createPromoCode no_dates (Some egypt_admin) "promo-1" save20 [])) = 201%nat
  /\ exists row,
       data (createOrder no_dates 0 scenario_order scenario_catalog) = Some row
       /\ ins_total_item_price row = Js.num 100
       /\ ins_discount_amount row = Js.Undefined
       /\ ins_final_price row = Js.NaN
       /\ ins_discount_amount row <> Js.Number_ (Js.num 10)
       /\ ins_final_price row <> Js.num 90.
Proof.
  split; [reflexivity |].
  eexists; split; [reflexivity |].
  repeat split; discriminate.
Qed.

(** ** Pagination of the list handlers *)






(** With [limit] left to its default the sum [from + limit] is one of
    numbers, and the window is the claimed one: [limit] rows from offset
    (page - 1) * limit. *)
Lemma to_of_default_limit : forall page n from,
  from_of page (number n) = Some from ->
  (0 <= from)%Z -> (1 <= n)%Z ->
  (from + n <=? MAX_SAFE_INTEGER)%Z = true ->
  to_of (Some from) (number n) = Some (from + n - 1)%Z.
Proof.
  intros pg n from Hfrom Hpos Hn1 Hsum'.
  assert (Hsum : (Z.abs (from + n) <=? MAX_SAFE_INTEGER)%Z = true)
    by (rewrite Z.abs_eq by lia; exact Hsum').
  unfold to_of, arith, bind.
  unfold from_of, arith, bind in Hfrom.
  destruct (ToNumber pg) as [p|]; [|discriminate].
  destruct (safe (p - 1)) as [p1|]; [|discriminate].
  cbn [ToNumber] in Hfrom.
  destruct (safe n) as [n'|] eqn:Hn; [|discriminate].
  assert (n' = n) by (unfold safe in Hn; destruct (Z.abs n <=? MAX_SAFE_INTEGER)%Z;
                      congruence); subst n'.
  unfold safe at 1; rewrite Hsum.
  unfold safe; destruct (Z.abs (from + n - 1) <=? MAX_SAFE_INTEGER)%Z eqn:E; [reflexivity|].
  exfalso.
  assert (Hf : (Z.abs from <=? MAX_SAFE_INTEGER)%Z = true).
  { unfold safe in Hfrom; destruct (Z.abs (p1 * n) <=? MAX_SAFE_INTEGER)%Z eqn:Ef;
      [injection Hfrom as <-; exact Ef | discriminate]. }
  assert (Hn' : (Z.abs n <=? MAX_SAFE_INTEGER)%Z = true).
  { unfold safe in Hn; destruct (Z.abs n <=? MAX_SAFE_INTEGER)%Z; [reflexivity | discriminate]. }
  apply Z.leb_le in Hsum, Hf, Hn'; apply Z.leb_gt in E; unfold MAX_SAFE_INTEGER in *; lia.
Qed.

(** C3, evaluated.  A super admin asks for page 2 of the categories, two
    per page: [page] and [limit] arrive as the texts "2" and "2", [from]
    is 2, and [to] is "22" - 1 = 21, not 3.  Of five categories the answer
    lists the last three, one more than [limit]. *)
Theorem getCategories_second_page_of_two :
  let req := list_as (Some root_admin) None None (Some "2") (Some "2") in
  from_of (text "2") (text "2") = Some 2%Z
  /\ to_of (Some 2%Z) (text "2") = Some 21%Z
  /\ exists pg,
       list_handler window getCategories req five_categories
       = ResponseHandler.success 200 "Categories retrieved successfully" (Some pg)
       /\ rows pg = [ category_row "cat-3" "EG" None; category_row "cat-4" "EG" None;
                      category_row "cat-5" "EG" None ]
       /\ limit pg = text "2"
       /\ (2 < List.length (rows pg))%nat
       /\ total pg = 5%Z
       /\ totalPages pg = Some 3%Z.
Proof.
  intro req.
  split; [reflexivity | split; [reflexivity |]].
  eexists; split; [vm_compute; reflexivity |].
  cbn [rows limit total totalPages].
  split; [reflexivity | split; [reflexivity | split; [simpl; lia | split; reflexivity]]].
Qed.

(** ** Location scope of the list handlers *)




(** Cutting the embedded store leaves the row's own columns alone. *)
Lemma embed_own_columns : forall fs r,
  row_id (embed fs r) = row_id r
  /\ row_country_id (embed fs r) = row_country_id r
  /\ row_city_id (embed fs r) = row_city_id r.
Proof.
  intros fs r; unfold embed; destruct (forallb (matches r) (filter on_embedded fs));
    repeat split.
Qed.


Section Listed.
Variable range : option Z -> option Z -> list Row -> option (list Row).
Hypothesis range_rows : forall from to l listed,
  range from to l = Some listed -> forall r, In r listed -> In r l.





End Listed.



(** The location block of getOrders drops no row: its predicates address
    the embedded store, which is embedded without [!inner], so the rows
    listed are those of the entity filters, whoever asks. *)
Lemma getOrders_location_drops_no_row : forall req table,
  map row_id (selected getOrders req table)
  = map row_id (order_rows (ordering req) (filter (entity_filters req) table)).
Proof.
  intros req table; unfold selected; rewrite map_map.
  assert (Hnone : filter on_row (location_scope getOrders req) = []).
  { unfold location_scope.
    destruct (not_super_admin (req_admin req)); [|reflexivity].
    destruct (admin_country_id (req_admin req)) as [c|]; [|reflexivity].
    unfold when_truthy at 1; destruct (truthy (Some c)); [|reflexivity].
    destruct (admin_city_id (req_admin req)) as [y|]; [|reflexivity].
    unfold when_truthy; destruct (truthy (Some y)); reflexivity. }
  rewrite Hnone.
  rewrite (map_ext (fun x => row_id (embed (location_scope getOrders req) x)) row_id)
    by (intro x; apply embed_own_columns).
  f_equal; f_equal; apply filter_ext; intro x; simpl; apply andb_true_r.
Qed.

(** ** Super admins *)







(** ** Mutations across countries *)

(** The handlers that check the location refuse a row of another country:
    the shared check of categories, banners and promo codes, and that of
    orders for a principal with a country. *)
Lemma row_access_other_country : forall T verb what admin country city,
  not_super_admin admin = true ->
  country <> admin_country_id admin ->
  exists denied : ApiResponse T,
    row_access verb what admin country city = Some denied
    /\ fails_with ForbiddenError denied.
Proof.
  intros T verb what admin country city Hns Hne; unfold row_access; rewrite Hns.
  destruct (opt_neqb country (admin_country_id admin)) eqn:E.
  - eexists; split; [reflexivity | split; reflexivity].
  - apply opt_neqb_false in E; contradiction.
Qed.

Lemma order_access_other_country : forall T verb admin o,
  not_super_admin admin = true ->
  truthy (admin_country_id admin) = true ->
  stores_country_id (order_stores o) <> admin_country_id admin ->
  exists denied : ApiResponse T,
    order_access verb admin o = Some denied /\ fails_with ForbiddenError denied.
Proof.
  intros T verb admin o Hns Ht Hne; unfold order_access; rewrite Hns, Ht.
  destruct (opt_neqb (stores_country_id (order_stores o)) (admin_country_id admin)) eqn:E.
  - eexists; split; [reflexivity | split; reflexivity].
  - apply opt_neqb_false in E; contradiction.
Qed.

(** deleteStore never looks at the principal. *)
Lemma deleteStore_any_principal : forall admin admin' id stores,
  deleteStore admin id stores = deleteStore admin' id stores.
Proof. reflexivity. Qed.

(** C6, evaluated.  A country admin of Jordan deletes a store of Egypt:
    the handler answers 200 and the row is gone. *)
Theorem deleteStore_other_country :
  p_role jordan_admin <> SUPER_ADMIN
  /\ store_country_id cairo_shop <> p_country_id jordan_admin
  /\ deleteStore (Some jordan_admin) "s1" [cairo_shop]
     = (ResponseHandler.success 200 "Store deleted successfully" None, [])
  /\ ~ fails_with ForbiddenError (fst (deleteStore (Some jordan_admin) "s1" [cairo_shop])).
Proof.
  split; [discriminate | split; [discriminate | split; [reflexivity |]]].
  intros [Hst _]; discriminate.
Qed.

(** ** Deleting a category in use *)

Lemma row_access_denied_is_error : forall T verb what admin country city (r : ApiResponse T),
  row_access verb what admin country city = Some r ->
  status r = Error /\ http_status r = 403%nat.
Proof.
  intros T verb what admin country city r H; unfold row_access in H.
  destruct (not_super_admin admin); [|discriminate].
  repeat match type of H with
         | (if ?c then _ else _) = _ => destruct c
         end; inversion H; subst; split; reflexivity.
Qed.

(** In the schema of the repository, a category that a store belongs to
    is never deleted, and a caller who passes the location check is
    answered by the catch-all 500: the count of [store_categories] is
    null, the in-use answer is skipped and the store refuses the delete. *)
Lemma deleteCategory_referenced :
  forall admin id db category store,
    store_categories db = None ->
    find (fun c => String.eqb (category_id c) id) (categories db) = Some category ->
    In store (category_stores db) ->
    cs_category_id store = id ->
    snd (deleteCategory admin id db) = db
    /\ (row_access (T := Category) "delete" "category" admin
          (category_country_id category) (category_city_id category) = None ->
        fst (deleteCategory admin id db)
        = ResponseHandler.error 500 "Failed to delete category").
Proof.
  intros admin id db category store Hnone Hfind Hin Hid.
  unfold deleteCategory, storeCount_of; rewrite Hfind, Hnone.
  destruct (row_access "delete" "category" admin (category_country_id category)
              (category_city_id category)) as [denied|];
    [split; [reflexivity | discriminate] |].
  assert (Hused : existsb (fun s => String.eqb (cs_category_id s) id) (category_stores db)
                  = true).
  { apply existsb_exists; exists store; split; [exact Hin | apply String.eqb_eq; exact Hid]. }
  rewrite Hused; split; reflexivity.
Qed.

(** C9, evaluated.  The country admin of Egypt deletes a category of
    Egypt that a store belongs to: the answer is 500 "Failed to delete
    category", an InternalError and not a ConflictError; nothing is
    deleted. *)
Theorem deleteCategory_in_use :
  store_categories grills_db = None
  /\ In {| cs_store_id := "s1"; cs_category_id := "cat-1" |} (category_stores grills_db)
  /\ deleteCategory (Some egypt_admin) "cat-1" grills_db
     = (ResponseHandler.error 500 "Failed to delete category", grills_db)
  /\ fails_with InternalError (fst (deleteCategory (Some egypt_admin) "cat-1" grills_db))
  /\ ~ fails_with ConflictError (fst (deleteCategory (Some egypt_admin) "cat-1" grills_db)).
Proof.
  split; [reflexivity | split; [left; reflexivity | split; [reflexivity | split]]].
  - split; reflexivity.
  - intros [_ Hkind]; discriminate.
Qed.

(** ** Self-deletion *)





(** ** Countries and super-admin accounts *)

Lemma key_unique : forall (l : list Admin) a b,
  NoDup (map adm_id l) -> In a l -> In b l -> adm_id a = adm_id b -> a = b.
Proof.
  induction l as [|x rest IH]; intros a b Hnd Ha Hb Hid; [contradiction|].
  simpl in Hnd; inversion Hnd as [|? ? Hnotin Hrest]; subst.
  destruct Ha as [Ha|Ha], Hb as [Hb|Hb]; subst.
  - reflexivity.
  - exfalso; apply Hnotin; rewrite Hid; apply in_map; exact Hb.
  - exfalso; apply Hnotin; rewrite <- Hid; apply in_map; exact Ha.
  - apply IH; assumption.
Qed.

Lemma find_admin_In : forall id db a,
  find_admin id db = Some a -> In a (admins db) /\ adm_id a = id.
Proof.
  intros id db a H; apply find_some in H; destruct H as [Hin Heq].
  split; [exact Hin | apply String.eqb_eq; exact Heq].
Qed.

(** Under the primary key, the rows with key [id] are the row found. *)
Lemma rows_with_key : forall id db found a,
  NoDup (map adm_id (admins db)) ->
  find_admin id db = Some found ->
  In a (admins db) -> adm_id a = id -> a = found.
Proof.
  intros id db found a Hnd Hfind Hin Hid.
  destruct (find_admin_In _ _ _ Hfind) as [Hin' Hid'].
  apply (key_unique (admins db)); congruence.
Qed.

Lemma filter_super_update : forall id (f : Admin -> Admin) (l : list Admin),
  (forall a, In a l -> adm_id a = id -> is_super a = false /\ is_super (f a) = false) ->
  filter is_super (map (fun a => if String.eqb (adm_id a) id then f a else a) l)
  = filter is_super l.
Proof.
  intros id f l; induction l as [|x rest IH]; intro H; simpl; [reflexivity|].
  rewrite IH by (intros a Ha; apply H; right; exact Ha).
  destruct (String.eqb (adm_id x) id) eqn:E; [|reflexivity].
  apply String.eqb_eq in E.
  destruct (H x (or_introl eq_refl) E) as [H1 H2]; rewrite H1, H2; reflexivity.
Qed.

Lemma filter_super_delete : forall id (l : list Admin),
  (forall a, In a l -> adm_id a = id -> is_super a = false) ->
  filter is_super (filter (fun a => negb (String.eqb (adm_id a) id)) l)
  = filter is_super l.
Proof.
  intros id l; induction l as [|x rest IH]; intro H; simpl; [reflexivity|].
  specialize (IH (fun a Ha => H a (or_intror Ha))).
  destruct (String.eqb (adm_id x) id) eqn:E; simpl.
  - apply String.eqb_eq in E; rewrite (H x (or_introl eq_refl) E); exact IH.
  - rewrite IH; reflexivity.
Qed.

Lemma keys_after_update : forall id (f : Admin -> Admin) (l : list Admin),
  (forall a, adm_id (f a) = adm_id a) ->
  map adm_id (map (fun a => if String.eqb (adm_id a) id then f a else a) l)
  = map adm_id l.
Proof.
  intros id f l Hf; induction l as [|x rest IH]; simpl; [reflexivity|].
  rewrite IH; destruct (String.eqb (adm_id x) id); [rewrite Hf|]; reflexivity.
Qed.

Lemma keys_after_delete : forall (keep : Admin -> bool) (l : list Admin),
  NoDup (map adm_id l) -> NoDup (map adm_id (filter keep l)).
Proof.
  intros keep l; induction l as [|x rest IH]; intro Hnd; simpl; [constructor|].
  simpl in Hnd; inversion Hnd as [|? ? Hnotin Hrest]; subst.
  destruct (keep x); simpl; [constructor|]; try (apply IH; exact Hrest).
  intro Hin; apply Hnotin.
  apply in_map_iff in Hin; destruct Hin as [a [Ha Hin]].
  apply filter_In in Hin; destruct Hin as [Hin _].
  rewrite <- Ha; apply in_map; exact Hin.
Qed.

Lemma keys_after_insert : forall (l : list Admin) a,
  NoDup (map adm_id l) ->
  existsb (fun x => String.eqb (adm_id x) (adm_id a)) l = false ->
  NoDup (map adm_id (l ++ [a])).
Proof.
  intros l a Hnd Hfresh; rewrite map_app; apply NoDup_app.
  - exact Hnd.
  - simpl; constructor; [intros [] | constructor].
  - intros k Hk [Hka | []]; subst k.
    apply in_map_iff in Hk; destruct Hk as [x [Hx Hin]].
    assert (Hex : existsb (fun x => String.eqb (adm_id x) (adm_id a)) l = true).
    { apply existsb_exists; exists x; split; [exact Hin | apply String.eqb_eq; exact Hx]. }
    congruence.
Qed.

Section Invariants.
Variable bcrypt_hash : string -> string.

(** The primary key of [admins] survives every request. *)
Lemma handle_keeps_keys : forall admin r db,
  NoDup (map adm_id (admins db)) ->
  NoDup (map adm_id (admins (snd (handle bcrypt_hash admin r db)))).
Proof.
  intros admin r db Hnd; destruct r; simpl.
  - unfold createCountry.
    repeat match goal with |- context [if ?c then _ else _] => destruct c end;
      simpl; exact Hnd.
  - unfold updateCountry.
    destruct (not_super_admin admin); simpl; [exact Hnd|].
    destruct (find_country id db); simpl; exact Hnd.
  - unfold deleteCountry.
    destruct (not_super_admin admin); simpl; [exact Hnd|].
    destruct (find_country id db); simpl; [|exact Hnd].
    match goal with |- context [if ?c then _ else _] => destruct c end; simpl; exact Hnd.
  - unfold createAdmin.
    destruct (existsb _ (admins db)); simpl; [exact Hnd|].
    match goal with |- context [match ?a with Some _ => _ | None => _ end] =>
      destruct a end; simpl; [exact Hnd|].
    destruct (photo_check _ _ db); simpl; [exact Hnd|].
    destruct (existsb (fun a => String.eqb (adm_id a) new_id) (admins db)) eqn:Hfresh;
      simpl; [exact Hnd|].
    apply keys_after_insert; [exact Hnd | exact Hfresh].
  - unfold updateAdmin.
    destruct (find_admin id db); simpl; [|exact Hnd].
    match goal with |- context [match ?a with Some _ => _ | None => _ end] =>
      destruct a end; simpl; [exact Hnd|].
    match goal with |- context [if ?c then _ else _] => destruct c end; simpl; [exact Hnd|].
    destruct (photo_check _ _ db); simpl; [exact Hnd|].
    rewrite keys_after_update; [exact Hnd | reflexivity].
  - unfold deleteAdmin.
    destruct (find_admin id db); simpl; [|exact Hnd].
    match goal with |- context [match ?a with Some _ => _ | None => _ end] =>
      destruct a end; simpl; [exact Hnd|].
    match goal with |- context [if ?c then _ else _] => destruct c end; simpl; [exact Hnd|].
    apply keys_after_delete; exact Hnd.
Qed.

Lemma run_keeps_keys : forall trace db,
  NoDup (map adm_id (admins db)) ->
  NoDup (map adm_id (admins (run bcrypt_hash trace db))).
Proof.
  induction trace as [|[admin r] rest IH]; intros db Hnd; simpl; [exact Hnd|].
  apply IH, handle_keeps_keys; exact Hnd.
Qed.

(** One request of a principal that is not a super admin. *)
Lemma handle_not_super_admin : forall admin r db,
  not_super_admin admin = true ->
  NoDup (map adm_id (admins db)) ->
  countries (snd (handle bcrypt_hash admin r db)) = countries db
  /\ super_admins (snd (handle bcrypt_hash admin r db)) = super_admins db
  /\ (is_country_request r = true -> handle bcrypt_hash admin r db = (403%nat, db)).
Proof.
  intros admin r db Hns Hnd; destruct r; simpl.
  - unfold createCountry; rewrite Hns; simpl; repeat split.
  - unfold updateCountry; rewrite Hns; simpl; repeat split.
  - unfold deleteCountry; rewrite Hns; simpl; repeat split.
  - split; [|split; [|discriminate]]; unfold createAdmin; rewrite Hns;
      destruct (existsb _ (admins db)); simpl; try reflexivity;
      destruct (opt_neqb (ac_country_id adminData) (admin_country_id admin));
      simpl; try reflexivity;
      destruct (truthy (admin_city_id admin)
                && opt_neqb (ac_city_id adminData) (admin_city_id admin));
      simpl; try reflexivity;
      destruct (AdminRole_eqb (ac_role adminData) SUPER_ADMIN) eqn:Hrole;
      simpl; try reflexivity;
      destruct (photo_check _ _ db); simpl; try reflexivity;
      destruct (existsb (fun a => String.eqb (adm_id a) new_id) (admins db));
      simpl; try reflexivity.
    unfold super_admins; simpl; rewrite filter_app; simpl.
    unfold is_super at 2; simpl; rewrite Hrole, app_nil_r; reflexivity.
  - split; [|split; [|discriminate]]; unfold updateAdmin; rewrite Hns;
      destruct (find_admin id db) as [existingAdmin|] eqn:Hfind; simpl; try reflexivity;
      destruct (AdminRole_eqb (adm_role existingAdmin) SUPER_ADMIN) eqn:Hrole;
      simpl; try reflexivity;
      destruct (opt_neqb (adm_country_id existingAdmin) (admin_country_id admin));
      simpl; try reflexivity;
      destruct (truthy (admin_city_id admin)
                && opt_neqb (adm_city_id existingAdmin) (admin_city_id admin));
      simpl; try reflexivity;
      destruct (truthy (au_country_id updateData)
                || match au_role updateData with
                   | Some r => AdminRole_eqb r SUPER_ADMIN
                   | None => false
                   end) eqn:Hparams;
      simpl; try reflexivity;
      match goal with |- context [if ?c then _ else _] => destruct c end;
      simpl; try reflexivity;
      destruct (photo_check _ _ db); simpl; try reflexivity.
    unfold super_admins; simpl.
    apply filter_super_update.
    intros a Hin Hid.
    rewrite (rows_with_key id db existingAdmin a Hnd Hfind Hin Hid).
    split; [exact Hrole|].
    apply orb_false_iff in Hparams; destruct Hparams as [_ Hnew].
    unfold is_super, apply_update; simpl.
    destruct (au_role updateData); simpl; [exact Hnew | exact Hrole].
  - split; [|split; [|discriminate]]; unfold deleteAdmin; rewrite Hns;
      destruct (find_admin id db) as [adminToDelete|] eqn:Hfind; simpl; try reflexivity;
      destruct (AdminRole_eqb (adm_role adminToDelete) SUPER_ADMIN) eqn:Hrole;
      simpl; try reflexivity;
      destruct (opt_neqb (adm_country_id adminToDelete) (admin_country_id admin));
      simpl; try reflexivity;
      destruct (truthy (admin_city_id admin)
                && opt_neqb (adm_city_id adminToDelete) (admin_city_id admin));
      simpl; try reflexivity;
      match goal with |- context [if ?c then _ else _] => destruct c end;
      simpl; try reflexivity.
    unfold super_admins; simpl.
    apply filter_super_delete.
    intros a Hin Hid.
    rewrite (rows_with_key id db adminToDelete a Hnd Hfind Hin Hid); exact Hrole.
Qed.

(** C7. At any point of any execution, a request of a principal that is
    not a super admin leaves the country records as they are (a country
    request is answered 403 with nothing written) and leaves the
    super-admin accounts as they are: none is changed, removed or added. *)
Theorem only_super_admin_touches_countries_and_super_admins :
  forall before admin r db0,
    NoDup (map adm_id (admins db0)) ->
    not_super_admin admin = true ->
    let db := run bcrypt_hash before db0 in
    let after := handle bcrypt_hash admin r db in
    countries (snd after) = countries db
    /\ super_admins (snd after) = super_admins db
    /\ (is_country_request r = true -> after = (403%nat, db)).
Proof.
  intros before admin r db0 Hnd Hns db after; subst db after.
  apply handle_not_super_admin; [exact Hns | apply run_keeps_keys; exact Hnd].
Qed.

End Invariants.

Lemma only_super_admin_touches_countries_and_super_admins_witness :
  let before :=
    [ (Some root_admin, CreateCountry "JO" {| cc_name := "Jordan"; cc_code := "JO" |}) ] in
  let promote :=
    {| au_username := None; au_password := None; au_role := Some SUPER_ADMIN;
       au_country_id := None; au_city_id := None; au_photo_media_id := None;
       au_is_active := None |} in
  let db := run plain_hash before accounts_db in
  NoDup (map adm_id (admins accounts_db))
  /\ not_super_admin (Some egypt_admin) = true
  /\ List.length (countries db) = 2%nat
  /\ handle plain_hash (Some egypt_admin) (DeleteCountry "JO") db = (403%nat, db)
  /\ super_admins (snd (handle plain_hash (Some egypt_admin)
                          (UpdateAdmin "admin-eg" promote) db))
     = super_admins db.
Proof.
  intros before promote db.
  split; [repeat constructor; simpl; intuition discriminate |].
  split; [reflexivity | split; [reflexivity | split]].
  - apply (only_super_admin_touches_countries_and_super_admins plain_hash before
             (Some egypt_admin) (DeleteCountry "JO") accounts_db);
      [repeat constructor; simpl; intuition discriminate | reflexivity | reflexivity].
  - apply (only_super_admin_touches_countries_and_super_admins plain_hash before
             (Some egypt_admin) (UpdateAdmin "admin-eg" promote) accounts_db);
      [repeat constructor; simpl; intuition discriminate | reflexivity].
Defined.

(* ================================================================= *)
(** * Further properties of the controllers *)

(** ** Lists and keys *)

Lemma single_Some : forall A (l : list A) x, single l = Some x -> l = [x].
Proof. intros A [|a [|b l]] x H; simpl in H; congruence. Qed.

Lemma Qltb_false : forall a b, Qltb a b = false -> b <= a.
Proof.
  intros a b H; unfold Qltb in H; apply Bool.negb_false_iff in H.
  apply Qle_bool_iff; exact H.
Qed.

Lemma NoDup_map_filter : forall A B (f : A -> B) (keep : A -> bool) l,
  NoDup (map f l) -> NoDup (map f (filter keep l)).
Proof.
  intros A B f keep l; induction l as [|x rest IH]; intro H; [exact H|].
  simpl in H; inversion H as [|k ks Hnotin Hrest]; subst.
  simpl; destruct (keep x); [|apply IH; exact Hrest].
  simpl; constructor; [|apply IH; exact Hrest].
  intro Hin; apply Hnotin; apply in_map_iff in Hin; destruct Hin as [y [Hy Hin]].
  apply in_map_iff; exists y; split; [exact Hy|].
  apply filter_In in Hin; tauto.
Qed.

Lemma existsb_false : forall A (hit : A -> bool) l,
  (forall x, In x l -> hit x = false) -> existsb hit l = false.
Proof.
  intros A hit l H; induction l as [|x rest IH]; [reflexivity|].
  simpl; rewrite (H x (or_introl eq_refl)); apply IH.
  intros y Hy; apply H; right; exact Hy.
Qed.

Lemma NoDup_map_eq : forall A B (f : A -> B) l a b,
  NoDup (map f l) -> In a l -> In b l -> f a = f b -> a = b.
Proof.
  intros A B f l a b; induction l as [|x rest IH]; intros Hnd Ha Hb Hf; [contradiction|].
  simpl in Hnd; inversion Hnd as [|? ? Hnotin Hrest]; subst.
  destruct Ha as [Ha|Ha], Hb as [Hb|Hb]; subst.
  - reflexivity.
  - exfalso; apply Hnotin; rewrite Hf; apply in_map; exact Hb.
  - exfalso; apply Hnotin; rewrite <- Hf; apply in_map; exact Ha.
  - apply IH; assumption.
Qed.

(** ** Reordering categories and banners *)

Lemma same_location_iff : forall k c r,
  same_location k c r = true
  <-> (pos_country_id r, COALESCE (pos_city_id r) UUID_NIL) = (k, COALESCE c UUID_NIL).
Proof.
  intros k c r; unfold same_location; rewrite andb_true_iff, !String.eqb_eq.
  split; [intros [H1 H2]; congruence | intro H; inversion H; split; reflexivity].
Qed.

Lemma same_location_own : forall r,
  same_location (pos_country_id r) (pos_city_id r) r = true.
Proof. intro r; apply same_location_iff; reflexivity. Qed.

Lemma with_position_same : forall r, with_position r (pos_position r) = r.
Proof. intros []; reflexivity. Qed.

Lemma find_single : forall A (hit : A -> bool) l x,
  single (filter hit l) = Some x -> find hit l = Some x.
Proof.
  intros A hit l x H; apply single_Some in H.
  induction l as [|y rest IH]; [discriminate|].
  simpl in *; destruct (hit y); [congruence | apply IH; exact H].
Qed.

Lemma find_by_id : forall id rows row,
  find (fun r => String.eqb (pos_id r) id) rows = Some row ->
  In row rows /\ pos_id row = id.
Proof.
  intros id rows row H; apply find_some in H; destruct H as [Hin Hid].
  apply String.eqb_eq in Hid; tauto.
Qed.

Lemma NoDup_map_by : forall A B C (f : A -> B) (h : A -> C) l,
  NoDup (map f l) ->
  (forall a b, In a l -> In b l -> h a = h b -> f a = f b) ->
  NoDup (map h l).
Proof.
  intros A B C f h l; induction l as [|x rest IH]; intros Hnd Hinj; [constructor|].
  simpl in Hnd; inversion Hnd as [|? ? Hnotin Hrest]; subst.
  simpl; constructor.
  - intro Hin; apply in_map_iff in Hin; destruct Hin as [y [Hy Hin]].
    apply Hnotin; rewrite <- (Hinj y x); [apply in_map; exact Hin | right; exact Hin
                                          | left; reflexivity | exact Hy].
  - apply IH; [exact Hrest|]; intros a b Ha Hb; apply Hinj; right; assumption.
Qed.

(** With the primary key unique the two statements amount to one pass. *)
Lemma update_position_map : forall id p k c rows current,
  NoDup (map pos_id rows) ->
  find (fun r => String.eqb (pos_id r) id) rows = Some current ->
  (0 <= p)%Z ->
  update_position id p k c rows
  = map (reposition id (pos_position current)
           (Z.min p (COALESCE (MAX (map pos_position (filter (same_location k c) rows))) 0%Z))
           k c) rows.
Proof.
  intros id p k c rows current Hnd Hfind Hp; unfold update_position; rewrite Hfind.
  set (vmax := COALESCE _ 0%Z).
  destruct (Z.ltb_spec p 0); [lia|].
  assert (Hclamp : (if (p >? vmax)%Z then vmax else p) = Z.min p vmax)
    by (rewrite Z.gtb_ltb; destruct (Z.ltb_spec vmax p); lia).
  rewrite Hclamp; set (new := Z.min p vmax); set (old := pos_position current).
  destruct (find_by_id _ _ _ Hfind) as [Hin Hid].
  assert (Hpk : forall r, In r rows -> pos_id r = id -> r = current).
  { intros r Hr Hrid; apply (NoDup_map_eq _ _ pos_id rows); [exact Hnd | exact Hr | exact Hin|].
    congruence. }
  rewrite Z.gtb_ltb; unfold UPDATE.
  destruct (Z.ltb_spec new old) as [Hup|Hnotup].
  - rewrite map_map; apply map_ext_in; intros r Hr; unfold reposition.
    destruct (String.eqb (pos_id r) id) eqn:E.
    + apply String.eqb_eq in E; rewrite (Hpk r Hr E); fold old.
      rewrite Z.ltb_irrefl, andb_false_r; cbv iota; rewrite Hid, String.eqb_refl; reflexivity.
    + rewrite Z.geb_leb.
      destruct (same_location k c r && (new <=? pos_position r)%Z
                && (pos_position r <? old)%Z) eqn:Hhit; simpl; rewrite E; [reflexivity|].
      destruct (same_location k c r); simpl; [|reflexivity].
      destruct (Z.ltb_spec old (pos_position r)); simpl; [|reflexivity].
      destruct (Z.leb_spec (pos_position r) new); [lia | reflexivity].
  - destruct (Z.ltb_spec old new) as [Hdown|Hstay].
    + rewrite map_map; apply map_ext_in; intros r Hr; unfold reposition.
      destruct (String.eqb (pos_id r) id) eqn:E.
      * apply String.eqb_eq in E; rewrite (Hpk r Hr E); fold old.
        rewrite Z.gtb_ltb, Z.ltb_irrefl, andb_false_r; simpl.
        rewrite Hid, String.eqb_refl; reflexivity.
      * rewrite Z.gtb_ltb.
        assert (Hno : same_location k c r && (new <=? pos_position r)%Z
                      && (pos_position r <? old)%Z = false).
        { destruct (same_location k c r); [simpl|reflexivity].
          destruct (Z.leb_spec new (pos_position r)); [simpl|reflexivity].
          destruct (Z.ltb_spec (pos_position r) old); [lia | reflexivity]. }
        rewrite Hno.
        destruct (same_location k c r && (old <? pos_position r)%Z
                  && (pos_position r <=? new)%Z); simpl; rewrite E; reflexivity.
    + assert (Heq : new = old) by lia.
      rewrite <- (map_id rows) at 1; apply map_ext_in; intros r Hr; unfold reposition.
      destruct (String.eqb (pos_id r) id) eqn:E.
      * apply String.eqb_eq in E; rewrite (Hpk r Hr E), Heq.
        symmetry; apply with_position_same.
      * rewrite Heq.
        destruct (same_location k c r); [simpl|reflexivity].
        destruct (Z.leb_spec old (pos_position r)), (Z.ltb_spec (pos_position r) old),
                 (Z.ltb_spec old (pos_position r)), (Z.leb_spec (pos_position r) old);
          simpl; try reflexivity; lia.
Qed.

(** A successful updatePosition: the checks it passed and the pass it made. *)
Lemma updatePosition_success : forall what What admin id position rows,
  NoDup (map pos_id rows) ->
  status (fst (updatePosition what What admin id position rows)) = Success ->
  exists row,
    In row rows /\ pos_id row = id
    /\ find (fun r => String.eqb (pos_id r) id) rows = Some row
    /\ snd (updatePosition what What admin id position rows)
       = map (reposition id (pos_position row) (target_position position row rows)
                (pos_country_id row) (pos_city_id row)) rows.
Proof.
  intros what What admin id position rows Hnd Hok; unfold updatePosition in *.
  destruct (Z.ltb_spec position 0); [discriminate|].
  destruct (single _) as [row|] eqn:Hsingle; [|discriminate].
  apply find_single in Hsingle; destruct (find_by_id _ _ _ Hsingle) as [Hin Hid].
  destruct (row_access _ _ _ _ _) as [denied|] eqn:Hacc.
  { apply row_access_denied_is_error in Hacc; destruct Hacc as [Hdenied _].
    simpl in Hok; congruence. }
  exists row; repeat split; try assumption.
  simpl; apply update_position_map; assumption.
Qed.

Ltac z_tests :=
  repeat match goal with
         | |- context [(?x <=? ?y)%Z] => destruct (Z.leb_spec x y)
         | |- context [(?x <? ?y)%Z] => destruct (Z.ltb_spec x y)
         end.

(** X7. What a successful updatePosition does to the rows other than its
    target: it writes position only, touches no row of another location,
    moves a row by one place at most, and never reverses the order of two
    rows of the target's location. *)
Theorem updatePosition_keeps_the_order_of_the_others :
  forall what What admin id position rows,
    NoDup (map pos_id rows) ->
    status (fst (updatePosition what What admin id position rows)) = Success ->
    exists (row : Positioned) (g : Positioned -> Positioned),
      In row rows /\ pos_id row = id
      /\ snd (updatePosition what What admin id position rows) = map g rows
      /\ (forall r, with_position (g r) (pos_position r) = r)
      /\ (forall r, In r rows ->
            same_location (pos_country_id row) (pos_city_id row) r = false -> g r = r)
      /\ (forall r, pos_id r <> id ->
            (Z.abs (pos_position (g r) - pos_position r) <= 1)%Z)
      /\ (forall a b, pos_id a <> id -> pos_id b <> id ->
            same_location (pos_country_id row) (pos_city_id row) a = true ->
            same_location (pos_country_id row) (pos_city_id row) b = true ->
            (pos_position a <= pos_position b)%Z ->
            (pos_position (g a) <= pos_position (g b))%Z).
Proof.
  intros what What admin id position rows Hnd Hok.
  destruct (updatePosition_success _ _ _ _ _ _ Hnd Hok) as [row [Hin [Hid [Hfind Hmap]]]].
  exists row; eexists; split; [exact Hin | split; [exact Hid | split; [exact Hmap|]]].
  set (new := target_position position row rows); set (old := pos_position row).
  set (k := pos_country_id row); set (c := pos_city_id row).
  split; [|split; [|split]].
  - intros [i rk rc p]; unfold reposition; simpl.
    repeat match goal with |- context [if ?t then _ else _] => destruct t end; reflexivity.
  - intros r Hr Hloc; unfold reposition; rewrite Hloc; simpl.
    destruct (String.eqb (pos_id r) id) eqn:E; [|reflexivity].
    apply String.eqb_eq in E.
    rewrite (NoDup_map_eq _ _ pos_id rows r row Hnd Hr Hin) in Hloc by congruence.
    unfold k, c in Hloc; rewrite same_location_own in Hloc; discriminate.
  - intros r Hr; apply String.eqb_neq in Hr; unfold reposition; rewrite Hr.
    destruct (same_location k c r); simpl; z_tests; simpl; lia.
  - intros a b Ha Hb Hla Hlb Hle; apply String.eqb_neq in Ha, Hb.
    unfold reposition; rewrite Ha, Hb, Hla, Hlb; simpl.
    z_tests; simpl; lia.
Qed.

Lemma updatePosition_keeps_the_order_of_the_others_witness :
  exists g, snd (BannerController_updatePosition (Some root_admin) "grills" 7 shelf)
            = map g shelf.
Proof.
  assert (Hpk : NoDup (map pos_id shelf)).
  { repeat constructor; simpl; intuition discriminate. }
  destruct (updatePosition_keeps_the_order_of_the_others "banner" "Banner"
              (Some root_admin) "grills" 7%Z shelf Hpk eq_refl) as [row [g [_ [_ [H _]]]]].
  exists g; exact H.
Defined.

(** ** The life of an order *)

Lemma transition_progress : forall current requested,
  includes (validTransitions current) requested = true ->
  (progress current < progress requested)%nat
  /\ current <> delivered /\ current <> cancelled.
Proof.
  intros current requested H.
  destruct current, requested; simpl in *; try discriminate;
    repeat split; try lia; discriminate.
Qed.

(** One request: an order is not created, and where it stays it has not
    gone back. *)
Lemma handle_order_step : forall admin r orders id,
  match find_order id orders, find_order id (handle_order admin r orders) with
  | Some o, Some o' =>
    (progress (order_status o) <= progress (order_status o'))%nat
    /\ order_stores o' = order_stores o
    /\ (order_status o = delivered \/ order_status o = cancelled ->
        order_status o' = order_status o)
  | Some o, None => order_status o = pending
  | None, Some _ => False
  | None, None => True
  end.
Proof.
  intros admin r orders id.
  assert (Hsame : match find_order id orders, find_order id orders with
                  | Some o, Some o' =>
                    (progress (order_status o) <= progress (order_status o'))%nat
                    /\ order_stores o' = order_stores o
                    /\ (order_status o = delivered \/ order_status o = cancelled ->
                        order_status o' = order_status o)
                  | Some o, None => order_status o = pending
                  | None, Some _ => False
                  | None, None => True
                  end)
    by (destruct (find_order id orders); [repeat split; lia | exact I]).
  destruct r as [target requested | target]; simpl.
  - unfold updateOrderStatus.
    destruct (find_order target orders) as [existing|] eqn:Hfind; [|exact Hsame].
    destruct (order_access "modify" admin existing); [exact Hsame|].
    destruct (includes (validTransitions (order_status existing)) requested) eqn:Hedge;
      [|exact Hsame].
    simpl; destruct (String.eqb id target) eqn:E.
    + apply String.eqb_eq in E; subst target.
      rewrite find_order_update_same, Hfind; simpl.
      destruct (transition_progress _ _ Hedge) as [Hlt [Hd Hc]].
      split; [lia | split; [reflexivity | intros [H|H]; contradiction]].
    + apply String.eqb_neq in E; rewrite find_order_update_other by exact E; exact Hsame.
  - unfold deleteOrder.
    destruct (find_order target orders) as [existing|] eqn:Hfind; [|exact Hsame].
    destruct (order_access "delete" admin existing); [exact Hsame|].
    destruct (OrderStatus_eqb (order_status existing) pending) eqn:Hpending;
      [|exact Hsame].
    simpl; rewrite find_order_delete.
    destruct (String.eqb id target) eqn:E; [|exact Hsame].
    apply String.eqb_eq in E; subst target; rewrite Hfind.
    apply OrderStatus_eqb_eq; exact Hpending.
Qed.

(** X8. Through any sequence of update-status and delete requests, by
    whatever callers, an order never goes back: while it exists its
    status has not moved to an earlier stage, a delivered or cancelled
    order stays exactly as it is, and an order that has left [pending] is
    never removed; no order appears. *)
Theorem order_status_never_goes_back :
  forall trace orders id,
    match find_order id orders, find_order id (run_orders trace orders) with
    | Some o, Some o' =>
      (progress (order_status o) <= progress (order_status o'))%nat
      /\ order_stores o' = order_stores o
      /\ (order_status o = delivered \/ order_status o = cancelled ->
          order_status o' = order_status o)
    | Some o, None => order_status o = pending
    | None, Some _ => False
    | None, None => True
    end.
Proof.
  intros trace; induction trace as [|[admin r] rest IH]; intros orders id.
  - simpl; destruct (find_order id orders); [repeat split; lia | exact I].
  - simpl; pose proof (handle_order_step admin r orders id) as Hstep.
    pose proof (IH (handle_order admin r orders) id) as Hrest.
    destruct (find_order id orders) as [o|];
      destruct (find_order id (handle_order admin r orders)) as [o1|];
      destruct (find_order id (run_orders rest (handle_order admin r orders))) as [o'|];
      try exact I; try contradiction; try assumption.
    + destruct Hstep as [H1 [H2 H3]], Hrest as [H4 [H5 H6]].
      split; [lia | split; [congruence|]].
      intro Hterminal; specialize (H3 Hterminal).
      rewrite <- H3; apply H6; rewrite H3; exact Hterminal.
    + destruct Hstep as [H1 [_ H3]].
      destruct (order_status o); try reflexivity;
        try (rewrite Hrest in H1; simpl in H1; lia).
Qed.

(** X9. updateOrder stores the order_status of the body as it comes: for
    an order the caller may modify, any status is reached from any
    status, also where update-status refuses the step. *)
Theorem updateOrder_sets_any_status :
  forall active_payment_option admin id data requested orders o,
    find_order id orders = Some o ->
    order_access (T := Order) "modify" admin o = None ->
    ou_payment_option_id data = None ->
    ou_order_status data = Some requested ->
    let answer := updateOrder active_payment_option admin id data orders in
    status (fst answer) = Success
    /\ find_order id (snd answer) = Some (with_order_status o requested)
    /\ (forall id', id' <> id -> find_order id' (snd answer) = find_order id' orders)
    /\ (includes (validTransitions (order_status o)) requested = false ->
        status (fst (updateOrderStatus admin id requested orders)) = Error).
Proof.
  intros active admin id data requested orders o Hfind Hacc Hpay Hst answer.
  subst answer; unfold updateOrder, updateOrderStatus.
  rewrite Hfind, Hacc, Hpay, Hst; simpl.
  split; [reflexivity | split; [|split]].
  - rewrite find_order_update_same, Hfind; reflexivity.
  - intros id' Hne; apply find_order_update_other; exact Hne.
  - intro Hedge; rewrite Hedge; reflexivity.
Qed.

Lemma updateOrder_sets_any_status_witness :
  find_order "o1"
    (snd (updateOrder (fun _ => true) (Some cairo_admin) "o1"
            {| ou_payment_option_id := None; ou_order_status := Some pending |}
            [order_in delivered]))
  = Some (order_in pending).
Proof.
  apply (updateOrder_sets_any_status (fun _ => true) (Some cairo_admin) "o1"
           {| ou_payment_option_id := None; ou_order_status := Some pending |}
           pending [order_in delivered] (order_in delivered));
    reflexivity.
Defined.

Lemma order_status_never_goes_back_witness :
  let trace := [ (Some cairo_admin, UpdateOrderStatus "o1" preparing);
                 (Some root_admin, DeleteOrder "o1");
                 (Some cairo_admin, UpdateOrderStatus "o1" cancelled);
                 (Some root_admin, UpdateOrderStatus "o1" pending) ] in
  exists o', find_order "o1" (run_orders trace [order_in pending]) = Some o'
             /\ (progress pending <= progress (order_status o'))%nat.
Proof.
  intro trace.
  pose proof (order_status_never_goes_back trace [order_in pending] "o1") as H.
  exists (order_in cancelled); split; [reflexivity|].
  destruct H as [H _]; exact H.
Defined.

(** ** What createOrder hands to the insert *)

Lemma extras_fold : forall exts acc,
  fold_left (fun sum ext => Qred (sum + np_price ext)) exts acc
  == acc + fold_right (fun ext sum => np_price ext + sum) 0 exts.
Proof.
  induction exts as [|ext rest IH]; intro acc; cbn [fold_left fold_right]; [ring|].
  rewrite IH, Qred_correct; ring.
Qed.

Lemma find_filter : forall A (p q : A -> bool) l,
  find p (filter q l) = find (fun x => q x && p x) l.
Proof.
  intros A p q l; induction l as [|x rest IH]; [reflexivity|].
  simpl; destruct (q x); simpl; [destruct (p x); [reflexivity | exact IH] | exact IH].
Qed.

Lemma find_ext : forall A (p q : A -> bool) l,
  (forall x, p x = q x) -> find p l = find q l.
Proof.
  intros A p q l H; induction l as [|x rest IH]; [reflexivity|].
  simpl; rewrite H, IH; reflexivity.
Qed.

(** Among the rows createOrder fetched, the row of an ordered id is the
    active item of the store under that id. *)
Lemma fetched_item : forall db store itemIds id,
  In id itemIds ->
  find (fun item => String.eqb (item_id item) id)
       (filter (fun item => existsb (String.eqb (item_id item)) itemIds
                            && String.eqb (item_store_id item) store
                            && item_is_active item) (store_items db))
  = catalog_item db store id.
Proof.
  intros db store itemIds id Hin; rewrite find_filter; apply find_ext; intro x.
  destruct (String.eqb (item_id x) id) eqn:E; simpl; [|apply andb_false_r].
  rewrite andb_true_r; apply String.eqb_eq in E; rewrite E.
  assert (Hex : existsb (String.eqb id) itemIds = true)
    by (apply existsb_exists; exists id; split; [exact Hin | apply String.eqb_refl]).
  rewrite Hex; reflexivity.
Qed.

Lemma order_line_ok : forall storeItem orderItem line quantity itemTotal,
  order_line storeItem orderItem = inr (line, quantity, itemTotal) ->
  line_id line = item_id storeItem
  /\ line_quantity line = oi_quantity orderItem
  /\ quantity = oi_quantity orderItem
  /\ itemTotal == (item_price storeItem + extras_price orderItem)
                  * inject_Z (oi_quantity orderItem)
  /\ forall ext, In ext (or_else (oi_extras orderItem) []) ->
       exists storeExtra, In storeExtra (item_extras storeItem)
                          /\ np_name storeExtra = np_name ext
                          /\ np_price storeExtra == np_price ext.
Proof.
  intros storeItem orderItem line quantity itemTotal H; unfold order_line in H.
  destruct (negb _); [discriminate|].
  destruct (negb _) eqn:Hextras; [discriminate|].
  match type of H with
  | context [Qred ?x] => remember (Qred x) as total eqn:Htotal
  end.
  injection H as Hl Hq Ht; rewrite <- Hl, <- Hq, <- Ht, Htotal; clear Hl Hq Ht Htotal.
  cbn [line_id line_quantity].
  split; [reflexivity | split; [reflexivity | split; [reflexivity | split]]].
  - rewrite Qred_correct; unfold extras_price, or_else.
    destruct (oi_extras orderItem) as [exts|]; [|reflexivity].
    rewrite extras_fold; ring.
  - intros ext Hext; apply negb_false_iff in Hextras.
    destruct (oi_extras orderItem) as [exts|]; simpl in Hext; [|contradiction].
    rewrite forallb_forall in Hextras; specialize (Hextras ext Hext).
    destruct (find _ (item_extras storeItem)) as [storeExtra|] eqn:Hfind; [|discriminate].
    apply find_some in Hfind; destruct Hfind as [Hin Hname].
    exists storeExtra; split; [exact Hin | split].
    + apply String.eqb_eq; exact Hname.
    + apply Qeq_bool_iff; exact Hextras.
Qed.

Lemma order_lines_ok : forall db store storeItems orderItems q0 p0 lines q p,
  (forall orderItem, In orderItem orderItems ->
     find (fun item => String.eqb (item_id item) (oi_id orderItem)) storeItems
     = catalog_item db store (oi_id orderItem)) ->
  order_lines storeItems orderItems q0 p0 = inr (lines, q, p) ->
  map line_id lines = map oi_id orderItems
  /\ map line_quantity lines = map oi_quantity orderItems
  /\ q = (q0 + sum_Z (map oi_quantity orderItems))%Z
  /\ p == p0 + sum_Q (map (item_total db store) orderItems)
  /\ forall orderItem, In orderItem orderItems ->
       exists storeItem,
         catalog_item db store (oi_id orderItem) = Some storeItem
         /\ forall ext, In ext (or_else (oi_extras orderItem) []) ->
              exists storeExtra, In storeExtra (item_extras storeItem)
                                 /\ np_name storeExtra = np_name ext
                                 /\ np_price storeExtra == np_price ext.
Proof.
  intros db store storeItems orderItems.
  induction orderItems as [|orderItem rest IH]; intros q0 p0 lines q p Hlook H.
  - simpl in H; inversion H; subst; simpl.
    repeat split; [lia | ring | intros ? []].
  - cbn [order_lines] in H.
    pose proof (Hlook orderItem (or_introl eq_refl)) as Hitem.
    destruct (find _ storeItems) as [storeItem|]; [|discriminate].
    destruct (order_line storeItem orderItem) as [msg|[[line quantity] itemTotal]] eqn:Hline;
      [discriminate|].
    destruct (order_lines storeItems rest _ _) as [msg|[[lines' q'] p']] eqn:Hrest;
      [discriminate|].
    inversion H; subst; clear H.
    destruct (order_line_ok _ _ _ _ _ Hline) as [Hid [Hqty [Hq [Htotal Hextras]]]].
    destruct (IH _ _ _ _ _ (fun oi Hoi => Hlook oi (or_intror Hoi)) Hrest)
      as [Hids [Hqtys [Hsumq [Hsump Hall]]]].
    assert (Hsame : item_id storeItem = oi_id orderItem).
    { symmetry in Hitem; unfold catalog_item in Hitem; apply find_some in Hitem.
      destruct Hitem as [_ Hitem]; apply andb_true_iff in Hitem; destruct Hitem as [Hitem _].
      apply andb_true_iff in Hitem; destruct Hitem as [Hitem _].
      apply String.eqb_eq; exact Hitem. }
    simpl; split; [congruence | split; [congruence | split; [|split]]].
    + rewrite Hsumq, Hq; unfold sum_Z; lia.
    + rewrite Hsump, Qred_correct, Htotal; unfold item_total at 2.
      rewrite <- Hitem; unfold sum_Q; ring.
    + intros oi [Hoi|Hoi]; [subst oi | apply Hall; exact Hoi].
      exists storeItem; split; [symmetry; exact Hitem | exact Hextras].
Qed.

(** createOrder reached the insert: the checks it passed on the way. *)
Lemma createOrder_success : forall date_value now order db ins,
  data (createOrder date_value now order db) = Some ins ->
  exists store items q p,
    In store (stores db) /\ store_id store = oc_store_id order
    /\ store_is_active store = true /\ store_is_busy store = false
    /\ List.length
         (filter (fun item =>
                    existsb (String.eqb (item_id item)) (map oi_id (oc_items order))
                    && String.eqb (item_store_id item) (oc_store_id order)
                    && item_is_active item) (store_items db))
       = List.length (oc_items order)
    /\ order_lines
         (filter (fun item =>
                    existsb (String.eqb (item_id item)) (map oi_id (oc_items order))
                    && String.eqb (item_store_id item) (oc_store_id order)
                    && item_is_active item) (store_items db))
         (oc_items order) 0%Z 0 = inr (items, q, p)
    /\ ins_items ins = items /\ ins_total_item_quantity ins = q
    /\ ins_total_item_price ins = Js.Num p
    /\ ins_store_id ins = oc_store_id order
    /\ ins_order_status ins = pending /\ ins_payment_status ins = paid.
Proof.
  intros date_value now order db ins H; unfold createOrder in H.
  destruct (find _ (stores db)) as [store|] eqn:Hstore; [|discriminate].
  apply find_some in Hstore; destruct Hstore as [Hin Hid]; apply String.eqb_eq in Hid.
  destruct (store_is_active store) eqn:Hactive; [|discriminate]; cbn [negb] in H.
  destruct (store_is_busy store) eqn:Hbusy; [discriminate|].
  destruct (truthy (oc_payment_option_id order) && _); [discriminate|].
  match type of H with
  | data (match ?check with Some _ => _ | None => _ end) = _ =>
    destruct check as [rejected|] eqn:Hcheck
  end.
  { exfalso.
    destruct (truthy (oc_promo_code_id order)); [|discriminate].
    destruct (find _ (promo_codes db)); [|inversion Hcheck; subst; discriminate].
    repeat match type of Hcheck with
           | (if ?c then _ else _) = _ => destruct c
           end; inversion Hcheck; subst; discriminate. }
  match type of H with
  | data (if negb (Nat.eqb ?a ?b) then _ else _) = _ =>
    destruct (Nat.eqb a b) eqn:Hlen
  end; [|discriminate].
  cbn [negb] in H; apply Nat.eqb_eq in Hlen; rewrite length_map in Hlen.
  match type of H with
  | data (match ?lines with inl _ => _ | inr _ => _ end) = _ =>
    destruct lines as [msg|[[items q] p]] eqn:Hlines
  end; [discriminate|].
  exists store, items, q, p.
  unfold ResponseHandler.success in H; cbn [data] in H.
  injection H as H; rewrite <- H; cbn.
  repeat split; assumption || reflexivity.
Qed.

(** X11. What an order must be for createOrder to reach the insert, the
    key of [store_items] being unique: its store exists, is active and is
    not busy; no item is named twice; every ordered item is an active
    item of that store; every named extra is an extra of the item at the
    catalog price. *)
Theorem createOrder_orders_catalog_items :
  forall date_value now order db ins,
    NoDup (map item_id (store_items db)) ->
    data (createOrder date_value now order db) = Some ins ->
    (exists store, In store (stores db) /\ store_id store = oc_store_id order
                   /\ store_is_active store = true /\ store_is_busy store = false)
    /\ NoDup (map oi_id (oc_items order))
    /\ forall orderItem, In orderItem (oc_items order) ->
         exists storeItem,
           In storeItem (store_items db)
           /\ item_id storeItem = oi_id orderItem
           /\ item_store_id storeItem = oc_store_id order
           /\ item_is_active storeItem = true
           /\ forall ext, In ext (or_else (oi_extras orderItem) []) ->
                exists storeExtra, In storeExtra (item_extras storeItem)
                                   /\ np_name storeExtra = np_name ext
                                   /\ np_price storeExtra == np_price ext.
Proof.
  intros date_value now order db ins Hpk H.
  destruct (createOrder_success _ _ _ _ _ H)
    as [store [items [q [p [Hin [Hid [Hact [Hbusy [Hlen [Hlines _]]]]]]]]]].
  split; [exists store; repeat split; assumption | split].
  - set (fetched := filter _ (store_items db)) in *.
    apply NoDup_incl_NoDup with (l := map item_id fetched).
    + apply NoDup_map_filter; exact Hpk.
    + rewrite !length_map, Hlen; apply Nat.le_refl.
    + intros id Hfetched; apply in_map_iff in Hfetched.
      destruct Hfetched as [item [Hitem Hfetched]]; apply filter_In in Hfetched.
      destruct Hfetched as [_ Hkeep]; apply andb_true_iff in Hkeep; destruct Hkeep as [Hkeep _].
      apply andb_true_iff in Hkeep; destruct Hkeep as [Hkeep _].
      apply existsb_exists in Hkeep; destruct Hkeep as [id' [Hid' Heq]].
      apply String.eqb_eq in Heq; congruence.
  - apply (order_lines_ok db (oc_store_id order)) in Hlines.
    + destruct Hlines as [_ [_ [_ [_ Hall]]]]; intros orderItem Hitem.
      destruct (Hall orderItem Hitem) as [storeItem [Hcat Hextras]].
      unfold catalog_item in Hcat; apply find_some in Hcat; destruct Hcat as [Hsi Hkeep].
      apply andb_true_iff in Hkeep; destruct Hkeep as [Hkeep Hactive].
      apply andb_true_iff in Hkeep; destruct Hkeep as [Hsame Hstore].
      apply String.eqb_eq in Hsame, Hstore.
      exists storeItem; repeat split; assumption.
    + intros orderItem Hitem; apply fetched_item; apply in_map; exact Hitem.
Qed.

Lemma createOrder_orders_catalog_items_witness :
  NoDup (map oi_id (oc_items two_boxes)).
Proof.
  assert (Hpk : NoDup (map item_id (store_items box_catalog)))
    by (constructor; [intros [] | constructor]).
  destruct (createOrder_orders_catalog_items no_dates 0%Z two_boxes box_catalog _
              Hpk eq_refl) as [_ [H _]]; exact H.
Defined.

(** ** Admin accounts *)

Section AdminAccounts.
Variable bcrypt_hash : string -> string.
Variable bcrypt_compare : string -> string -> bool.
Hypothesis compare_hash : forall password,
  bcrypt_compare password (bcrypt_hash password) = true.

Lemma filter_none : forall A (hit : A -> bool) l,
  existsb hit l = false -> filter hit l = [].
Proof.
  intros A hit l H; induction l as [|x rest IH]; [reflexivity|].
  simpl in *; apply orb_false_iff in H; destruct H as [Hx Hrest].
  rewrite Hx; apply IH; exact Hrest.
Qed.

(** X12. An account made by createAdmin can log in with the credentials
    it was made with, and the payload signed for it carries the id, role,
    country and city given at creation. *)
Theorem created_admin_can_log_in :
  forall admin new_id adminData db,
    status (fst (createAdmin bcrypt_hash admin new_id adminData db)) = Success ->
    login bcrypt_compare (ac_username adminData) (ac_password adminData)
          (snd (createAdmin bcrypt_hash admin new_id adminData db))
    = ResponseHandler.success 200 "Login successful"
        (Some {| p_id := new_id; p_role := ac_role adminData;
                 p_country_id := ac_country_id adminData;
                 p_city_id := ac_city_id adminData |}).
Proof.
  intros admin new_id adminData db Hok; unfold createAdmin in *.
  destruct (existsb _ (admins db)) eqn:Hname; [discriminate|].
  match type of Hok with
  | context [match ?a with Some _ => _ | None => _ end] => destruct a as [denied|] eqn:Hacc
  end.
  { exfalso; destruct (not_super_admin admin); [|discriminate].
    repeat match type of Hacc with
           | (if ?c then _ else _) = _ => destruct c
           end; inversion Hacc; subst; simpl in Hok; discriminate. }
  destruct (photo_check _ _ db) as [invalid|] eqn:Hphoto.
  { exfalso; unfold photo_check in Hphoto.
    destruct (truthy (ac_photo_media_id adminData)); [|discriminate].
    destruct (find _ (media db));
      [|inversion Hphoto; subst; simpl in Hok; discriminate].
    match type of Hphoto with
    | (if ?c then _ else _) = _ => destruct c
    end; inversion Hphoto; subst; simpl in Hok; discriminate. }
  destruct (existsb (fun a => String.eqb (adm_id a) new_id) (admins db)); [discriminate|].
  unfold login; simpl; rewrite filter_app.
  assert (Hnone : filter (fun a => String.eqb (adm_username a) (ac_username adminData)
                                   && adm_is_active a) (admins db) = []).
  { apply filter_none, existsb_false; intros a Ha.
    assert (Hfree : String.eqb (adm_username a) (ac_username adminData) = false).
    { destruct (String.eqb (adm_username a) (ac_username adminData)) eqn:E; [|reflexivity].
      assert (Hex : existsb (fun a => String.eqb (adm_username a) (ac_username adminData))
                            (admins db) = true)
        by (apply existsb_exists; exists a; split; assumption).
      congruence. }
    rewrite Hfree; reflexivity. }
  rewrite Hnone; simpl; rewrite String.eqb_refl; simpl.
  rewrite compare_hash; reflexivity.
Qed.

Lemma usernames_after_update : forall id (u : AdminUpdateDto) (l : list Admin),
  NoDup (map adm_id l) ->
  NoDup (map adm_username l) ->
  (forall n, au_username u = Some n ->
     forall a, In a l -> adm_id a <> id -> adm_username a <> n) ->
  NoDup (map adm_username
           (map (fun a => if String.eqb (adm_id a) id
                          then apply_update bcrypt_hash a u else a) l)).
Proof.
  intros id u l Hids Hnames Hfree; rewrite map_map.
  apply (NoDup_map_by _ _ _ adm_id); [exact Hids|].
  intros a b Ha Hb.
  destruct (String.eqb (adm_id a) id) eqn:Ea, (String.eqb (adm_id b) id) eqn:Eb.
  - apply String.eqb_eq in Ea, Eb; congruence.
  - apply String.eqb_neq in Eb; unfold apply_update; simpl.
    destruct (au_username u) as [n|] eqn:Hn; simpl.
    + intro Hsame; exfalso; apply (Hfree n eq_refl b Hb Eb); congruence.
    + intro Hsame; rewrite (NoDup_map_eq _ _ adm_username l a b Hnames Ha Hb Hsame).
      reflexivity.
  - apply String.eqb_neq in Ea; unfold apply_update; simpl.
    destruct (au_username u) as [n|] eqn:Hn; simpl.
    + intro Hsame; exfalso; apply (Hfree n eq_refl a Ha Ea); congruence.
    + intro Hsame; rewrite (NoDup_map_eq _ _ adm_username l a b Hnames Ha Hb Hsame).
      reflexivity.
  - intro Hsame; rewrite (NoDup_map_eq _ _ adm_username l a b Hnames Ha Hb Hsame).
    reflexivity.
Qed.

Lemma handle_keeps_usernames : forall admin r db,
  names_its_account r ->
  NoDup (map adm_id (admins db)) ->
  NoDup (map adm_username (admins db)) ->
  NoDup (map adm_username (admins (snd (handle bcrypt_hash admin r db)))).
Proof.
  intros admin r db Hr Hids Hnames; destruct r; simpl.
  - unfold createCountry.
    repeat match goal with |- context [if ?c then _ else _] => destruct c end;
      simpl; exact Hnames.
  - unfold updateCountry.
    destruct (not_super_admin admin); simpl; [exact Hnames|].
    destruct (find_country id db); simpl; exact Hnames.
  - unfold deleteCountry.
    destruct (not_super_admin admin); simpl; [exact Hnames|].
    destruct (find_country id db); simpl; [|exact Hnames].
    match goal with |- context [if ?c then _ else _] => destruct c end; simpl; exact Hnames.
  - unfold createAdmin.
    destruct (existsb _ (admins db)) eqn:Hname; simpl; [exact Hnames|].
    match goal with |- context [match ?a with Some _ => _ | None => _ end] =>
      destruct a end; simpl; [exact Hnames|].
    destruct (photo_check _ _ db); simpl; [exact Hnames|].
    destruct (existsb (fun a => String.eqb (adm_id a) new_id) (admins db));
      simpl; [exact Hnames|].
    rewrite map_app; apply NoDup_app; [exact Hnames | | ].
    + simpl; constructor; [intros [] | constructor].
    + intros n Hn [Hnew | []]; simpl in Hnew; subst n.
      apply in_map_iff in Hn; destruct Hn as [a [Ha Hin]].
      assert (Hex : existsb (fun a => String.eqb (adm_username a) (ac_username adminData))
                            (admins db) = true)
        by (apply existsb_exists; exists a; split; [exact Hin | apply String.eqb_eq; exact Ha]).
      congruence.
  - unfold updateAdmin.
    destruct (find_admin id db) as [existing|]; simpl; [|exact Hnames].
    match goal with |- context [match ?a with Some _ => _ | None => _ end] =>
      destruct a as [denied|] end; simpl; [exact Hnames|].
    destruct (truthy (au_username updateData) && _) eqn:Htaken; simpl; [exact Hnames|].
    destruct (photo_check _ _ db); simpl; [exact Hnames|].
    apply usernames_after_update; [exact Hids | exact Hnames|].
    intros n Hn a Ha Hid Hsame; simpl in Hr; rewrite Hn in Hr, Htaken.
    destruct n as [|c n']; [apply Hr; reflexivity|].
    change (truthy (Some (String c n'))) with true in Htaken; rewrite andb_true_l in Htaken.
    apply not_true_iff_false in Htaken; apply Htaken.
    apply existsb_exists; exists a; split; [exact Ha|].
    apply String.eqb_neq in Hid; apply andb_true_iff; split.
    + apply String.eqb_eq; exact Hsame.
    + rewrite Hid; reflexivity.
  - unfold deleteAdmin.
    destruct (find_admin id db); simpl; [|exact Hnames].
    match goal with |- context [match ?a with Some _ => _ | None => _ end] =>
      destruct a end; simpl; [exact Hnames|].
    match goal with |- context [if ?c then _ else _] => destruct c end; simpl; [exact Hnames|].
    apply NoDup_map_filter; exact Hnames.
Qed.

(** X13. User names stay unique: through any sequence of admin and
    country requests in which no update sends an empty username, by
    whatever callers, no two accounts share a username. *)
Theorem usernames_stay_unique :
  forall trace db,
    Forall (fun step => names_its_account (snd step)) trace ->
    NoDup (map adm_id (admins db)) ->
    NoDup (map adm_username (admins db)) ->
    NoDup (map adm_username (admins (run bcrypt_hash trace db))).
Proof.
  induction trace as [|[admin r] rest IH]; intros db Hall Hids Hnames; [exact Hnames|].
  inversion Hall as [|? ? Hr Hrest]; subst; simpl.
  apply IH; [exact Hrest | apply handle_keeps_keys; exact Hids|].
  apply handle_keeps_usernames; assumption.
Qed.

Lemma route_keeps_keys : forall admin r db,
  NoDup (map adm_id (admins db)) ->
  NoDup (map adm_id (admins (snd (route bcrypt_hash admin r db)))).
Proof.
  intros admin r db Hnd; unfold route.
  destruct (roleGuard (allowedRoles r) admin); [exact Hnd|].
  apply handle_keeps_keys; exact Hnd.
Qed.

Lemma route_keeps_super_admins : forall admin r db,
  NoDup (map adm_id (admins db)) ->
  super_admins (snd (route bcrypt_hash admin r db)) = super_admins db.
Proof.
  intros admin r db Hnd; unfold route.
  destruct (roleGuard (allowedRoles r) admin) as [rejected|] eqn:Hguard; [reflexivity|].
  destruct (is_country_request r) eqn:Hkind.
  - destruct r; try discriminate Hkind; simpl.
    + unfold createCountry.
      repeat match goal with |- context [if ?c then _ else _] => destruct c end;
        reflexivity.
    + unfold updateCountry.
      destruct (not_super_admin admin); [reflexivity|].
      destruct (find_country id db); reflexivity.
    + unfold deleteCountry.
      destruct (not_super_admin admin); [reflexivity|].
      destruct (find_country id db); [|reflexivity].
      match goal with |- context [if ?c then _ else _] => destruct c end; reflexivity.
  - assert (Hns : not_super_admin admin = true).
    { unfold roleGuard in Hguard; destruct admin as [p|]; [|discriminate].
      destruct r; try discriminate Hkind; simpl in Hguard |- *;
        destruct (p_role p); simpl in *; try discriminate; reflexivity. }
    destruct (handle_not_super_admin bcrypt_hash admin r db Hns Hnd) as [_ [H _]]; exact H.
Qed.

(** X14. Through the routes as they are guarded, the super-admin accounts
    never change: after any sequence of routed admin and country requests,
    by whatever callers, they are the accounts there were at the start;
    and a super admin is refused on every admin route. *)
Theorem routes_never_touch_super_admins :
  forall trace db,
    NoDup (map adm_id (admins db)) ->
    super_admins (run_routes bcrypt_hash trace db) = super_admins db
    /\ forall p r, p_role p = SUPER_ADMIN -> is_country_request r = false ->
         route bcrypt_hash (Some p) r db = (403%nat, db).
Proof.
  intros trace db Hnd; split.
  - revert db Hnd; induction trace as [|[admin r] rest IH]; intros db Hnd; [reflexivity|].
    simpl; rewrite IH by (apply route_keeps_keys; exact Hnd).
    apply route_keeps_super_admins; exact Hnd.
  - intros p r Hrole Hkind; unfold route, roleGuard.
    destruct r; try discriminate Hkind; simpl; rewrite Hrole; reflexivity.
Qed.

End AdminAccounts.

Lemma created_admin_can_log_in_witness :
  data (login plain_compare "cairo-ops" "s3cret"
          (snd (createAdmin plain_hash (Some egypt_admin) "admin-7" cairo_operator
                  accounts_db)))
  = Some {| p_id := "admin-7"; p_role := OPERATOR;
            p_country_id := Some "EG"; p_city_id := Some "CAI" |}.
Proof.
  assert (Hcompare : forall password, plain_compare password (plain_hash password) = true)
    by (intro password; apply String.eqb_refl).
  exact (f_equal data
           (created_admin_can_log_in plain_hash plain_compare Hcompare
              (Some egypt_admin) "admin-7" cairo_operator accounts_db eq_refl)).
Defined.

Lemma usernames_stay_unique_witness :
  let rename :=
    {| au_username := Some "superadmin"; au_password := None; au_role := None;
       au_country_id := None; au_city_id := None; au_photo_media_id := None;
       au_is_active := None |} in
  NoDup (map adm_username
           (admins (run plain_hash
                      [ (Some egypt_admin, CreateAdmin "admin-7" cairo_operator);
                        (Some egypt_admin, UpdateAdmin "admin-7" rename) ]
                      accounts_db))).
Proof.
  intro rename; apply usernames_stay_unique.
  - repeat constructor; simpl; discriminate.
  - repeat constructor; simpl; intuition discriminate.
  - repeat constructor; simpl; intuition discriminate.
Defined.

Lemma routes_never_touch_super_admins_witness :
  super_admins
    (run_routes plain_hash
       [ (Some root_admin, DeleteAdmin "admin-eg");
         (Some egypt_admin, DeleteAdmin "root") ] accounts_db)
  = [root_account].
Proof.
  assert (Hpk : NoDup (map adm_id (admins accounts_db)))
    by (repeat constructor; simpl; intuition discriminate).
  destruct (routes_never_touch_super_admins plain_hash
              [ (Some root_admin, DeleteAdmin "admin-eg");
                (Some egypt_admin, DeleteAdmin "root") ] accounts_db Hpk) as [H _].
  rewrite H; reflexivity.
Defined.

(** ** Promo codes *)

Lemma Qle_bool_false : forall a b, Qle_bool a b = false -> b < a.
Proof.
  intros a b H; apply Qnot_le_lt; intro Hle.
  apply Qle_bool_iff in Hle; congruence.
Qed.

Lemma nil_or_one : forall (b : bool) (x : string),
  (if b then [x] else []) = [] -> b = false.
Proof. intros [] x H; [discriminate | reflexivity]. Qed.

(** X15. A row stored by createPromoCode from a body that names its type
    and sends no empty date meets every CHECK constraint of the table,
    and starts with no use counted. *)
Theorem createPromoCode_meets_checks :
  forall date_value admin id promoData codes,
    dto_type promoData <> None ->
    dto_start_date promoData <> Some EmptyString ->
    dto_end_date promoData <> Some EmptyString ->
    status (fst (createPromoCode date_value admin id promoData codes)) = Success ->
    exists pc,
      data (fst (createPromoCode date_value admin id promoData codes)) = Some pc
      /\ snd (createPromoCode date_value admin id promoData codes) = (codes ++ [pc])%list
      /\ meets_checks date_value pc
      /\ promo_used_count pc = 0%Z.
Proof.
  intros date_value admin id promoData codes Htype Hstart Hend Hok.
  unfold createPromoCode in *.
  destruct (create_access _ admin _ _) as [denied|] eqn:Hacc.
  { exfalso; unfold create_access in Hacc; destruct (not_super_admin admin); [|discriminate].
    repeat match type of Hacc with
           | (if ?c then _ else _) = _ => destruct c
           end; inversion Hacc; subst; simpl in Hok; discriminate. }
  destruct (validatePromoCode_isValid date_value promoData) eqn:Hvalid; [|discriminate].
  cbn [negb] in *.
  destruct (existsb _ codes); [discriminate|].
  destruct (existsb _ codes); [discriminate|].
  exists (new_promo_code id promoData); repeat split; try reflexivity.
  all: unfold validatePromoCode_isValid in Hvalid;
    destruct (validatePromoCode_errors date_value promoData) eqn:Herrors; [|discriminate];
    unfold validatePromoCode_errors in Herrors;
    repeat (apply app_eq_nil in Herrors;
            let H := fresh "Hcheck" in destruct Herrors as [H Herrors]).
  - unfold valid_discount_amount; simpl.
    apply Qle_bool_false; eapply nil_or_one; exact Hcheck1.
  - assert (Hpos : 0 < dto_discount_amount promoData)
      by (apply Qle_bool_false; eapply nil_or_one; exact Hcheck1).
    unfold valid_maximum_discount; simpl.
    destruct (dto_type promoData) as [[|]|]; [| |contradiction Htype; reflexivity].
    + split; [apply Qltb_false; eapply nil_or_one; exact Hcheck2|].
      destruct (dto_maximum_discount promoData) as [m|]; [|exact I].
      apply app_eq_nil in Hcheck4; destruct Hcheck4 as [Hm _].
      apply Qle_bool_false; eapply nil_or_one; exact Hm.
    + destruct (dto_maximum_discount promoData) as [m|]; [|exact I].
      apply app_eq_nil in Hcheck4; destruct Hcheck4 as [_ Hm].
      apply nil_or_one in Hm; apply andb_false_iff in Hm; destruct Hm as [Hm|Hm].
      * apply negb_false_iff, Qeq_bool_iff in Hm; rewrite Hm in Hpos.
        exfalso; apply (Qlt_irrefl 0); exact Hpos.
      * apply Qltb_false; exact Hm.
  - unfold valid_minimum_order; simpl.
    destruct (dto_minimum_order_amount promoData) as [m|]; [|exact I].
    apply Qle_bool_false; eapply nil_or_one; exact Hcheck3.
  - unfold valid_usage_limit; simpl.
    destruct (dto_usage_limit promoData) as [u|]; [|exact I].
    apply nil_or_one in Hcheck5; apply Z.leb_gt; exact Hcheck5.
  - unfold valid_dates; simpl.
    destruct (dto_start_date promoData) as [[|c s]|]; [contradiction Hstart; reflexivity| |exact I].
    destruct (dto_end_date promoData) as [[|c' e]|]; [contradiction Hend; reflexivity| |exact I].
    apply nil_or_one in Herrors; simpl in Herrors; apply Z.leb_gt; exact Herrors.
  - unfold valid_location; simpl.
    destruct (dto_country_id promoData) as [[|c k]|]; simpl in Hcheck0;
      discriminate.
Qed.

Lemma createPromoCode_meets_checks_witness :
  exists pc, scenario_promo_codes = [pc] /\ meets_checks no_dates pc.
Proof.
  destruct (createPromoCode_meets_checks no_dates (Some egypt_admin) "promo-1" save20 [])
    as [pc [_ [Hrows [Hchecks _]]]];
    [discriminate | discriminate | discriminate | reflexivity |].
  exists pc; split; [exact Hrows | exact Hchecks].
Defined.

Lemma find_Forall2 : forall A (R : A -> A -> Prop) (p : A -> bool) l l',
  Forall2 R l l' ->
  (forall a b, R a b -> p a = p b) ->
  match find p l, find p l' with
  | Some a, Some b => R a b
  | None, None => True
  | _, _ => False
  end.
Proof.
  intros A R p l l' H Hp; induction H as [|a b l l' Hab Hrest IH]; simpl; [exact I|].
  rewrite <- (Hp a b Hab); destruct (p a); [exact Hab | exact IH].
Qed.

(** X16. createOrder does not look at the minimum order amount, the usage
    limit or the use count of a promo code: changing them on any rows
    changes nothing in its answer or in what it hands to the insert. *)
Theorem createOrder_ignores_promo_limits :
  forall date_value now order db codes',
    Forall2 same_but_limits (promo_codes db) codes' ->
    createOrder date_value now order (with_promo_codes db codes')
    = createOrder date_value now order db.
Proof.
  intros date_value now order db codes' Hsame.
  assert (Hfind : forall p : PromoCode -> bool,
            (forall x y, same_but_limits x y -> p x = p y) ->
            match find p (promo_codes db), find p codes' with
            | Some a, Some b => same_but_limits a b
            | None, None => True
            | _, _ => False
            end)
    by (intros p Hp; apply find_Forall2; assumption).
  unfold createOrder, discountAmount_of, with_promo_codes.
  cbn [promo_codes stores store_items active_payment_option].
  repeat match goal with
         | |- context [find ?p codes'] =>
           let H := fresh "Hrow" in
           assert (H : match find p (promo_codes db), find p codes' with
                       | Some a, Some b => same_but_limits a b
                       | None, None => True
                       | _, _ => False
                       end)
             by (apply Hfind; intros x y Hxy; cbv beta; unfold same_but_limits in Hxy;
                 decompose [and] Hxy; congruence);
           destruct (find p (promo_codes db)), (find p codes'); try contradiction
         end;
    repeat match goal with
           | H : same_but_limits _ _ |- _ =>
             unfold same_but_limits in H; decompose [and] H; clear H
           end;
    repeat match goal with
           | H : promo_start_date _ = promo_start_date _ |- _ => rewrite <- H; clear H
           | H : promo_end_date _ = promo_end_date _ |- _ => rewrite <- H; clear H
           end;
    reflexivity.
Qed.

Lemma createOrder_ignores_promo_limits_witness :
  createOrder no_dates 0%Z scenario_order
    (with_promo_codes scenario_catalog (map used_up scenario_promo_codes))
  = createOrder no_dates 0%Z scenario_order scenario_catalog.
Proof.
  apply (createOrder_ignores_promo_limits no_dates 0%Z scenario_order scenario_catalog).
  repeat constructor.
Defined.

(** ** Rating statistics *)

Lemma sum_stars : forall rows acc,
  fold_left (fun acc curr => (acc + rating_star_count curr)%Z) rows acc
  = (acc + sum_Z (map rating_star_count rows))%Z.
Proof.
  intro rows; induction rows as [|r rest IH]; intro acc; simpl; [lia|].
  rewrite IH; unfold sum_Z; lia.
Qed.

Lemma distribution_at_count_star : forall k star acc,
  distribution_at k (count_star star acc)
  = (distribution_at k acc + if (star =? k)%Z then 1 else 0)%Z.
Proof.
  intros k star acc; induction acc as [|[k' n] rest IH]; simpl.
  - destruct (Z.eqb_spec star k); lia.
  - destruct (Z.eqb_spec k' star) as [E|E]; simpl.
    + subst k'; destruct (Z.eqb_spec star k); lia.
    + destruct (Z.eqb_spec k' k) as [E'|E']; [|exact IH].
      subst k'; destruct (Z.eqb_spec star k); [congruence | lia].
Qed.

Lemma keys_count_star : forall star acc k,
  In k (map fst (count_star star acc)) <-> k = star \/ In k (map fst acc).
Proof.
  intros star acc k; induction acc as [|[k' n] rest IH]; simpl.
  - split; [intros [H|[]]; left; congruence | intros [H|[]]; left; congruence].
  - destruct (Z.eqb_spec k' star) as [E|E]; simpl.
    + subst k'; split.
      * intros [H|H]; [left; congruence | right; right; exact H].
      * intros [H|[H|H]]; [left; congruence | left; exact H | right; exact H].
    + rewrite IH; tauto.
Qed.

Lemma NoDup_count_star : forall star acc,
  NoDup (map fst acc) -> NoDup (map fst (count_star star acc)).
Proof.
  intros star acc; induction acc as [|[k' n] rest IH]; intro H; simpl.
  - constructor; [intros [] | constructor].
  - simpl in H; inversion H as [|? ? Hnotin Hrest]; subst.
    destruct (Z.eqb_spec k' star) as [E|E]; simpl; [constructor; assumption|].
    constructor; [|apply IH; exact Hrest].
    rewrite keys_count_star; intros [Hk|Hk]; [congruence | contradiction].
Qed.

Lemma total_count_star : forall star acc,
  sum_Z (map snd (count_star star acc)) = (sum_Z (map snd acc) + 1)%Z.
Proof.
  intros star acc; induction acc as [|[k' n] rest IH]; simpl; [reflexivity|].
  destruct (k' =? star)%Z; simpl; [unfold sum_Z in *; lia|].
  unfold sum_Z in *; simpl; rewrite IH; lia.
Qed.

Lemma distribution_of : forall rows acc,
  let distribution :=
    fold_left (fun acc curr => count_star (rating_star_count curr) acc) rows acc in
  (NoDup (map fst acc) -> NoDup (map fst distribution))
  /\ sum_Z (map snd distribution)
     = (sum_Z (map snd acc) + Z.of_nat (List.length rows))%Z
  /\ forall k,
       distribution_at k distribution
       = (distribution_at k acc
          + Z.of_nat (List.length
                        (filter (fun r => (rating_star_count r =? k)%Z) rows)))%Z.
Proof.
  intro rows; induction rows as [|r rest IH]; intro acc; cbn zeta.
  - simpl; repeat split; [tauto | lia | intro k; lia].
  - cbn [fold_left]; destruct (IH (count_star (rating_star_count r) acc)) as [H1 [H2 H3]].
    split; [intro H; apply H1, NoDup_count_star; exact H | split].
    + rewrite H2, total_count_star; cbn [List.length]; lia.
    + intro k; rewrite H3, distribution_at_count_star; cbn [filter].
      destruct (rating_star_count r =? k)%Z; cbn [List.length]; lia.
Qed.

Lemma sum_stars_bounds : forall rows,
  (forall r, In r rows -> (1 <= rating_star_count r <= 5)%Z) ->
  (Z.of_nat (List.length rows) <= sum_Z (map rating_star_count rows)
   <= 5 * Z.of_nat (List.length rows))%Z.
Proof.
  intro rows; induction rows as [|r rest IH]; intro H; [simpl; lia|].
  pose proof (H r (or_introl eq_refl)).
  specialize (IH (fun x Hx => H x (or_intror Hx))).
  cbn [List.length map]; unfold sum_Z in *; simpl fold_right; lia.
Qed.

(** X17. The statistics getRatings computes for a target: they count its
    approved, active ratings; the distribution has one entry per star
    count met, holding the number of ratings with that count, and its
    entries add up to the total; average x total is the sum of the stars;
    and with every star count between 1 and 5 so is the average. *)
Theorem rating_stats_add_up :
  forall target_type target_id ratings stats,
    stats_of target_type target_id ratings = Some stats ->
    exists type id,
      target_type = Some type /\ target_id = Some id
      /\ total_ratings stats = List.length (statsData type id ratings)
      /\ NoDup (map fst (rating_distribution stats))
      /\ (forall k,
            distribution_at k (rating_distribution stats)
            = Z.of_nat (List.length
                          (filter (fun r => (rating_star_count r =? k)%Z)
                                  (statsData type id ratings))))
      /\ sum_Z (map snd (rating_distribution stats)) = Z.of_nat (total_ratings stats)
      /\ average_rating stats * inject_Z (Z.of_nat (total_ratings stats))
         == inject_Z (sum_Z (map rating_star_count (statsData type id ratings)))
      /\ ((forall r, In r (statsData type id ratings) ->
             (1 <= rating_star_count r <= 5)%Z) ->
          statsData type id ratings <> [] ->
          1 <= average_rating stats /\ average_rating stats <= 5).
Proof.
  intros target_type target_id ratings stats H; unfold stats_of in H.
  destruct target_type as [type|]; [|discriminate].
  destruct target_id as [id|]; [|discriminate].
  destruct (truthy (Some id)); [|discriminate].
  exists type, id; set (rows := statsData type id ratings) in *.
  injection H as H; rewrite <- H; cbn [total_ratings rating_distribution average_rating].
  destruct (distribution_of rows []) as [Hkeys [Hsum Hat]]; cbn zeta in *.
  rewrite sum_stars, Z.add_0_l.
  split; [reflexivity | split; [reflexivity | split; [reflexivity|]]].
  split; [apply Hkeys; constructor|].
  split; [intro k; rewrite Hat; simpl; lia|].
  split; [rewrite Hsum; simpl; lia|].
  assert (Hpos : forall n, (0 < n)%nat -> 0 < inject_Z (Z.of_nat n)).
  { intros n Hn; change 0 with (inject_Z 0); rewrite <- Zlt_Qlt; lia. }
  split.
  - destruct (Nat.ltb_spec 0 (List.length rows)) as [Hn|Hn].
    + field; intro Hzero; specialize (Hpos _ Hn); rewrite Hzero in Hpos.
      apply (Qlt_irrefl 0); exact Hpos.
    + destruct rows; [simpl; reflexivity | simpl in Hn; lia].
  - intros Hstars Hsome.
    destruct (Nat.ltb_spec 0 (List.length rows)) as [Hn|Hn];
      [|destruct rows; [contradiction Hsome; reflexivity | simpl in Hn; lia]].
    pose proof (sum_stars_bounds rows Hstars) as [Hlow Hhigh].
    split.
    + apply Qle_shift_div_l; [apply Hpos; exact Hn|].
      rewrite Qmult_1_l, <- Zle_Qle; exact Hlow.
    + apply Qle_shift_div_r; [apply Hpos; exact Hn|].
      change 5 with (inject_Z 5); rewrite <- inject_Z_mult, <- Zle_Qle; exact Hhigh.
Qed.

Lemma rating_stats_add_up_witness :
  exists stats,
    stats_of (Some STORE) (Some "s1") store_ratings = Some stats
    /\ total_ratings stats = 2%nat
    /\ sum_Z (map snd (rating_distribution stats)) = 2%Z.
Proof.
  eexists; split; [reflexivity|]; split; [reflexivity|].
  destruct (rating_stats_add_up (Some STORE) (Some "s1") store_ratings _ eq_refl)
    as [type [id [_ [_ [_ [_ [_ [H _]]]]]]]]; exact H.
Defined.

(** ** The switches of a store and order creation *)

Lemma find_store_switched : forall id (f : Store -> Store) stores store,
  (forall s, store_id (f s) = store_id s) ->
  find (fun s => String.eqb (store_id s) id) stores = Some store ->
  find (fun s => String.eqb (store_id s) id)
       (map (fun s => if String.eqb (store_id s) id then f s else s) stores)
  = Some (f store).
Proof.
  intros id f stores store Hf; induction stores as [|x rest IH]; [discriminate|].
  simpl; destruct (String.eqb (store_id x) id) eqn:E.
  - intro H; injection H as H; subst x; rewrite Hf, E; reflexivity.
  - rewrite E; exact IH.
Qed.

(** X18. The switches close a store to order creation.  For a store that
    takes orders (its active flag set, its busy flag not): once
    toggleBusyStatus has run on it createOrder answers 400 "Store is
    currently busy", and once toggleActiveStatus has run on it 400 "Store
    is not active", whatever the order. *)
Theorem store_switches_gate_createOrder :
  forall date_value now order db store,
    find (fun s => String.eqb (store_id s) (oc_store_id order)) (stores db) = Some store ->
    store_is_active store = true ->
    store_is_busy store = false ->
    let id := oc_store_id order in
    createOrder date_value now order
      (with_stores db (snd (toggleBusyStatus id (stores db))))
    = ResponseHandler.error 400 "Store is currently busy"
    /\ createOrder date_value now order
         (with_stores db (snd (toggleActiveStatus id (stores db))))
       = ResponseHandler.error 400 "Store is not active".
Proof.
  intros date_value now order db store Hfind Hactive Hbusy id; subst id.
  unfold toggleBusyStatus, toggleActiveStatus; rewrite Hfind; cbn [snd].
  pose proof (find_store_switched (oc_store_id order)
                (fun s => with_is_busy s (negb (store_is_busy store)))
                (stores db) store (fun s => eq_refl) Hfind) as Hb.
  pose proof (find_store_switched (oc_store_id order)
                (fun s => with_is_active s (negb (store_is_active store)))
                (stores db) store (fun s => eq_refl) Hfind) as Ha.
  split.
  - unfold createOrder, with_stores; cbn [stores]; rewrite Hb; cbn.
    rewrite Hactive, Hbusy; reflexivity.
  - unfold createOrder, with_stores; cbn [stores]; rewrite Ha; cbn.
    rewrite Hactive; reflexivity.
Qed.

Lemma store_switches_gate_createOrder_witness :
  createOrder no_dates 0%Z two_boxes
    (with_stores box_catalog (snd (toggleBusyStatus "s1" (stores box_catalog))))
  = ResponseHandler.error 400 "Store is currently busy".
Proof.
  destruct (store_switches_gate_createOrder no_dates 0%Z two_boxes box_catalog _
              eq_refl eq_refl eq_refl) as [H _]; exact H.
Defined.

(** ** Slugs *)

Lemma is_dash_eq : forall c, is_dash c = true -> c = "-"%char.
Proof. intros c H; apply Ascii.eqb_eq; exact H. Qed.

Lemma in_range_spec : forall low high c,
  in_range low high c = true
  <-> (low <= nat_of_ascii c)%nat /\ (nat_of_ascii c <= high)%nat.
Proof.
  intros low high c; unfold in_range.
  rewrite andb_true_iff, !Nat.leb_le; reflexivity.
Qed.

Lemma is_alnum_spec : forall c,
  is_alnum c = true
  <-> (97 <= nat_of_ascii c <= 122)%nat \/ (48 <= nat_of_ascii c <= 57)%nat.
Proof.
  intro c; unfold is_alnum; rewrite orb_true_iff, !in_range_spec; reflexivity.
Qed.

Lemma alnum_not_dash : forall c, is_alnum c = true -> is_dash c = false.
Proof.
  intros c H; destruct (is_dash c) eqn:E; [|reflexivity].
  apply is_dash_eq in E; subst c; discriminate H.
Qed.

Lemma in_range_false : forall low high c,
  (nat_of_ascii c < low)%nat \/ (high < nat_of_ascii c)%nat ->
  in_range low high c = false.
Proof.
  intros low high c H; destruct (in_range low high c) eqn:E; [|reflexivity].
  apply in_range_spec in E; lia.
Qed.

Lemma lower_slug_char : forall c, is_alnum c || is_dash c = true -> lower c = c.
Proof.
  intros c H; apply orb_true_iff in H; destruct H as [H|H].
  - apply is_alnum_spec in H; unfold lower.
    rewrite (in_range_false 65 90), (in_range_false 192 222); [reflexivity | lia | lia].
  - apply is_dash_eq in H; subst c; reflexivity.
Qed.

Lemma slug_char_not_space : forall c, is_alnum c || is_dash c = true -> is_space c = false.
Proof.
  intros c H; apply orb_true_iff in H; destruct H as [H|H].
  - apply is_alnum_spec in H; unfold is_space, is_blank; cbv zeta.
    destruct (Nat.leb_spec 9 (nat_of_ascii c)), (Nat.leb_spec (nat_of_ascii c) 13),
             (Nat.eqb_spec (nat_of_ascii c) 32), (Nat.eqb_spec (nat_of_ascii c) 160);
      simpl; try reflexivity; lia.
  - apply is_dash_eq in H; subst c; reflexivity.
Qed.

Lemma toLowerCase_slug_chars : forall s, slug_chars s = true -> toLowerCase s = s.
Proof.
  induction s as [|c rest IH]; simpl; [reflexivity|]; intro H.
  apply andb_true_iff in H; destruct H as [Hc Hrest].
  rewrite (lower_slug_char c Hc), (IH Hrest); reflexivity.
Qed.

Lemma single_dashes_chars : forall s b, single_dashes b s = true -> slug_chars s = true.
Proof.
  induction s as [|c rest IH]; intros b H; simpl in *; [reflexivity|].
  destruct (is_alnum c); simpl; [exact (IH _ H)|].
  apply andb_true_iff in H; destruct H as [H Hrest].
  apply andb_true_iff in H; destruct H as [Hdash _].
  rewrite Hdash; exact (IH _ Hrest).
Qed.

Lemma dashed_words_single : forall s b, dashed_words b s = true -> single_dashes b s = true.
Proof.
  induction s as [|c rest IH]; intros b H; simpl in *; [reflexivity|].
  destruct (is_alnum c); [exact (IH _ H)|].
  apply andb_true_iff in H; destruct H as [H Hrest]; rewrite H, (IH _ Hrest); reflexivity.
Qed.

Lemma single_dashes_weaken : forall s, single_dashes true s = true -> single_dashes false s = true.
Proof.
  intros [|c rest] H; simpl in *; [reflexivity|].
  destruct (is_alnum c); [exact H|].
  rewrite andb_false_r in H; discriminate.
Qed.

Lemma replace_runs_single : forall s b, single_dashes b (replace_runs b s) = true.
Proof.
  induction s as [|c rest IH]; intro b; simpl; [reflexivity|].
  destruct (is_alnum c) eqn:E; simpl; [rewrite E; apply IH|].
  destruct b; [apply IH|]; simpl; apply IH.
Qed.

Lemma replace_runs_fixed : forall s b, single_dashes b s = true -> replace_runs b s = s.
Proof.
  induction s as [|c rest IH]; intros b H; simpl in *; [reflexivity|].
  destruct (is_alnum c); [rewrite (IH _ H); reflexivity|].
  apply andb_true_iff in H; destruct H as [H Hrest].
  apply andb_true_iff in H; destruct H as [Hdash Hb].
  apply negb_true_iff in Hb; subst b; apply is_dash_eq in Hdash; subst c.
  rewrite (IH _ Hrest); reflexivity.
Qed.

Lemma strip_first_single : forall s,
  single_dashes false s = true -> single_dashes true (strip_first s) = true.
Proof.
  intros [|c rest] H; simpl in *; [reflexivity|].
  destruct (is_alnum c) eqn:E.
  - rewrite (alnum_not_dash c E); simpl; rewrite E; exact H.
  - apply andb_true_iff in H; destruct H as [H Hrest].
    apply andb_true_iff in H; destruct H as [Hdash _]; rewrite Hdash; exact Hrest.
Qed.

Lemma strip_last_words : forall s b,
  single_dashes b s = true ->
  match strip_last s with
  | EmptyString => True
  | String c rest => dashed_words b (String c rest) = true
  end.
Proof.
  induction s as [|c rest IH]; intros b H; [exact I|].
  cbn [single_dashes] in H; destruct rest as [|c' rest'].
  - cbn [strip_last]; destruct (is_dash c) eqn:Hdash; [exact I|].
    destruct (is_alnum c) eqn:E; [simpl; rewrite E; reflexivity|].
    simpl in H; discriminate.
  - change (strip_last (String c (String c' rest')))
      with (String c (strip_last (String c' rest'))).
    cbn [dashed_words]; destruct (is_alnum c) eqn:E.
    + specialize (IH false H).
      destruct (strip_last (String c' rest')); [reflexivity | exact IH].
    + apply andb_true_iff in H; destruct H as [H Hrest]; rewrite H; cbn [andb].
      specialize (IH true Hrest).
      destruct (strip_last (String c' rest')) eqn:Hlast; [|exact IH].
      exfalso; cbn [single_dashes] in Hrest.
      destruct (is_alnum c') eqn:E'; [|rewrite andb_false_r in Hrest; discriminate].
      destruct rest'; cbn [strip_last] in Hlast;
        [rewrite (alnum_not_dash c' E') in Hlast|]; discriminate.
Qed.

Lemma strip_last_fixed : forall s b, dashed_words b s = true -> strip_last s = s.
Proof.
  induction s as [|c rest IH]; intros b H; [reflexivity|].
  cbn [dashed_words] in H; destruct rest as [|c' rest'].
  - cbn [strip_last]; destruct (is_alnum c) eqn:E;
      [rewrite (alnum_not_dash c E); reflexivity|].
    simpl in H; rewrite andb_false_r in H; discriminate.
  - change (strip_last (String c (String c' rest')))
      with (String c (strip_last (String c' rest'))).
    destruct (is_alnum c); [rewrite (IH _ H); reflexivity|].
    apply andb_true_iff in H; destruct H as [_ Hrest]; rewrite (IH _ Hrest); reflexivity.
Qed.

Lemma generateSlug_is_slug : forall name, is_slug (generateSlug name) = true.
Proof.
  intro name; unfold generateSlug, is_slug.
  pose proof (strip_last_words _ true
                (strip_first_single _ (replace_runs_single (toLowerCase name) false))) as H.
  destruct (strip_last _); [reflexivity | exact H].
Qed.

Lemma generateSlug_fixed : forall s, is_slug s = true -> generateSlug s = s.
Proof.
  intros [|c rest] H; [reflexivity|]; unfold is_slug in H.
  pose proof (dashed_words_single _ _ H) as Hsingle.
  unfold generateSlug.
  rewrite (toLowerCase_slug_chars _ (single_dashes_chars _ _ Hsingle)).
  rewrite (replace_runs_fixed _ false (single_dashes_weaken _ Hsingle)).
  assert (Hfirst : strip_first (String c rest) = String c rest).
  { cbn [strip_first]; cbn [dashed_words] in H.
    destruct (is_alnum c) eqn:E; [rewrite (alnum_not_dash c E); reflexivity|].
    rewrite andb_false_r in H; discriminate. }
  rewrite Hfirst; apply (strip_last_fixed _ true H).
Qed.

(** X19. generateSlug yields either nothing or words of [a-z0-9] joined
    by single dashes, and such texts are exactly the ones it leaves as
    they are; so making the slug of a slug changes nothing. *)
Theorem generateSlug_yields_dashed_words :
  (forall name, is_slug (generateSlug name) = true)
  /\ (forall s, generateSlug s = s <-> is_slug s = true)
  /\ (forall name, generateSlug (generateSlug name) = generateSlug name).
Proof.
  split; [exact generateSlug_is_slug | split].
  - intro s; split; [intro H; rewrite <- H; apply generateSlug_is_slug|].
    apply generateSlug_fixed.
  - intro name; apply generateSlug_fixed, generateSlug_is_slug.
Qed.

Lemma generateSlug_yields_dashed_words_witness :
  generateSlug "Hot  Drinks & Co." = "hot-drinks-co"
  /\ generateSlug "hot-drinks-co" = "hot-drinks-co".
Proof.
  split; [reflexivity|].
  destruct generateSlug_yields_dashed_words as [_ [H _]].
  apply (H "hot-drinks-co"); reflexivity.
Defined.

Lemma keep_slug_chars_ok : forall s, slug_chars (keep_slug_chars s) = true.
Proof.
  induction s as [|c rest IH]; simpl; [reflexivity|].
  destruct (is_alnum c || is_dash c) eqn:E; [simpl; rewrite E; exact IH | exact IH].
Qed.

Lemma store_slug_fixed : forall s, slug_chars s = true -> store_slug s = s.
Proof.
  intros s H; unfold store_slug; rewrite (toLowerCase_slug_chars s H).
  assert (Hspaces : forall t b, slug_chars t = true -> replace_spaces b t = t).
  { induction t as [|c rest IH]; intros b Ht; simpl in *; [reflexivity|].
    apply andb_true_iff in Ht; destruct Ht as [Hc Hrest].
    rewrite (slug_char_not_space c Hc), (IH false Hrest); reflexivity. }
  rewrite (Hspaces s false H); clear Hspaces.
  induction s as [|c rest IH]; simpl in *; [reflexivity|].
  apply andb_true_iff in H; destruct H as [Hc Hrest].
  rewrite Hc, (IH Hrest); reflexivity.
Qed.

(** X20. The slug createStore derives from a name is made of [a-z0-9-]
    only; the texts made of these characters are exactly the ones it
    leaves as they are; in particular it leaves the slugs of generateSlug
    as they are. *)
Theorem store_slug_keeps_slug_chars :
  (forall name, slug_chars (store_slug name) = true)
  /\ (forall s, store_slug s = s <-> slug_chars s = true)
  /\ (forall name, store_slug (generateSlug name) = generateSlug name).
Proof.
  split; [intro name; apply keep_slug_chars_ok | split].
  - intro s; split; [intro H; rewrite <- H; apply keep_slug_chars_ok|].
    apply store_slug_fixed.
  - intro name; apply store_slug_fixed.
    pose proof (generateSlug_is_slug name) as H; unfold is_slug in H.
    destruct (generateSlug name) as [|c rest]; [reflexivity|].
    apply (single_dashes_chars _ true), dashed_words_single; exact H.
Qed.

Lemma store_slug_keeps_slug_chars_witness :
  store_slug "Abu Ali - Grill!" = "abu-ali---grill"
  /\ store_slug "abu-ali---grill" = "abu-ali---grill".
Proof.
  split; [reflexivity|].
  destruct store_slug_keeps_slug_chars as [_ [H _]].
  apply (H "abu-ali---grill"); reflexivity.
Defined.

(** ** Support tickets and messages *)

Lemma ticket_access_denied_is_error :
  forall T country_message city_message admin ticket (r : ApiResponse T),
    ticket_access country_message city_message admin ticket = Some r ->
    status r = Error.
Proof.
  intros T cm im admin ticket r H; unfold ticket_access in H.
  destruct (not_super_admin admin); [|discriminate].
  repeat match type of H with
         | (if ?c then _ else _) = _ => destruct c
         end; inversion H; subst; reflexivity.
Qed.

Section MarkAsRead.
Variable sender_exists : string -> string -> bool.

(** X22. What a successful markAsRead does to the messages.  The
    messages of the ticket whose [is_read] was false are now read and
    stamped with the time of the request; every other message, of this
    or any other ticket, is exactly as it was, so the messages of the
    ticket that still count as unread (as updateTicket counts them) are
    those whose [is_read] is null: none when no message of the ticket
    has a null [is_read].  The keys are kept, the table's check on
    [read_at] is preserved, and a repeated call changes nothing. *)
Theorem markAsRead_reads_the_ticket :
  forall now admin ticket tickets messages,
    status (fst (markAsRead sender_exists now admin ticket tickets messages)) = Success ->
    let messages' := snd (markAsRead sender_exists now admin ticket tickets messages) in
    unread_messages_count ticket messages'
    = List.length (filter (fun m => String.eqb (msg_ticket_id m) ticket
                                    && is_null (msg_is_read m)) messages)
    /\ ((forall m, In m messages -> msg_ticket_id m = ticket -> msg_is_read m <> None) ->
        unread_messages_count ticket messages' = 0%nat)
    /\ map msg_id messages' = map msg_id messages
    /\ (forall m, In m messages ->
          msg_ticket_id m <> ticket \/ msg_is_read m <> Some false -> In m messages')
    /\ (forall m', In m' messages' ->
          In m' messages
          \/ (msg_ticket_id m' = ticket /\ msg_is_read m' = Some true
              /\ msg_read_at m' = Some now))
    /\ (forallb valid_read_at messages = true -> forallb valid_read_at messages' = true)
    /\ (forall later,
          snd (markAsRead sender_exists later admin ticket tickets messages') = messages').
Proof.
  intros now admin ticket tickets messages Hok messages'; subst messages'.
  unfold markAsRead in *.
  destruct (single _) as [found|]; [|discriminate].
  destruct (ticket_access _ _ admin found) as [denied|] eqn:Hacc.
  { apply ticket_access_denied_is_error in Hacc; simpl in Hok; congruence. }
  destruct (forallb _ messages) eqn:Hsenders; [|discriminate].
  cbn [negb snd]; clear Hok Hacc Hsenders.
  set (mark := fun stamp => mark_read stamp ticket).
  change (mark_read now ticket) with (mark now).
  assert (Hmark : forall stamp m,
            msg_id (mark stamp m) = msg_id m
            /\ msg_ticket_id (mark stamp m) = msg_ticket_id m
            /\ (msg_ticket_id m = ticket -> msg_is_read (mark stamp m) <> Some false)
            /\ is_null (msg_is_read (mark stamp m)) = is_null (msg_is_read m)).
  { intros stamp m; unfold mark, mark_read, unread.
    destruct (String.eqb (msg_ticket_id m) ticket) eqn:E;
      destruct (msg_is_read m) as [[|]|] eqn:R;
      simpl; rewrite ?R; repeat split; try reflexivity; try discriminate;
      intro Ht; apply String.eqb_neq in E; contradiction. }
  assert (Hcount : List.length
                     (filter (fun m => negb (to_boolean (msg_is_read m)))
                        (filter (fun m => String.eqb (msg_ticket_id m) ticket)
                                (map (mark now) messages)))
                   = List.length
                       (filter (fun m => String.eqb (msg_ticket_id m) ticket
                                         && is_null (msg_is_read m)) messages)).
  { induction messages as [|m rest IH]; [reflexivity|].
    simpl; destruct (Hmark now m) as [_ [Ht [Hr Hn]]]; rewrite Ht.
    destruct (String.eqb (msg_ticket_id m) ticket) eqn:E; [|exact IH].
    apply String.eqb_eq in E; specialize (Hr E); simpl; rewrite <- Hn.
    destruct (msg_is_read (mark now m)) as [[|]|]; simpl;
      [exact IH | contradiction Hr; reflexivity | rewrite IH; reflexivity]. }
  split; [exact Hcount |].
  split; [|split; [|split; [|split; [|split]]]].
  - intro Hset; unfold unread_messages_count; rewrite Hcount; clear Hcount.
    induction messages as [|m rest IH]; [reflexivity|].
    simpl; destruct (String.eqb (msg_ticket_id m) ticket) eqn:E.
    + apply String.eqb_eq in E.
      pose proof (Hset m (or_introl eq_refl) E) as Hm.
      destruct (msg_is_read m); [|contradiction Hm; reflexivity].
      simpl; apply IH; intros x Hx; apply Hset; right; exact Hx.
    + simpl; apply IH; intros x Hx; apply Hset; right; exact Hx.
  - rewrite map_map; apply map_ext; intro m; apply Hmark.
  - intros m Hm Hkeep; apply in_map_iff; exists m; split; [|exact Hm].
    unfold mark, mark_read, unread; destruct Hkeep as [Hother|Hread].
    + apply String.eqb_neq in Hother; rewrite Hother; reflexivity.
    + destruct (msg_is_read m) as [[|]|]; rewrite ?andb_false_r; try reflexivity.
      contradiction Hread; reflexivity.
  - intros m' Hm'; apply in_map_iff in Hm'; destruct Hm' as [m [Hm' Hm]]; subst m'.
    unfold mark, mark_read.
    destruct (String.eqb (msg_ticket_id m) ticket && unread m)
      eqn:Hhit; [right | left; exact Hm].
    apply andb_true_iff in Hhit; destruct Hhit as [Ht _]; apply String.eqb_eq in Ht.
    simpl; repeat split; exact Ht.
  - rewrite !forallb_forall; intros Hvalid m' Hm'.
    apply in_map_iff in Hm'; destruct Hm' as [m [Hm' Hm]]; subst m'.
    unfold mark, mark_read.
    destruct (String.eqb (msg_ticket_id m) ticket && unread m);
      [reflexivity | apply Hvalid; exact Hm].
  - intro later.
    assert (Hnone : forall m, In m (map (mark now) messages) ->
              (String.eqb (msg_ticket_id m) ticket && unread m) = false).
    { intros m' Hm'; apply in_map_iff in Hm'; destruct Hm' as [m [Hm' Hm]]; subst m'.
      destruct (Hmark now m) as [_ [Ht [Hr _]]]; rewrite Ht.
      destruct (String.eqb (msg_ticket_id m) ticket) eqn:E; [|reflexivity].
      apply String.eqb_eq in E; specialize (Hr E); unfold unread.
      destruct (msg_is_read (mark now m)) as [[|]|]; try reflexivity.
      contradiction Hr; reflexivity. }
    assert (Hsame : map (mark_read later ticket) (map (mark now) messages)
                    = map (mark now) messages).
    { rewrite <- (map_id (map (mark now) messages)) at 2.
      apply map_ext_in; intros m Hm; unfold mark_read; rewrite (Hnone m Hm); reflexivity. }
    destruct (forallb _ (map (mark now) messages)); cbn [negb snd];
      [exact Hsame | reflexivity].
Qed.

End MarkAsRead.

Lemma markAsRead_reads_the_ticket_witness :
  unread_messages_count "t1" thread = 1%nat
  /\ unread_messages_count "t1"
       (snd (markAsRead known_sender "2024-02-01T09:00:00Z" (Some cairo_admin) "t1"
               [late_order] thread)) = 0%nat.
Proof.
  split; [reflexivity|].
  destruct (markAsRead_reads_the_ticket known_sender "2024-02-01T09:00:00Z"
              (Some cairo_admin) "t1" [late_order] thread eq_refl) as [_ [Hzero _]].
  apply Hzero; intros m Hm _.
  simpl in Hm;
    repeat match type of Hm with
           | _ \/ _ => destruct Hm as [Hm|Hm]
           | False => contradiction
           end; subst m; discriminate.
Defined.

(** ** Photos of a store item *)

Lemma MAX_bounds : forall l,
  match MAX l with
  | Some m => forall x, In x l -> (x <= m)%Z
  | None => l = []
  end.
Proof.
  induction l as [|x rest IH]; simpl; [reflexivity|].
  destruct (MAX rest) as [m|].
  - intros y [Hy|Hy]; [subst y; lia | specialize (IH y Hy); lia].
  - subst rest; intros y [Hy|[]]; subst y; lia.
Qed.

Lemma photos_from_spec : forall id start media_ids index,
  let added := photos_from id None start index media_ids in
  map photo_media_id added = media_ids
  /\ (forall p, In p added ->
        photo_store_item_id p = id /\ (start + Z.of_nat index <= photo_position p)%Z)
  /\ NoDup (map photo_position added).
Proof.
  intros id start media_ids; induction media_ids as [|m rest IH]; intro index; cbn zeta.
  - simpl; split; [reflexivity | split; [intros p [] | constructor]].
  - cbn [photos_from map]; destruct (IH (S index)) as [Hids [Hall Hnd]]; cbn zeta in *.
    split; [rewrite Hids; reflexivity | split].
    + intros p [Hp|Hp]; [subst p; simpl; split; [reflexivity | lia]|].
      destruct (Hall p Hp) as [H1 H2]; split; [exact H1 | lia].
    + constructor; [|exact Hnd].
      cbn [photo_position]; intro Hin; apply in_map_iff in Hin.
      destruct Hin as [p [Hpos Hp]]; destruct (Hall p Hp) as [_ H2]; lia.
Qed.

(** X23. addPhotos without positions, on an item whose highest photo
    position is not 0: the photos are appended to the table, one per
    media id in the order given, each of this item and placed after
    every photo the item had, at pairwise distinct positions; so the
    positions of the item's photos stay distinct if they were. *)
Theorem addPhotos_appends_after_the_last :
  forall admin id media_ids db media photos,
    MAX (map photo_position (photos_of id photos)) <> Some 0%Z ->
    status (fst (addPhotos admin id media_ids None db media photos)) = Success ->
    exists added,
      snd (addPhotos admin id media_ids None db media photos) = (photos ++ added)%list
      /\ map photo_media_id added = media_ids
      /\ (forall p, In p added -> photo_store_item_id p = id)
      /\ (forall p q, In p (photos_of id photos) -> In q added ->
            (photo_position p < photo_position q)%Z)
      /\ NoDup (map photo_position added)
      /\ (NoDup (map photo_position (photos_of id photos)) ->
          NoDup (map photo_position (photos_of id (photos ++ added)))).
Proof.
  intros admin id media_ids db media photos Hmax Hok; unfold addPhotos in *.
  destruct (find _ (store_items db)) as [item|]; [|discriminate].
  match type of Hok with
  | context [match ?a with Some _ => _ | None => _ end] =>
    destruct a as [denied|] eqn:Hacc
  end.
  { exfalso; destruct (not_super_admin admin && _); [|discriminate].
    destruct (find _ (stores db)) as [store|];
      [|inversion Hacc; subst; simpl in Hok; discriminate].
    unfold item_access in Hacc; destruct (not_super_admin admin); [|discriminate].
    repeat match type of Hacc with
           | (if ?c then _ else _) = _ => destruct c
           end; inversion Hacc; subst; simpl in Hok; discriminate. }
  destruct (negb _); [discriminate|].
  set (start := startPosition_after _) in *.
  destruct (clashes photos _); [discriminate|]; cbn [snd].
  destruct (photos_from_spec id start media_ids 0) as [Hids [Hall Hnd]]; cbn zeta in *.
  exists (photos_from id None start 0 media_ids).
  assert (Hafter : forall p q, In p (photos_of id photos) ->
            In q (photos_from id None start 0 media_ids) ->
            (photo_position p < photo_position q)%Z).
  { intros p q Hp Hq; destruct (Hall q Hq) as [_ Hq'].
    pose proof (MAX_bounds (map photo_position (photos_of id photos))) as Hbound.
    unfold start, startPosition_after in Hq'.
    destruct (MAX (map photo_position (photos_of id photos))) as [m|].
    - specialize (Hbound (photo_position p) (in_map _ _ _ Hp)).
      destruct (Z.eqb_spec m 0); [subst m; contradiction Hmax; reflexivity | lia].
    - apply map_eq_nil in Hbound; rewrite Hbound in Hp; contradiction. }
  split; [reflexivity | split; [exact Hids | split; [|split; [exact Hafter | split]]]].
  - intros p Hp; apply Hall; exact Hp.
  - exact Hnd.
  - intro Hold; unfold photos_of at 1; rewrite filter_app, map_app.
    assert (Hmine : filter (fun p => String.eqb (photo_store_item_id p) id)
                      (photos_from id None start 0 media_ids)
                    = photos_from id None start 0 media_ids).
    { apply forallb_filter_id; apply forallb_forall; intros p Hp.
      destruct (Hall p Hp) as [Hitem _]; rewrite Hitem; apply String.eqb_refl. }
    rewrite Hmine; apply NoDup_app; [exact Hold | exact Hnd|].
    intros position Hp Hq; apply in_map_iff in Hp, Hq.
    destruct Hp as [p [Hpp Hp]], Hq as [q [Hqq Hq]].
    specialize (Hafter p q Hp Hq); lia.
Qed.

Lemma addPhotos_appends_after_the_last_witness :
  map photo_position
      (snd (addPhotos (Some egypt_admin) "i1" ["p3"; "p4"] None box_catalog photo_media
              box_photos))
  = [1; 2; 3; 4]%Z
  /\ NoDup (map photo_position
              (photos_of "i1"
                 (snd (addPhotos (Some egypt_admin) "i1" ["p3"; "p4"] None box_catalog
                         photo_media box_photos)))).
Proof.
  split; [reflexivity|].
  destruct (addPhotos_appends_after_the_last (Some egypt_admin) "i1" ["p3"; "p4"]
              box_catalog photo_media box_photos) as [added [Hrows [_ [_ [_ [_ H]]]]]];
    [discriminate | reflexivity |].
  rewrite Hrows; apply H.
  repeat constructor; simpl; intuition discriminate.
Defined.
